(* ===== verification/_CoqProject ===== *)
-Q . S2P
Prelude.v
JSNumber.v
JSString.v
Shortest.v
Hooks.v
Layout.v
Compact.v
App.v
Callbacks.v
Renderer.v
Grid.v
Spec.v
View.v
Tree.v
Dashboard.v
Conformance.v
Loop.v
