(* ===== verification/Prelude.v ===== *)
(** * birdyview: a verified model of the configurable dashboard

    The program is one React function component, [App] in [src/src/App.tsx].
    It keeps four pieces of hook state ([items], [columns], [newCounter],
    [selectedItemId]), hands [items] and [columns] to the grid component of
    react-grid-layout, and reacts to five kinds of event: the grid reporting
    a new layout, a click on "Add Widget", a click on "Remove Selected", a
    click on a widget, and a change of the "Columns" field.

    ** Parts of the program and the files that model them

    - JavaScript numbers ([JSNumber.v]).  Every number the component
      computes is an integer-valued IEEE double, NaN or an infinity.  The
      type [number] has exactly these values; a finite value is a [Z] and
      every arithmetic result goes through [to_double], the rounding to the
      nearest double with ties to even.  The operators are the ones the
      source uses: [+] (line 39), [*], [%] and [length] (line 46), [>] and
      [isNaN] (line 64), the literal [Infinity] (line 47).

    - Strings ([JSString.v]).  The template literal [`new-${newCounter}`]
      (line 38) applies Number::toString: [Number_toString] prints the
      digits of a safe integer with [decimal] and any larger integer with
      [shortest_notation], the shortest digits that read back as the same
      double, padded with zeros up to 21 digits and in exponent notation
      beyond.  [parseInt] (line 63) skips white space, reads a sign and the
      longest prefix of decimal digits, and is NaN when there is none.
      [truthy] and [strict_eq] are the tests of lines 94, 99 and 59,
      [toUpperCase] the conversion of line 146.
      Strings are sequences of code units below 256.  [Shortest.v] holds
      [Number_toString_ref], the conversion by the shortest numeral alone,
      and the proof that [Number_toString] is equal to it.

    - The state hooks ([Hooks.v]).  [useState] gives a value and a setter; a
      setter call does not change the value the running handler sees, it
      queues an action that is either a new value or a function of the
      previous value.  [SetStateAction] and [apply_action] model one
      action, [run_queue] the processing of a queue at the next render,
      [Hook] what React keeps of a hook between two renders, and
      [useState] the value the hook returns: its argument in the first
      render, the value the queue computes in every later one.
      [useCallback] keeps a callback, as a [Memo] with its dependencies,
      while the dependencies of the render are the same.

    - Layout items ([Layout.v]): the record [Layout] with the fields [i],
      [x], [y], [w], [h] that the component writes, the list [ids] of a
      layout, and the predicates [in_bounds] and [collides] of the grid.

    - The component ([App.v]).  [State] is the tuple of hook values of one
      render.  Each handler of the source is a function from the values
      its closure captured to the list of setter calls it makes, in source
      order: [onLayoutChange], [onAddItem], [onRemoveItem],
      [handleSelectWidget], [handleColumnsChange] and the inline click
      handler of the remove button, [onRemoveSelectedClick].
      [useStates] is the four [useState] calls of lines 26-29: [initial]
      is the first render, and [commit] the render after a list of setter
      calls, one queue per hook.  [Event] enumerates what can happen, [dispatch]
      runs the handler of an event against the current render and commits,
      [run] does so for a sequence of events, and [dispatch_batch] runs
      several handlers in the same render before one commit.

    - The memoised handlers ([Callbacks.v]).  Four handlers are wrapped in
      [useCallback] (lines 31-60): the tree of a render may hold a handler
      created in an earlier render.  A [Fiber] is the state of the hooks
      with the four memoised handlers, [useCallbacks] the [useCallback]
      calls of a render, [handle_memo] the calls of the handlers the tree
      holds, [rerender] an event with the render that follows.  The
      comparison of two arrays by [Object.is] is a parameter, assumed to
      hold only of arrays with the same elements.

    - The grid ([Renderer.v]).  The grid component is not part of the
      repository; the component only relies on what it reports through
      [onLayoutChange].  The class [GridContract] states that contract
      (same ids in the same order, items within the column bounds),
      [any_grid] is the most permissive grid that meets it, [fitted] is
      a layout that meets it (every item moved and cut to lie inside the
      columns), and the labelled transition system [step], [steps],
      [reachable] of the dashboard is parameterised by the grid.

    - Compaction ([Compact.v]), modelled from the specification.
      [compact] sorts the positions of an array of items top to bottom
      and left to right ([order]), then moves each item up to the first
      row below the items already placed that share a column with it
      ([rest], [place], [settle]).  [tidy] is the layout the
      specification asks for: inside the columns ([in_bounds]), no two
      items in one cell ([apart]), no gap below an item ([supported]).

    - A reference grid ([Grid.v]), modelled from the specification.  The
      grid shows [grid_layout]: the items cut to fit the columns
      ([fitted]) and compacted.  A [Gesture] is a drag or a resize of one
      item; [grid_report] is what the grid passes to [onLayoutChange],
      with or without a gesture, [reference_grid] is the grid as an
      instance of [GridContract], and [report] is the render after the
      grid has reported.

    - The specification ([Spec.v]).  The module [spec] is the store of the
      specification on unbounded integers: [setColumns], [replaceLayout],
      [addItem], [removeItem], [toggleSelect], [clearSelectionIfRemoved].
      [abs] reads a render as a store and [abs_event] an event as an
      operation; [exact] is the range of an event on which the numbers of
      the component are the integers of the specification.

    - The rendered tree ([View.v]).  [render] computes from a state the
      props of the JSX that depend on it or carry a handler: the text
      field (lines 76-86), the two buttons (lines 87-103), the grid
      (lines 109-119) and one [Widget] per item (lines 126-151) with its
      key, its [data-grid], its click, its highlight and its label.
      [clicks] lists the click events the tree offers.

    - The tree as a tree ([Tree.v]).  [Element] is a JSX element: a type
      ([tag.Tag]: [div] and the components imported in lines 2-10), an
      optional key, props by name and children, or a text.
      [render_tree] builds the tree of lines 69-155 element by element
      ([toolbarElement], [columnsElement], [addElement],
      [removeElement], [gridElement], [widgetElement]), styling props
      included.  [click] runs the [onClick] handlers from the clicked
      element up to the root, [well_keyed] checks the keys of siblings,
      [highlights] are the widgets drawn with the border of the
      selection (line 136), and [view_of] reads the props of [View.v]
      off a tree.  [App] is the function component itself (lines
      17-156): the hooks of [App.v], then the tree.

    - The dashboard in use ([Dashboard.v]).  [UserAction] is what the
      user can do: click on an element of the tree, type into the
      "Columns" field, drag or resize in the grid.  [grid_callback] is
      the call the grid makes for the props of lines 109-119: with
      [compactType="vertical"] and [isBounded] it is the reference grid,
      and [isDraggable] and [isResizable] allow the gestures ([allowed]).
      The props are the ones the code passes; what the grid does with
      them is modelled from the specification, as the grid itself is.
      [act] runs the handlers an action reaches and lets the grid make
      its call; [interact] is a sequence of actions and [trace] the
      events of [Renderer.v] behind it.

    - The renders between component and grid ([Loop.v]).  The layout the
      grid reports becomes [items] (line 34), and [items] is the prop
      [layout] of the grid (line 111), so a call of the grid changes a
      prop of the grid.  [render_loop] is that exchange: the grid keeps
      the layout it shows and makes its call after a render when the
      layout it computes for its props is another one.  [handled] is the
      state after the handlers of an action, [act_loop] and
      [interact_loop] are actions with the exchange that follows each, and
      [mount_loop] is the dashboard from its first render.

    - Conformance ([Conformance.v]).  [session] is the events of a
      session of the user from the first render, [initial_store] the
      store of the specification at application start, [in_range] the
      texts whose numbers the component and the specification read alike,
      and [sized] the invariant that keeps a run on the range where
      [Spec.v] applies.  For the closed loop the store has a renderer of
      its own: [spec_render] lays out the items of the store
      ([conc_item]) for the columns of the store with the grid of
      [Grid.v] and replaces the layout; [request] is what an action asks
      for (the events of the handlers it reaches, or a gesture),
      [spec_act] one request on the store, [spec_session] the store from
      application start.

    ** What the theorems show

    - [JSNumber]: [to_double] is within half a unit in the last place and
      is the identity on the safe integers; every arithmetic result is a
      double; the counter increment is exact below 2^53 and sticks at 2^53;
      [%] by a positive column count lands in the column range; rounding
      keeps the sign.
    - [JSString]: printing then parsing a safe integer gives it back, so
      printing is injective; [parseInt] ignores whatever follows the
      digits and is NaN exactly when there is no digit; the fuel of
      [decimal] is enough.
    - [Shortest]: on the safe integers the shortest numeral of
      Number::toString is the sequence of the decimal digits, so the two
      branches of [Number_toString] are one algorithm.
    - [Hooks]: queue processing is a left fold; value actions overwrite,
      updater actions compose.
    - [App]: the exact state after every event, on every branch; the
      invariant [wf] (the column count is a positive double, the counter a
      safe integer, the selection the id of an item, no id empty) and the
      invariant [ids_fresh] (ids pairwise distinct, ids yet to be handed out
      unused) with their preservation by every enabled event; idempotence of
      removal; the toggle of the selection; handlers run in one render
      (equal to one render each for the handlers that read no state, one
      item only for two calls of [onAddItem]); a new item lies inside
      the columns exactly when the column count does not divide [2 *
      length + 1]; the scenarios of the specification by evaluation.
    - [Callbacks]: the dependency arrays are complete: after any
      sequence of events the memoised handlers make the setter calls of
      handlers created in the current render, so [dispatch] is the
      behaviour of the component.
    - [Renderer]: [wf] holds in every reachable state; along every
      sequence of events the counter counts the clicks on "Add Widget",
      the ids stay distinct and are, in order, among [a], [b], [new-0],
      [new-1], ...; after a report of the grid the items lie within the
      columns, and in every well-formed state there is a layout the grid
      can report; every widget can be removed in at most two clicks.
    - [Compact]: compaction makes a tidy layout and changes rows only;
      the tidy layouts are exactly its fixed points inside the columns.
    - [Grid]: the reference grid meets the contract, so its runs are
      runs of [any_grid]; after one of its reports no two widgets
      collide and a second report changes nothing; an added widget comes
      to rest below the widgets it shares a column with and moves no
      other; a drag or a resize that stays inside the columns is
      reported with the column and size it set.
    - [Spec]: [dispatch] refines the step of the specification's store on
      the exact range, for one event and for sequences.
    - [Conformance]: the dashboard stays on the exact range by itself.
      Under any grid that meets the contract a run of at most [2^52 - 2]
      clicks on "Add Widget", with typed numerals of at most [2^53], is
      a run of the store of the specification, each report of the grid
      being a [replaceLayout].  The closed loop is simulated by the
      store with its own renderer: after every action the component's
      state reads as the store that has performed the operations of the
      action and then taken the layout its renderer computes from its
      own items.  A component whose handlers compute other items than
      the operations of the store does not satisfy this.  The state of
      the closed loop is also the one the memoised handlers compute.
    - [View]: widgets are keyed by the ids, at most one is highlighted,
      the clicks the tree offers are the enabled ones, and the labels
      are [Widget A], [Widget B], [Widget NEW-k], one per widget.
    - [Tree]: a click anywhere in the tree runs at most one handler,
      and that one is enabled; the events of the clicks of the tree are
      exactly the enabled clicks; a click on a widget or on anything
      inside it toggles the selection of that widget; every reachable
      state renders to a tree whose siblings have distinct keys, and
      in which the highlighted widgets are the selected one, or none
      when nothing is selected.  [tree_view] checks the two
      transcriptions of the JSX against each other ([View.v] is the
      tree under [view_of]); it is a consistency check of the model
      and not a property of the program.

    - [Dashboard]: every interaction is a run of the dashboard under
      the reference grid, after which the state is well formed, tidy,
      with distinct ids, and renders; a click on "Add Widget" adds one
      item below the ones it shares a column with; a click on a widget
      and one on "Remove Selected" remove it and the grid closes the
      gap; input that is rejected (a click on nothing or on the disabled
      button, a text that is no positive number, a gesture on no item)
      leaves the state as it was; a smaller number typed into "Columns"
      cuts the widgets to it, and typing the old number back does not
      restore their widths.
    - [Loop]: the renders that follow an action end: with the grid
      comparing layouts by value, two renders are enough from every
      well-formed state, and the state they end in is the one [act]
      computes; the dashboard from its first render, with the renders
      written out, is [interact] from the first report of the grid.  With
      a comparison that holds of no two layouts the renders never end.

    ** Bounds

    Compaction needs no fuel: [settle] recurses on the list of positions,
    and [order] is stdpp's [merge_sort].  The coordinates of a compacted
    layout are integers without bound; [fitted] has made them finite
    before.  Numbers are exact: no bound is placed on [Z].  [to_double]
    rounds to 53 bits of precision and overflows to an infinity at
    2^1024, as IEEE 754 binary64 does.  Negative zero is identified with zero (the component
    never divides by a number and never prints one that could be -0).
    The invariant [wf] shows that the only number the component prints,
    [newCounter], stays at or below 2^53, where Number::toString prints
    plain digits.  Digit printing uses fuel [S (log2 n)], which is at least
    the number of decimal digits of [n]; a theorem of [JSString] shows it never
    runs out.  The search of [shortest] tries 1 to 17 digits: 17 digits
    always identify a double.  Theorems about "Add Widget" that need exact
    arithmetic assume a counter below 2^53 and at most 2^52 items, so that
    [2 * length] is exact.  [Conformance] turns these into a bound on the
    session: at most [2^52 - 2] actions, since an action adds at most one
    widget to the two of the first render.  [render_loop] takes the number
    of renders it may use as fuel and is [None] when they do not suffice:
    a theorem of [Loop] shows that two renders always suffice when the grid
    compares by value (one in which the grid makes its call, one in which
    it is silent), and that more fuel gives the same state.

    ** Not modelled

    - What the browser draws for the styling props of the tree, and the
      two CSS imports; the elements MUI components render inside
      themselves: a click is modelled on the elements of the JSX.
    - Strings with code units beyond 255: [toUpperCase] is [None] on the
      two code units whose upper case leaves that range.
    - The code of react-grid-layout, which is not in the repository.  The
      grid of [Compact.v] and [Grid.v] is the one the specification
      describes; its gestures are given in grid cells, and the pixel
      geometry of the pointer, the placeholder shown during a gesture
      and the library's own collision loop have no counterpart.  Props
      of the grid other than the ones [App] passes are not given a
      meaning: [grid_callback] is [None] for them.
    - When React schedules a render, and that it skips the render for a
      state that did not change: they decide how often [App] is called,
      not the values its hooks return.
    - The browser's sanitisation of the value of a numeric input:
      [handleColumnsChange] is modelled on every string, which includes
      every string the browser can deliver.  Which strings those are is
      fixed by the browser and stated neither in the repository nor in
      the specification.
    - The pixels of the grid: [rowHeight] and [gridWidth] are props of
      the grid and of the box around it, and the component computes
      nothing from them.

    Every line of [src/src/App.tsx] with behaviour of its own is
    modelled; what is left out belongs to React, to the browser or to
    react-grid-layout.

    This file is the prelude: the notation scope of JavaScript operators,
    the development's tactics and hint database, and the list facts the
    component files share. *)

From Stdlib Require Export Ascii.
From stdpp Require Export strings numbers.
From stdpp Require Export base tactics option list sorting.

(** ** Notation scope for JavaScript operators *)

Declare Scope js_scope.
Delimit Scope js_scope with js.

Reserved Notation "a +ⱼ b" (at level 50, left associativity).
Reserved Notation "a *ⱼ b" (at level 40, left associativity).
Reserved Notation "a %ⱼ b" (at level 40, left associativity).
Reserved Notation "a >ⱼ b" (at level 70, no associativity).

(** ** Hint database and tactics *)

Create HintDb dash discriminated.
Create Rewrite HintDb dash.

(** Case analysis on every [decide], boolean test and [match] left in the
    goal. *)
Ltac case_tests :=
  repeat first
    [ case_decide
    | case_bool_decide
    | match goal with
      | |- context [if ?b then _ else _] => destruct b eqn:?
      end
    | case_match ];
  simplify_eq/=.

(** Closed goals about executable definitions. *)
Ltac by_eval := vm_compute; first [ reflexivity | done | intuition congruence ].

(** ** Lists: removal by key *)

Section remove_by_key.
Context {A K : Type} `{EqDecision K} (key : A → K).
Implicit Types (l : list A) (k : K).

Lemma filter_key_fmap k l :
  key <$> filter (λ a, key a ≠ k) l = filter (λ k', k' ≠ k) (key <$> l).
Proof.
  induction l as [|a l IH]; [done|].
  rewrite fmap_cons, !filter_cons. case_decide; csimpl; by rewrite IH.
Qed.

Lemma filter_key_absent k l :
  k ∉ key <$> l → filter (λ a, key a ≠ k) l = l.
Proof.
  induction l as [|a l IH]; [done|].
  rewrite fmap_cons, not_elem_of_cons, filter_cons. intros [Hne Hl].
  rewrite decide_True by done. by rewrite IH.
Qed.

Lemma filter_key_gone k l : k ∉ key <$> filter (λ a, key a ≠ k) l.
Proof.
  rewrite list_elem_of_fmap. intros (a & -> & Ha).
  apply list_elem_of_filter in Ha as [Hne _]. done.
Qed.

Lemma filter_key_idem k l :
  filter (λ a, key a ≠ k) (filter (λ a, key a ≠ k) l)
  = filter (λ a, key a ≠ k) l.
Proof. apply filter_key_absent, filter_key_gone. Qed.

Lemma filter_key_comm k1 k2 l :
  filter (λ a, key a ≠ k1) (filter (λ a, key a ≠ k2) l)
  = filter (λ a, key a ≠ k2) (filter (λ a, key a ≠ k1) l).
Proof. rewrite !list_filter_filter. apply list_filter_iff. tauto. Qed.

Lemma elem_of_filter_key k k' l :
  k' ∈ key <$> filter (λ a, key a ≠ k) l ↔ k' ≠ k ∧ k' ∈ key <$> l.
Proof.
  rewrite filter_key_fmap, list_elem_of_filter. tauto.
Qed.

Lemma NoDup_filter_key k l :
  NoDup (key <$> l) → NoDup (key <$> filter (λ a, key a ≠ k) l).
Proof. rewrite filter_key_fmap. apply NoDup_filter. Qed.
End remove_by_key.

(** ** Lists: the elements an optional value names *)

Section filter_selected.
Context {A : Type} `{EqDecision A}.
Implicit Types (k : A) (sel : option A) (l : list A).

Lemma filter_selected_notin sel l :
  (∀ k, sel = Some k → k ∉ l) → filter (λ k, sel = Some k) l = [].
Proof.
  induction l as [|k l IH]; [done|]. intros Hsel.
  rewrite filter_cons_False.
  - apply IH. intros k' Hk'. by apply (not_elem_of_cons l k' k), Hsel.
  - intros Hk. apply (Hsel k Hk). by left.
Qed.

(** Among distinct elements, the ones equal to [sel] are [sel] itself. *)
Lemma filter_selected sel l :
  NoDup l → (∀ k, sel = Some k → k ∈ l) →
  filter (λ k, sel = Some k) l = option_list sel.
Proof.
  destruct sel as [k|]; [|by intros; apply filter_selected_notin].
  intros Hnd Hin. specialize (Hin k eq_refl). simpl.
  induction Hnd as [|k' l Hk' Hnd IH]; [by apply elem_of_nil in Hin|].
  apply elem_of_cons in Hin as [<-|Hin].
  - rewrite filter_cons_True, filter_selected_notin; [done| |done]. by intros ? [= <-].
  - rewrite filter_cons_False, IH; [done..|]. by intros [= ->].
Qed.
End filter_selected.

(** ** Lists: appending one element *)

Lemma NoDup_snoc {A} (l : list A) (a : A) :
  NoDup (l ++ [a]) ↔ (a ∉ l) ∧ NoDup l.
Proof.
  rewrite NoDup_app. split.
  - intros (Hl & Hd & _). split; [|done]. intros Ha. apply (Hd a Ha). by left.
  - intros [Ha Hl]. split_and!; [done| |apply NoDup_singleton].
    intros b Hb ->%list_elem_of_singleton. done.
Qed.

(** ** Strings *)

Lemma string_app_cons c s t : String c s +:+ t = String c (s +:+ t).
Proof. done. Qed.

Lemma string_app_nil_l t : "" +:+ t = t.
Proof. done. Qed.

Lemma string_app_nil_r s : s +:+ "" = s.
Proof. induction s as [|c s IH]; [done|]. by rewrite string_app_cons, IH. Qed.

Lemma string_app_assoc s t u : (s +:+ t) +:+ u = s +:+ (t +:+ u).
Proof. induction s as [|c s IH]; [done|]. by rewrite !string_app_cons, IH. Qed.

(** ** Positions of a list *)

(** Reading a list at every position gives the list. *)
Lemma lookup_total_seq `{!Inhabited A} (l : list A) :
  (l !!!.) <$> seq 0 (length l) = l.
Proof.
  apply list_eq. intros k. rewrite list_lookup_fmap.
  destruct (l !! k) as [a|] eqn:Ha.
  - rewrite lookup_seq_lt by (by eapply lookup_lt_Some). simpl.
    by rewrite (list_lookup_total_correct _ _ _ Ha).
  - by rewrite lookup_seq_ge by (by apply lookup_ge_None).
Qed.

(** A sorted list is sorted for every relation that agrees on its
    elements. *)
Lemma StronglySorted_ext {A} (R1 R2 : relation A) l :
  (∀ a b, a ∈ l → b ∈ l → R1 a b → R2 a b) →
  StronglySorted R1 l → StronglySorted R2 l.
Proof.
  intros HR Hs. induction Hs as [|a l Hs IH Ha]; constructor.
  - apply IH. intros b c ??. apply HR; by right.
  - apply Forall_forall. intros b Hb. apply HR; [by left|by right|].
    by eapply Forall_forall in Ha.
Qed.

(** The remainder by [c] is [c - 1] exactly when [c] divides the
    successor. *)
Lemma mod_last_divide (a c : Z) : (0 < c)%Z → (a `mod` c = c - 1 ↔ (c | a + 1))%Z.
Proof.
  intros Hc. split.
  - intros H. exists (a `div` c + 1)%Z. pose proof (Z.div_mod a c). lia.
  - intros [k Hk]. symmetry. apply (Z.mod_unique _ _ (k - 1)%Z); lia.
Qed.

(** [alter] changes nothing at an index the list does not have. *)
Lemma list_alter_ge {A} (f : A → A) (l : list A) (k : nat) :
  length l ≤ k → alter f k l = l.
Proof.
  revert k. induction l as [|a l IH]; intros [|k] Hk; simpl in *; [done|done|lia|].
  f_equal. apply IH. lia.
Qed.

#[export] Hint Resolve filter_key_gone NoDup_filter_key : dash.
#[export] Hint Rewrite string_app_cons string_app_nil_l string_app_nil_r : dash.
#[export] Hint Rewrite @filter_key_idem : dash.
