(* ===== verification/JSNumber.v ===== *)
(** JavaScript numbers as the component uses them: integer-valued doubles,
    NaN and the two infinities, with the operators of [src/src/App.tsx]
    ([+], [*], [%], [>], [isNaN], [Infinity]).  A finite value is a [Z];
    every arithmetic result is rounded by [to_double] to the nearest
    binary64 value, ties to even, overflowing to an infinity. *)

From S2P Require Import Prelude.

#[local] Open Scope Z_scope.

(** ** Values *)

Inductive number : Type :=
  | NaN
  | Num (z : Z)
  | PosInf
  | NegInf.

#[export] Instance number_eq_dec : EqDecision number.
Proof. solve_decision. Defined.

#[export] Instance number_inhabited : Inhabited number := populate NaN.

(** ** Rounding to binary64 *)

(** Bits of precision and the exponent bound of binary64. *)
Definition prec : Z := 53.
Definition emax : Z := 1024.

(** [round_even m s]: the multiple of [2^s] nearest to [m >= 0]; of two
    equally near multiples the one with an even quotient. *)
Definition round_even (m s : Z) : Z :=
  let q := Z.shiftr m s in
  let r := Z.land m (Z.ones s) in
  let half := Z.shiftl 1 (s - 1) in
  let up := bool_decide (half < r) || (bool_decide (r = half) && Z.odd q) in
  Z.shiftl (if up then q + 1 else q) s.

(** The magnitude [m >= 0] as a double: kept when it has at most [prec]
    significant bits, rounded at the bit that leaves [prec] of them
    otherwise; [None] is overflow. *)
Definition round_mag (m : Z) : option Z :=
  let s := Z.log2 m + 1 - prec in
  if bool_decide (s ≤ 0) then Some m
  else
    let r := round_even m s in
    if bool_decide (2 ^ emax ≤ r) then None else Some r.

(** The Number value of a mathematical integer. *)
Definition to_double (z : Z) : number :=
  match round_mag (Z.abs z) with
  | Some r => Num (Z.sgn z * r)
  | None => if bool_decide (0 < z) then PosInf else NegInf
  end.

(** [2^53], one above JavaScript's [Number.MAX_SAFE_INTEGER]: every
    integer of at most this magnitude is a double. *)
Definition MAX_SAFE : Z := 2 ^ prec.

Definition safe (n : number) : Prop :=
  match n with
  | Num z => 0 ≤ z ≤ MAX_SAFE
  | _ => False
  end.

#[export] Instance safe_dec n : Decision (safe n).
Proof. destruct n; simpl; apply _. Defined.

(** A value of [number] that rounding leaves alone: one a double can hold. *)
Definition is_double (n : number) : Prop :=
  match n with
  | Num z => to_double z = Num z
  | _ => True
  end.

(** ** Operators *)

Definition Infinity : number := PosInf.

Definition isNaN (a : number) : bool :=
  match a with
  | NaN => true
  | _ => false
  end.

Definition number_sign (a : number) : Z :=
  match a with
  | NaN => 0
  | Num z => Z.sgn z
  | PosInf => 1
  | NegInf => -1
  end.

(** An infinity of the given sign; the product of an infinity and zero
    is NaN. *)
Definition inf_of_sign (s : Z) : number :=
  match s with
  | Zpos _ => PosInf
  | Zneg _ => NegInf
  | Z0 => NaN
  end.

(** [a + b] *)
Definition number_add (a b : number) : number :=
  match a, b with
  | NaN, _ | _, NaN => NaN
  | PosInf, NegInf | NegInf, PosInf => NaN
  | PosInf, _ | _, PosInf => PosInf
  | NegInf, _ | _, NegInf => NegInf
  | Num x, Num y => to_double (x + y)
  end.

(** [a * b] *)
Definition number_mul (a b : number) : number :=
  match a, b with
  | NaN, _ | _, NaN => NaN
  | Num x, Num y => to_double (x * y)
  | _, _ => inf_of_sign (number_sign a * number_sign b)
  end.

(** [n % d]: the remainder has the sign of the dividend and is exact. *)
Definition number_rem (n d : number) : number :=
  match n, d with
  | NaN, _ | _, NaN => NaN
  | PosInf, _ | NegInf, _ => NaN
  | Num x, PosInf | Num x, NegInf => Num x
  | Num x, Num y => if bool_decide (y = 0) then NaN else Num (Z.rem x y)
  end.

(** [a > b]: false as soon as an operand is NaN. *)
Definition number_gt (a b : number) : bool :=
  match a, b with
  | NaN, _ | _, NaN => false
  | PosInf, PosInf => false
  | PosInf, _ => true
  | NegInf, _ => false
  | Num _, PosInf => false
  | Num _, NegInf => true
  | Num x, Num y => bool_decide (y < x)
  end.

Notation "a +ⱼ b" := (number_add a b) : js_scope.
Notation "a *ⱼ b" := (number_mul a b) : js_scope.
Notation "a %ⱼ b" := (number_rem a b) : js_scope.
Notation "a >ⱼ b" := (number_gt a b) : js_scope.

(** The [length] of an array. *)
Definition array_length {A} (l : list A) : number := Num (Z.of_nat (length l)).

(** Linear arithmetic with the constants of binary64 unfolded. *)
Ltac safe_lia := simpl in *; unfold MAX_SAFE, prec, emax in *; lia.

(** ** Rounding: the safe range *)

Lemma round_mag_small m : 0 ≤ m < 2 ^ prec → round_mag m = Some m.
Proof.
  intros [H0 Hlt]. unfold round_mag.
  rewrite bool_decide_eq_true_2; [done|].
  destruct (decide (m = 0)) as [->|]; [done|].
  assert (Z.log2 m < prec) by (apply Z.log2_lt_pow2; lia). lia.
Qed.

Lemma round_mag_safe m : 0 ≤ m ≤ MAX_SAFE → round_mag m = Some m.
Proof.
  intros [H0 Hle]. destruct (decide (m = MAX_SAFE)) as [->|]; [by_eval|].
  apply round_mag_small. unfold MAX_SAFE in *. lia.
Qed.

Lemma to_double_exact z : Z.abs z ≤ MAX_SAFE → to_double z = Num z.
Proof.
  intros Hz. unfold to_double.
  rewrite round_mag_safe by lia. f_equal. lia.
Qed.

Lemma to_double_0 : to_double 0 = Num 0.
Proof. done. Qed.


(** ** Rounding: results are fixed points *)

(** The quotient chosen by [round_even]. *)
Lemma round_even_quot m s :
  0 < s → ∃ q, round_even m s = q * 2 ^ s ∧ m / 2 ^ s ≤ q ≤ m / 2 ^ s + 1.
Proof.
  intros Hs. unfold round_even. rewrite Z.shiftr_div_pow2 by lia.
  eexists. rewrite Z.shiftl_mul_pow2 by lia. split; [done|].
  case_match; lia.
Qed.

Lemma round_even_fixed q s : 0 < s → round_even (q * 2 ^ s) s = q * 2 ^ s.
Proof.
  intros Hs. unfold round_even.
  assert (0 < 2 ^ s) by (apply Z.pow_pos_nonneg; lia).
  assert (0 < 2 ^ (s - 1)) by (apply Z.pow_pos_nonneg; lia).
  rewrite Z.shiftr_div_pow2, Z.land_ones, !Z.shiftl_mul_pow2 by lia.
  rewrite Z.mod_mul, Z.div_mul by lia.
  rewrite !bool_decide_eq_false_2 by lia. done.
Qed.

Lemma round_mag_fixed q s :
  2 ^ (prec - 1) ≤ q < 2 ^ prec → 0 ≤ s → q * 2 ^ s < 2 ^ emax →
  round_mag (q * 2 ^ s) = Some (q * 2 ^ s).
Proof.
  intros Hq Hs Hmax. unfold round_mag.
  assert (0 < q) by (unfold prec in *; lia).
  assert (Z.log2 q = prec - 1) as Hlog.
  { apply Z.log2_unique; [done|]. by replace (Z.succ (prec - 1)) with prec by lia. }
  rewrite Z.log2_mul_pow2, Hlog by lia.
  replace (s + (prec - 1) + 1 - prec) with s by lia.
  case_bool_decide; [done|].
  rewrite round_even_fixed by lia.
  by rewrite bool_decide_eq_false_2 by lia.
Qed.

Lemma round_mag_idem m r : 0 ≤ m → round_mag m = Some r → round_mag r = Some r.
Proof.
  intros Hm. unfold round_mag at 1.
  set (s := Z.log2 m + 1 - prec).
  case_bool_decide as Hs.
  { intros [= <-]. unfold round_mag. by rewrite bool_decide_eq_true_2. }
  case_bool_decide as Hov; [done|]. intros [= <-].
  destruct (round_even_quot m s) as (q & Hq & Hlo & Hhi); [lia|].
  rewrite Hq in *.
  assert (0 < m) by (destruct (decide (m = 0)) as [->|]; [destruct Hs; by_eval|lia]).
  assert (2 ^ (prec - 1) ≤ m / 2 ^ s < 2 ^ prec) as [Hq1 Hq2].
  { pose proof (Z.log2_spec m ltac:(done)) as [Hl1 Hl2].
    assert (0 < 2 ^ s) by (apply Z.pow_pos_nonneg; lia).
    replace (Z.log2 m) with ((prec - 1) + s) in Hl1 by lia.
    replace (Z.succ (Z.log2 m)) with (prec + s) in Hl2 by lia.
    rewrite Z.pow_add_r in Hl1, Hl2 by (unfold prec; lia).
    split.
    - apply Z.div_le_lower_bound; lia.
    - apply Z.div_lt_upper_bound; lia. }
  destruct (decide (q < 2 ^ prec)).
  - apply round_mag_fixed; lia.
  - assert (q = 2 ^ prec) as -> by lia.
    replace (2 ^ prec * 2 ^ s) with (2 ^ (prec - 1) * 2 ^ (s + 1)) in *.
    2:{ rewrite <-!Z.pow_add_r by (unfold prec; lia). f_equal. lia. }
    apply round_mag_fixed; [|lia|lia].
    split; [lia|]. apply Z.pow_lt_mono_r; unfold prec; lia.
Qed.

Lemma round_mag_nonneg m r : 0 ≤ m → round_mag m = Some r → 0 ≤ r.
Proof.
  intros Hm. unfold round_mag. case_bool_decide; [by intros [= <-]|].
  case_bool_decide; [done|]. intros [= <-].
  destruct (round_even_quot m (Z.log2 m + 1 - prec)) as (q & -> & Hlo & _); [lia|].
  assert (0 ≤ m / 2 ^ (Z.log2 m + 1 - prec)) by (apply Z.div_pos; [lia|apply Z.pow_pos_nonneg; lia]).
  apply Z.mul_nonneg_nonneg; [lia|]. apply Z.pow_nonneg. lia.
Qed.

Lemma round_mag_0 m r : 0 ≤ m → round_mag m = Some r → r = 0 → m = 0.
Proof.
  intros Hm Hr ->. unfold round_mag in Hr.
  case_bool_decide; [by simplify_eq|]. case_bool_decide; [done|]. 
  destruct (round_even_quot m (Z.log2 m + 1 - prec)) as (q & Hq & Hlo & _); [lia|].
  simplify_eq. rewrite Hq in *.
  assert (0 < 2 ^ (Z.log2 m + 1 - prec)) by (apply Z.pow_pos_nonneg; lia).
  assert (0 < m) by (destruct (decide (m = 0)) as [->|]; [done|lia]).
  pose proof (Z.log2_spec m ltac:(done)) as [Hl1 _].
  assert (1 ≤ m / 2 ^ (Z.log2 m + 1 - prec)).
  { apply Z.div_le_lower_bound; [lia|]. rewrite Z.mul_1_r.
    etrans; [|exact Hl1]. apply Z.pow_le_mono_r; unfold prec; lia. }
  nia.
Qed.

Lemma to_double_is_double z : is_double (to_double z).
Proof.
  unfold to_double. destruct (round_mag (Z.abs z)) as [r|] eqn:Hr; [|by case_bool_decide].
  simpl. unfold to_double.
  pose proof (round_mag_nonneg _ _ (Z.abs_nonneg z) Hr).
  pose proof (round_mag_idem _ _ (Z.abs_nonneg z) Hr) as Hidem.
  pose proof (round_mag_0 _ _ (Z.abs_nonneg z) Hr) as H0.
  destruct z as [|p|p]; simpl Z.sgn.
  - vm_compute in Hr. by simplify_eq.
  - rewrite Z.mul_1_l, Z.abs_eq, Hidem by done. f_equal.
    destruct r; simpl; lia.
  - replace (Z.abs (-1 * r)) with r by lia. rewrite Hidem. f_equal.
    destruct r; simpl; lia.
Qed.

(** ** Operators on the ranges the component reaches *)

Lemma number_add_safe x y :
  Z.abs (x + y) ≤ MAX_SAFE → (Num x +ⱼ Num y)%js = Num (x + y).
Proof. apply to_double_exact. Qed.

Lemma number_mul_safe x y :
  Z.abs (x * y) ≤ MAX_SAFE → (Num x *ⱼ Num y)%js = Num (x * y).
Proof. apply to_double_exact. Qed.

Lemma number_succ_sticks : (Num MAX_SAFE +ⱼ Num 1)%js = Num MAX_SAFE.
Proof. by_eval. Qed.

Lemma number_succ_safe n : safe n → safe (n +ⱼ Num 1)%js.
Proof.
  destruct n as [|z| |]; simpl; try done. intros Hz.
  destruct (decide (z = MAX_SAFE)) as [->|]; [by_eval|].
  rewrite to_double_exact; safe_lia.
Qed.

Lemma number_rem_pos x y :
  0 ≤ x → 0 < y → (Num x %ⱼ Num y)%js = Num (x `mod` y).
Proof.
  intros Hx Hy. simpl. rewrite bool_decide_eq_false_2 by lia.
  by rewrite Z.rem_mod_nonneg by lia.
Qed.

Lemma number_gt_0 n :
  (n >ⱼ Num 0)%js = true ↔ n = PosInf ∨ ∃ z, n = Num z ∧ 0 < z.
Proof.
  destruct n as [|z| |]; simpl; rewrite ?bool_decide_eq_true; split;
    try done; eauto; intros [?|(? & ? & ?)]; by simplify_eq.
Qed.

Lemma array_length_double {A} (l : list A) :
  Z.of_nat (length l) ≤ 2 ^ (prec - 1) →
  (array_length l *ⱼ Num 2)%js = Num (2 * Z.of_nat (length l)).
Proof.
  intros Hl. unfold array_length.
  rewrite number_mul_safe, Z.mul_comm; [done|safe_lia].
Qed.

#[export] Hint Resolve number_succ_safe to_double_is_double : dash.

(** ** Rounding is to the nearest double *)

(** The parts of [m] that [round_even] looks at. *)
Lemma round_even_split m s :
  0 < s →
  ∃ q r, m = q * 2 ^ s + r ∧ 0 ≤ r < 2 ^ s
    ∧ round_even m s
      = (if bool_decide (2 ^ (s - 1) < r) || (bool_decide (r = 2 ^ (s - 1)) && Z.odd q)
         then q + 1 else q) * 2 ^ s.
Proof.
  intros Hs. assert (0 < 2 ^ s) by (apply Z.pow_pos_nonneg; lia).
  exists (m `div` 2 ^ s), (m `mod` 2 ^ s). split; [|split].
  - rewrite Z.mul_comm. apply Z.div_mod. lia.
  - by apply Z.mod_pos_bound.
  - unfold round_even. cbv zeta.
    by rewrite Z.shiftr_div_pow2, Z.land_ones, !Z.shiftl_mul_pow2, Z.mul_1_l by lia.
Qed.

Lemma round_even_near m s : 0 < s → 2 * Z.abs (round_even m s - m) ≤ 2 ^ s.
Proof.
  intros Hs. destruct (round_even_split m s Hs) as (q & r & -> & Hr & ->).
  assert (2 ^ s = 2 * 2 ^ (s - 1)) as Hhalf.
  { rewrite <-Z.pow_succ_r by lia. f_equal. lia. }
  destruct (bool_decide (2 ^ (s - 1) < r)) eqn:Hlt; simpl.
  { apply bool_decide_eq_true in Hlt. lia. }
  apply bool_decide_eq_false in Hlt.
  destruct (bool_decide (r = 2 ^ (s - 1))) eqn:Heq; simpl.
  - apply bool_decide_eq_true in Heq. destruct (Z.odd q); lia.
  - lia.
Qed.

(** On a tie the quotient chosen is even. *)
Lemma round_even_tie q s :
  0 < s → Z.even (round_even (q * 2 ^ s + 2 ^ (s - 1)) s `div` 2 ^ s) = true.
Proof.
  intros Hs. assert (0 < 2 ^ s) by (apply Z.pow_pos_nonneg; lia).
  assert (0 < 2 ^ (s - 1)) by (apply Z.pow_pos_nonneg; lia).
  assert (2 ^ s = 2 * 2 ^ (s - 1)) as Hhalf.
  { rewrite <-Z.pow_succ_r by lia. f_equal. lia. }
  destruct (round_even_split (q * 2 ^ s + 2 ^ (s - 1)) s Hs) as (q' & r & Hm & Hr & ->).
  assert (q' = q ∧ r = 2 ^ (s - 1)) as [-> ->].
  { apply (Z.div_mod_unique (2 ^ s)); lia. }
  rewrite (bool_decide_eq_false_2 (_ < _)), (bool_decide_eq_true_2 (_ = _)) by lia.
  simpl. rewrite Z.div_mul by lia.
  destruct (Z.odd q) eqn:Hodd.
  - by rewrite Z.even_add, <-Z.negb_odd, Hodd.
  - by rewrite <-Z.negb_odd, Hodd.
Qed.

Lemma to_double_near z r :
  to_double z = Num r →
  2 * Z.abs (r - z) ≤ 2 ^ Z.max 0 (Z.log2 (Z.abs z) + 1 - prec) ∧ (Z.abs z < 2 ^ prec → r = z).
Proof.
  unfold to_double, round_mag.
  case_bool_decide as Hs.
  { intros [= <-]. rewrite Z.max_l by done. split; [|intros _]; lia. }
  case_bool_decide; [by case_bool_decide|]. intros [= <-].
  pose proof (round_even_near (Z.abs z) (Z.log2 (Z.abs z) + 1 - prec) ltac:(lia))
    as Hnear.
  rewrite Z.max_r by lia. split.
  - clear -Hnear. lia.
  - intros Hlt. destruct (decide (z = 0)) as [->|]; [done|].
    assert (Z.log2 (Z.abs z) < prec) by (apply Z.log2_lt_pow2; lia). lia.
Qed.

(** ** Rounding keeps the sign *)

Lemma to_double_sign z : number_sign (to_double z) = Z.sgn z.
Proof.
  unfold to_double. destruct (round_mag (Z.abs z)) as [r|] eqn:Hr.
  - pose proof (round_mag_nonneg _ _ (Z.abs_nonneg z) Hr).
    pose proof (round_mag_0 _ _ (Z.abs_nonneg z) Hr). simpl. lia.
  - case_bool_decide; simpl; [lia|].
    destruct (decide (z = 0)) as [->|]; [by vm_compute in Hr|lia].
Qed.

Lemma number_gt_0_sign n : (n >ⱼ Num 0)%js = bool_decide (number_sign n = 1).
Proof.
  destruct n as [|z| |]; simpl; try done.
  apply bool_decide_ext. lia.
Qed.

Lemma to_double_gt_0 z : (to_double z >ⱼ Num 0)%js = bool_decide (0 < z).
Proof. rewrite number_gt_0_sign, to_double_sign. apply bool_decide_ext. lia. Qed.

Lemma to_double_not_NaN z : isNaN (to_double z) = false.
Proof. unfold to_double. by case_tests. Qed.

(** * Properties *)

(** C34: [to_double] rounds to a nearest double: the result is within half
    a unit in the last place of the integer, the unit being [2^(L - 53)]
    for an integer of [L] bits, and an integer below [2^53] in magnitude
    is not rounded at all. *)
Theorem to_double_nearest z r :
  to_double z = Num r →
  2 * Z.abs (r - z) ≤ 2 ^ Z.max 0 (Z.log2 (Z.abs z) + 1 - prec)
  ∧ (Z.abs z < 2 ^ prec → r = z).
Proof. apply to_double_near. Qed.

Lemma to_double_nearest_witness :
  2 * Z.abs (9007199254740992 - 9007199254740993) ≤ 2 ^ 1.
Proof.
  pose proof (to_double_nearest 9007199254740993 9007199254740992 eq_refl) as [H _].
  exact H.
Defined.

(** C35: every arithmetic result is a double: rounding a rounded value
    changes nothing, for [to_double] itself and for the sums and products
    of any two numbers. *)
Theorem arithmetic_is_double z a b :
  is_double (to_double z) ∧ is_double (a +ⱼ b)%js ∧ is_double (a *ⱼ b)%js.
Proof.
  split_and!; [apply to_double_is_double|..];
    destruct a as [|x| |], b as [|y| |]; simpl; try done;
    try apply to_double_is_double; by destruct (Z.sgn _).
Qed.

(** Inside the safe range, magnitude at most [2^53], an integer is
    its own Number value, so sums and products that stay in the range are
    the sums and products of integers. *)
Theorem to_double_safe x y :
  Z.abs x ≤ MAX_SAFE → Z.abs (x + y) ≤ MAX_SAFE → Z.abs (x * y) ≤ MAX_SAFE →
  to_double x = Num x
  ∧ (Num x +ⱼ Num y)%js = Num (x + y)
  ∧ (Num x *ⱼ Num y)%js = Num (x * y).
Proof.
  intros Hx Hadd Hmul.
  split_and!; [by apply to_double_exact|by apply number_add_safe|by apply number_mul_safe].
Qed.

Lemma to_double_safe_witness :
  to_double 6 = Num 6 ∧ (Num 6 +ⱼ Num 7)%js = Num 13 ∧ (Num 6 *ⱼ Num 7)%js = Num 42.
Proof. apply (to_double_safe 6 7); by_eval. Defined.

(** C36: the increment [n + 1] of a counter: exact while the counter is a
    safe integer below [2^53], and without effect at [2^53], where
    [2^53 + 1] rounds back to [2^53]. *)
Theorem increment_saturates n :
  0 ≤ n ≤ MAX_SAFE →
  (Num n +ⱼ Num 1)%js = Num (if decide (n = MAX_SAFE) then n else n + 1).
Proof.
  intros Hn. case_decide as Hmax; [subst; apply number_succ_sticks|].
  apply number_add_safe. safe_lia.
Qed.

Lemma increment_saturates_witness :
  (Num 41 +ⱼ Num 1)%js = Num 42
  ∧ (Num 9007199254740992 +ⱼ Num 1)%js = Num 9007199254740992.
Proof.
  split.
  - apply (increment_saturates 41). by_eval.
  - apply (increment_saturates 9007199254740992). by_eval.
Defined.

(** [a % c] for a dividend that is not negative and a positive
    divisor is the mathematical remainder, a number of the range
    [0 .. c-1]. *)
Theorem rem_in_range a c :
  0 ≤ a → 0 < c →
  ∃ r, number_rem (Num a) (Num c) = Num r ∧ r = a `mod` c ∧ 0 ≤ r < c.
Proof.
  intros Ha Hc. exists (a `mod` c).
  split_and!; [by apply number_rem_pos|done|apply Z.mod_pos_bound; lia..].
Qed.

Lemma rem_in_range_witness :
  ∃ r, number_rem (Num 4) (Num 10) = Num r ∧ r = 4 `mod` 10 ∧ 0 ≤ r < 10.
Proof. apply (rem_in_range 4 10); lia. Defined.

(** Rounding keeps the sign: [to_double z] is never NaN, and
    [to_double z > 0] holds exactly when [z > 0]. *)
Theorem to_double_positive z :
  isNaN (to_double z) = false
  ∧ number_sign (to_double z) = Z.sgn z
  ∧ (to_double z >ⱼ Num 0)%js = bool_decide (0 < z).
Proof.
  split_and!; [apply to_double_not_NaN|apply to_double_sign|apply to_double_gt_0].
Qed.
