(* ===== verification/JSString.v ===== *)
(** Strings and the conversions between numbers and strings that
    [src/src/App.tsx] performs: Number::toString inside the template
    literal [`new-${newCounter}`] (line 38), [parseInt(value, 10)]
    (line 63), and the truthiness test of [selectedItemId] (lines 94
    and 99).  A string is a sequence of code units below 256. *)

From S2P Require Import Prelude JSNumber.

#[local] Open Scope Z_scope.

(** ** Decimal digits *)

Definition digit_char (d : Z) : ascii := ascii_of_N (Z.to_N (48 + d)).

Definition digit_value (c : ascii) : option Z :=
  let n := Z.of_N (N_of_ascii c) in
  if bool_decide (48 ≤ n ≤ 57) then Some (n - 48) else None.

(** The digits of [n >= 0], most significant first, in front of [acc]:
    one digit per unit of fuel. *)
Fixpoint digits_go (fuel : nat) (n : Z) (acc : string) : string :=
  match fuel with
  | O => acc
  | S fuel' =>
      let acc' := String (digit_char (n `mod` 10)) acc in
      if bool_decide (n `div` 10 = 0) then acc'
      else digits_go fuel' (n `div` 10) acc'
  end.

(** [S (log2 n)] bounds the number of decimal digits of [n]. *)
Definition decimal (n : Z) : string :=
  digits_go (S (Z.to_nat (Z.log2 n))) n "".

Definition ndigits (n : Z) : Z := Z.of_nat (String.length (decimal n)).

Definition zeros (n : Z) : string :=
  String.string_of_list_ascii (replicate (Z.to_nat n) "0"%char).

(** ** Number::toString, radix 10 *)

(** The numerals [s * 10^(n-k)] with [k] digits [s] that convert to the
    double [x], as triples [(s, n, s * 10^(n-k))]. *)
Definition exp_candidates (x k : Z) : list (Z * Z * Z) :=
  n ← [ndigits x; ndigits x + 1];
  s ← [x `div` 10 ^ (n - k); x `div` 10 ^ (n - k) + 1];
  let v := s * 10 ^ (n - k) in
  if bool_decide (10 ^ (k - 1) ≤ s < 10 ^ k ∧ to_double v = Num x)
  then [(s, n, v)] else [].

(** Of two candidates the one nearer to [x]; the even [s] when they are
    equally near. *)
Definition nearer (x : Z) (c1 c2 : Z * Z * Z) : Z * Z * Z :=
  let d1 := Z.abs (c1.2 - x) in
  let d2 := Z.abs (c2.2 - x) in
  if bool_decide (d2 < d1) then c2
  else if bool_decide (d1 = d2) && Z.even c2.1.1 then c2
  else c1.

Definition pick_nearest (x : Z) (cs : list (Z * Z * Z)) : option (Z * Z * Z) :=
  match cs with
  | [] => None
  | c :: cs => Some (foldl (nearer x) c cs)
  end.

(** The pair [(s, n)] with the least number of digits [k]; a double needs
    at most 17. *)
Fixpoint shortest (x : Z) (k : Z) (fuel : nat) : Z * Z :=
  match fuel with
  | O => (x, ndigits x)
  | S fuel' =>
      match pick_nearest x (exp_candidates x k) with
      | Some (s, n, _) => (s, n)
      | None => shortest x (k + 1) fuel'
      end
  end.

(** The digits of [s] padded with zeros up to 21 digits, exponent
    notation beyond. *)
Definition shortest_notation (x : Z) : string :=
  let '(s, n) := shortest x 1 17 in
  if bool_decide (n ≤ 21) then decimal s +:+ zeros (n - ndigits s)
  else
    match decimal s with
    | String d EmptyString => String d ("e+" +:+ decimal (n - 1))
    | String d ds => String d ("." +:+ ds +:+ "e+" +:+ decimal (n - 1))
    | EmptyString => EmptyString
    end.

(** A safe integer is printed digit by digit; a larger magnitude by its
    shortest numeral. *)
Definition Number_toString (a : number) : string :=
  match a with
  | NaN => "NaN"
  | PosInf => "Infinity"
  | NegInf => "-Infinity"
  | Num z =>
      let m := Z.abs z in
      let body :=
        if bool_decide (m ≤ MAX_SAFE) then decimal m else shortest_notation m in
      if bool_decide (z < 0) then "-" +:+ body else body
  end.

(** ** parseInt, radix 10 *)

(** White space and line terminators among the code units below 256. *)
Definition is_white_space (c : ascii) : bool :=
  bool_decide (Z.of_N (N_of_ascii c) ∈ [9; 10; 11; 12; 13; 32; 160]).

Fixpoint trim_start (s : string) : string :=
  match s with
  | String c s' => if is_white_space c then trim_start s' else s
  | EmptyString => s
  end.

(** The value of the longest prefix of digits, continuing [acc], and the
    rest of the string. *)
Fixpoint read_digits (s : string) (acc : Z) : Z * string :=
  match s with
  | String c s' =>
      match digit_value c with
      | Some d => read_digits s' (10 * acc + d)
      | None => (acc, s)
      end
  | EmptyString => (acc, s)
  end.

Definition starts_with_digit (s : string) : bool :=
  match s with
  | String c _ => bool_decide (is_Some (digit_value c))
  | EmptyString => false
  end.

(** The sign a string starts with, and the string after it. *)
Definition read_sign (s : string) : Z * string :=
  match s with
  | String "-" s' => (-1, s')
  | String "+" s' => (1, s')
  | _ => (1, s)
  end.

(** The integer the string denotes, before conversion to a double: [None]
    when no digit follows the white space and the sign. *)
Definition StringToMathInt (s : string) : option Z :=
  let '(sign, s') := read_sign (trim_start s) in
  if starts_with_digit s' then Some (sign * (read_digits s' 0).1) else None.

Definition parseInt (s : string) : number :=
  match StringToMathInt s with
  | Some z => to_double z
  | None => NaN
  end.

(** ** Truthiness and strict equality of [string | null] *)

Definition truthy (v : option string) : bool :=
  match v with
  | None => false
  | Some EmptyString => false
  | Some _ => true
  end.

Definition strict_eq (v : option string) (s : string) : bool :=
  bool_decide (v = Some s).

(** ** toUpperCase *)

(** The upper case of one code unit below 256.  A letter keeps its place
    32 code units lower; [ß] (223) becomes [SS]; the upper case of [µ]
    (181) and of [ÿ] (255) lies beyond 255, outside the strings of the
    model: [None]. *)
Definition upper_char (c : ascii) : option string :=
  let n := Z.of_N (N_of_ascii c) in
  if bool_decide (97 ≤ n ≤ 122 ∨ 224 ≤ n ≤ 246 ∨ 248 ≤ n ≤ 254)
  then Some (String (ascii_of_N (Z.to_N (n - 32))) "")
  else if bool_decide (n = 223) then Some "SS"
  else if bool_decide (n = 181 ∨ n = 255) then None
  else Some (String c "").

Fixpoint toUpperCase (s : string) : option string :=
  match s with
  | EmptyString => Some ""
  | String c s' =>
      match upper_char c, toUpperCase s' with
      | Some u, Some r => Some (u +:+ r)
      | _, _ => None
      end
  end.

(** [repr s v]: [s] consists of digits that denote [v]. *)
Definition repr (s : string) (v : Z) : Prop :=
  ∀ a rest,
    read_digits (s +:+ rest) a
    = read_digits rest (a * 10 ^ Z.of_nat (String.length s) + v).

(** ** Digits: printing and reading *)

(** A property of the ten digits, by evaluation on each. *)
Lemma digit_cases (P : Z → Prop) d :
  0 ≤ d < 10 → Forall P [0; 1; 2; 3; 4; 5; 6; 7; 8; 9] → P d.
Proof.
  intros Hd HP. eapply Forall_forall; [exact HP|]. rewrite !elem_of_cons. lia.
Qed.

Lemma digit_value_char d : 0 ≤ d < 10 → digit_value (digit_char d) = Some d.
Proof. intros Hd. pattern d. apply digit_cases; [done|]. by repeat constructor. Qed.

Lemma digit_value_range c d : digit_value c = Some d → 0 ≤ d < 10.
Proof. unfold digit_value. case_bool_decide; intros; simplify_eq. lia. Qed.

Lemma repr_nil : repr "" 0.
Proof. intros a rest. simpl. f_equal. lia. Qed.

Lemma repr_cons d s v :
  0 ≤ d < 10 → repr s v →
  repr (String (digit_char d) s) (d * 10 ^ Z.of_nat (String.length s) + v).
Proof.
  intros Hd Hs a rest. rewrite string_app_cons. cbn [read_digits String.length].
  rewrite digit_value_char, Hs by done. f_equal.
  rewrite Nat2Z.inj_succ, Z.pow_succ_r by lia. lia.
Qed.

Lemma digits_go_repr fuel n acc v :
  0 ≤ n < 10 ^ Z.of_nat fuel → repr acc v →
  repr (digits_go fuel n acc) (n * 10 ^ Z.of_nat (String.length acc) + v).
Proof.
  revert n acc v. induction fuel as [|fuel IH]; intros n acc v Hn Hacc.
  { assert (n = 0) as -> by (simpl in Hn; lia). by rewrite Z.mul_0_l. }
  pose proof (Z.mod_pos_bound n 10 ltac:(done)) as Hd.
  pose proof (Z.div_mod n 10 ltac:(done)) as Hdm.
  pose proof (repr_cons _ _ _ Hd Hacc) as Hacc'.
  cbn [digits_go]. case_bool_decide as Hq.
  - assert (n `mod` 10 = n) as Heq by lia. by rewrite Heq in Hacc' at 2.
  - apply (IH (n `div` 10)) in Hacc'; [|split; [apply Z.div_pos; lia|]].
    + replace (n * 10 ^ Z.of_nat (String.length acc) + v) with
        (n `div` 10
           * 10 ^ Z.of_nat (String.length (String (digit_char (n `mod` 10)) acc))
         + (n `mod` 10 * 10 ^ Z.of_nat (String.length acc) + v)); [done|].
      cbn [String.length]. rewrite Nat2Z.inj_succ, Z.pow_succ_r by lia. lia.
    + apply Z.div_lt_upper_bound; [done|].
      rewrite Nat2Z.inj_succ, Z.pow_succ_r in Hn by lia. lia.
Qed.

(** The fuel of [decimal] is enough. *)
Lemma decimal_fuel n : 0 ≤ n → n < 10 ^ Z.of_nat (S (Z.to_nat (Z.log2 n))).
Proof.
  intros Hn. destruct (decide (n = 0)) as [->|]; [done|].
  pose proof (Z.log2_spec n ltac:(lia)) as [_ Hlt].
  pose proof (Z.log2_nonneg n).
  rewrite Nat2Z.inj_succ, Z2Nat.id by done.
  eapply Z.lt_le_trans; [exact Hlt|].
  apply Z.pow_le_mono_l. lia.
Qed.

Lemma decimal_repr n : 0 ≤ n → repr (decimal n) n.
Proof.
  intros Hn. unfold decimal.
  pose proof (digits_go_repr _ n "" 0 (conj Hn (decimal_fuel n Hn)) repr_nil) as H.
  by rewrite Z.add_0_r, Z.mul_1_r in H.
Qed.

(** Fuel beyond the number of digits changes nothing. *)
Lemma digits_go_more_fuel fuel k n acc :
  0 ≤ n < 10 ^ Z.of_nat fuel → (0 < fuel)%nat →
  digits_go (fuel + k) n acc = digits_go fuel n acc.
Proof.
  revert n acc. induction fuel as [|fuel IH]; intros n acc Hn Hf; [lia|].
  cbn [Nat.add digits_go]. case_bool_decide as Hq; [done|].
  assert (0 ≤ n `div` 10 < 10 ^ Z.of_nat fuel).
  { rewrite Nat2Z.inj_succ, Z.pow_succ_r in Hn by lia.
    split; [apply Z.div_pos; lia|apply Z.div_lt_upper_bound; lia]. }
  destruct fuel as [|fuel']; [simpl in *; lia|]. apply IH; [done|lia].
Qed.

Lemma digits_go_starts fuel n acc :
  starts_with_digit acc = true ∨ (0 < fuel)%nat →
  0 ≤ n →
  starts_with_digit (digits_go fuel n acc) = true.
Proof.
  revert n acc. induction fuel as [|fuel IH]; intros n acc Hs Hn.
  { destruct Hs; [done|lia]. }
  cbn [digits_go].
  assert (starts_with_digit (String (digit_char (n `mod` 10)) acc) = true) as Hd.
  { simpl. rewrite digit_value_char by (apply Z.mod_pos_bound; lia).
    by apply bool_decide_eq_true. }
  case_bool_decide; [done|]. apply IH; [by left|]. apply Z.div_pos; lia.
Qed.

Lemma decimal_starts n : 0 ≤ n → starts_with_digit (decimal n) = true.
Proof. intros. apply digits_go_starts; [right; lia|done]. Qed.

(** A digit is neither white space nor a sign. *)
Lemma digit_not_space c : is_Some (digit_value c) → is_white_space c = false.
Proof.
  intros [d Hd]. revert Hd.
  destruct c as [[] [] [] [] [] [] [] []]; vm_compute; done.
Qed.

Lemma digit_not_sign c s :
  is_Some (digit_value c) → read_sign (String c s) = (1, String c s).
Proof.
  intros [d Hd]. revert Hd.
  destruct c as [[] [] [] [] [] [] [] []]; vm_compute; done.
Qed.

Lemma starts_with_digit_inv s :
  starts_with_digit s = true →
  ∃ c s', s = String c s' ∧ is_Some (digit_value c).
Proof.
  destruct s as [|c s']; [done|]. simpl. rewrite bool_decide_eq_true. eauto.
Qed.

Lemma starts_with_digit_app s t :
  starts_with_digit s = true → starts_with_digit (s +:+ t) = true.
Proof.
  intros (c & s' & -> & Hc)%starts_with_digit_inv.
  rewrite string_app_cons. by apply bool_decide_eq_true.
Qed.

Lemma trim_start_digit s : starts_with_digit s = true → trim_start s = s.
Proof.
  intros (c & s' & -> & Hc)%starts_with_digit_inv. simpl.
  by rewrite digit_not_space.
Qed.

Lemma read_sign_digit s : starts_with_digit s = true → read_sign s = (1, s).
Proof.
  intros (c & s' & -> & Hc)%starts_with_digit_inv. by apply digit_not_sign.
Qed.

Lemma read_digits_stop s a : starts_with_digit s = false → read_digits s a = (a, s).
Proof.
  destruct s as [|c s']; [done|]. simpl. rewrite bool_decide_eq_false.
  destruct (digit_value c); [|done]. intros []. eauto.
Qed.

(** ** Round trip: reading what was printed *)

Lemma StringToMathInt_digits s :
  starts_with_digit s = true → StringToMathInt s = Some (read_digits s 0).1.
Proof.
  intros Hs. unfold StringToMathInt.
  rewrite trim_start_digit, read_sign_digit, Hs by done. f_equal. lia.
Qed.

Lemma StringToMathInt_decimal n rest :
  0 ≤ n → starts_with_digit rest = false →
  StringToMathInt (decimal n +:+ rest) = Some n.
Proof.
  intros Hn Hrest.
  rewrite StringToMathInt_digits by by apply starts_with_digit_app, decimal_starts.
  by rewrite decimal_repr, read_digits_stop.
Qed.

Lemma StringToMathInt_minus n rest :
  0 ≤ n → starts_with_digit rest = false →
  StringToMathInt ("-" +:+ decimal n +:+ rest) = Some (- n).
Proof.
  intros Hn Hrest.
  change (StringToMathInt ("-" +:+ decimal n +:+ rest)) with
    (if starts_with_digit (decimal n +:+ rest)
     then Some (-1 * (read_digits (decimal n +:+ rest) 0).1) else None).
  rewrite starts_with_digit_app by by apply decimal_starts.
  rewrite decimal_repr, read_digits_stop by done. f_equal.
Qed.

Lemma Number_toString_nat n :
  0 ≤ n ≤ MAX_SAFE → Number_toString (Num n) = decimal n.
Proof.
  intros Hn. unfold Number_toString. cbv zeta.
  rewrite Z.abs_eq, (bool_decide_eq_true_2 (_ ≤ _)), (bool_decide_eq_false_2 (_ < _));
    (done || lia).
Qed.

Lemma StringToMathInt_toString z :
  Z.abs z ≤ MAX_SAFE → StringToMathInt (Number_toString (Num z)) = Some z.
Proof.
  intros Hz. unfold Number_toString. cbv zeta.
  rewrite (bool_decide_eq_true_2 (_ ≤ MAX_SAFE)) by done.
  case_bool_decide.
  - rewrite <-(string_app_nil_r (decimal _)), StringToMathInt_minus by (done || lia).
    f_equal. lia.
  - rewrite <-(string_app_nil_r (decimal _)), StringToMathInt_decimal by (done || lia).
    f_equal. lia.
Qed.

Lemma parseInt_toString_safe z :
  Z.abs z ≤ MAX_SAFE → parseInt (Number_toString (Num z)) = Num z.
Proof.
  intros Hz. unfold parseInt.
  by rewrite StringToMathInt_toString, to_double_exact.
Qed.

Lemma Number_toString_inj_safe a b :
  Z.abs a ≤ MAX_SAFE → Z.abs b ≤ MAX_SAFE →
  Number_toString (Num a) = Number_toString (Num b) → a = b.
Proof.
  intros Ha Hb Heq. apply (f_equal StringToMathInt) in Heq.
  rewrite !StringToMathInt_toString in Heq by done. by simplify_eq.
Qed.

(** ** What follows the digits is ignored *)

Lemma trim_start_app s t :
  trim_start s ≠ "" → trim_start (s +:+ t) = trim_start s +:+ t.
Proof.
  induction s as [|c s IH]; [done|]. autorewrite with dash. simpl.
  destruct (is_white_space c); [done|]. by autorewrite with dash.
Qed.

Lemma read_digits_app s c t a :
  digit_value c = None →
  (read_digits (s +:+ String c t) a).1 = (read_digits s a).1.
Proof.
  intros Hc. revert a. induction s as [|c' s IH]; intros a.
  { rewrite string_app_nil_l. simpl. by rewrite Hc. }
  rewrite string_app_cons. simpl. destruct (digit_value c'); [apply IH|done].
Qed.

Lemma read_sign_app s t :
  starts_with_digit (read_sign s).2 = true →
  read_sign (s +:+ t) = ((read_sign s).1, (read_sign s).2 +:+ t).
Proof.
  destruct s as [|c s]; [done|]. rewrite string_app_cons.
  destruct c as [[] [] [] [] [] [] [] []]; done.
Qed.

Lemma StringToMathInt_suffix s c t :
  is_Some (StringToMathInt s) → digit_value c = None →
  StringToMathInt (s +:+ String c t) = StringToMathInt s.
Proof.
  unfold StringToMathInt. intros Hs Hc.
  destruct (read_sign (trim_start s)) as [sg s'] eqn:Hsg.
  destruct (starts_with_digit s') eqn:Hd; [|by destruct Hs].
  assert (trim_start s ≠ "") as Hne.
  { intros Hnil. rewrite Hnil in Hsg. simpl in Hsg. by simplify_eq. }
  rewrite trim_start_app by done.
  rewrite read_sign_app by (by rewrite Hsg).
  rewrite Hsg. simpl. by rewrite starts_with_digit_app, read_digits_app.
Qed.

(** ** Upper case *)

Lemma toUpperCase_app s t :
  toUpperCase (s +:+ t)
  = match toUpperCase s, toUpperCase t with
    | Some u, Some v => Some (u +:+ v)
    | _, _ => None
    end.
Proof.
  induction s as [|c s IH].
  { rewrite string_app_nil_l. cbn [toUpperCase]. by destruct (toUpperCase t). }
  rewrite string_app_cons. cbn [toUpperCase]. rewrite IH.
  destruct (upper_char c), (toUpperCase s), (toUpperCase t); try done.
  by rewrite string_app_assoc.
Qed.

(** Digits have no case. *)
Lemma upper_char_digit d :
  0 ≤ d < 10 → upper_char (digit_char d) = Some (String (digit_char d) "").
Proof. intros Hd. pattern d. apply digit_cases; [done|]. by repeat constructor. Qed.

(** ** Evaluation on concrete inputs *)

Example parseInt_examples :
  parseInt "5" = Num 5 ∧ parseInt "0" = Num 0 ∧ parseInt "-3" = Num (-3)
  ∧ parseInt "abc" = NaN ∧ parseInt "" = NaN ∧ parseInt "  42" = Num 42
  ∧ parseInt "+7" = Num 7 ∧ parseInt "-" = NaN ∧ parseInt "12px" = Num 12
  ∧ parseInt "2.9" = Num 2 ∧ parseInt "1e3" = Num 1
  ∧ parseInt "9007199254740993" = Num 9007199254740992.
Proof. by_eval. Qed.

Example Number_toString_examples :
  Number_toString (Num 0) = "0"
  ∧ Number_toString (Num 1234567890) = "1234567890"
  ∧ Number_toString (Num (-42)) = "-42"
  ∧ Number_toString (Num (2 ^ 53)) = "9007199254740992"
  ∧ Number_toString (Num (2 ^ 64)) = "18446744073709552000"
  ∧ Number_toString (Num (10 ^ 21)) = "1e+21"
  ∧ Number_toString (Num (2 ^ 70)) = "1.1805916207174113e+21"
  ∧ Number_toString (to_double (- 10 ^ 23)) = "-1e+23"
  ∧ Number_toString NaN = "NaN" ∧ Number_toString Infinity = "Infinity".
Proof. by_eval. Qed.

(** * Properties *)

(** C8: reading back what Number::toString printed: for every integer of
    the safe range, negative ones included, [parseInt] of the printed
    string is the number, whatever text without a leading digit follows
    the digits. *)
Theorem parseInt_toString z rest :
  Z.abs z ≤ MAX_SAFE → starts_with_digit rest = false →
  parseInt (Number_toString (Num z) +:+ rest) = Num z.
Proof.
  intros Hz Hrest. unfold parseInt, Number_toString. cbv zeta.
  rewrite (bool_decide_eq_true_2 (_ ≤ MAX_SAFE)) by done.
  case_bool_decide.
  - rewrite string_app_assoc, StringToMathInt_minus by (done || lia).
    rewrite to_double_exact by lia. f_equal. lia.
  - rewrite StringToMathInt_decimal by (done || lia).
    rewrite to_double_exact by lia. f_equal. lia.
Qed.

Lemma parseInt_toString_witness :
  parseInt (Number_toString (Num (-1200)) +:+ "px") = Num (-1200).
Proof. apply (parseInt_toString (-1200) "px"); by_eval. Defined.

(** Number::toString is injective on the safe integers: two
    counters that print the same digits are the same counter. *)
Theorem Number_toString_injective a b :
  Z.abs a ≤ MAX_SAFE → Z.abs b ≤ MAX_SAFE →
  Number_toString (Num a) = Number_toString (Num b) → a = b.
Proof.
  intros Ha Hb Heq.
  assert (Num a = Num b) as [= ->]; [|done].
  rewrite <-(parseInt_toString_safe a), <-(parseInt_toString_safe b) by done.
  by rewrite Heq.
Qed.

Lemma Number_toString_injective_witness : (3 + 4)%Z = 7%Z.
Proof. apply (Number_toString_injective (3 + 4) 7); by_eval. Defined.

(** C37: [parseInt] stops at the first code unit that is not a digit: a
    string that parses keeps its value when such a code unit and any text
    are appended. *)
Theorem parseInt_ignores_suffix s c t :
  parseInt s ≠ NaN → digit_value c = None →
  parseInt (s +:+ String c t) = parseInt s.
Proof.
  intros Hs Hc. unfold parseInt in *.
  rewrite StringToMathInt_suffix; [done| |done].
  destruct (StringToMathInt s); [by eexists|done].
Qed.

Lemma parseInt_ignores_suffix_witness :
  parseInt ("12" +:+ String "p" "x") = parseInt "12".
Proof. apply (parseInt_ignores_suffix "12" "p" "x"); by_eval. Defined.

(** [parseInt] is NaN exactly when, after the leading white space
    and one optional sign, the string does not continue with a digit. *)
Theorem parseInt_NaN_iff s :
  parseInt s = NaN ↔ starts_with_digit (read_sign (trim_start s)).2 = false.
Proof.
  unfold parseInt, StringToMathInt.
  destruct (read_sign (trim_start s)) as [sg s']. simpl.
  destruct (starts_with_digit s'); [|done].
  split; [|done]. intros Hnan.
  pose proof (to_double_not_NaN (sg * (read_digits s' 0).1)) as Hn.
  by rewrite Hnan in Hn.
Qed.

(** C38: the fuel of [decimal] is enough: the digits denote the number,
    they start with a digit, and any additional fuel gives the same
    string. *)
Theorem decimal_total n k :
  0 ≤ n →
  (read_digits (decimal n) 0).1 = n
  ∧ starts_with_digit (decimal n) = true
  ∧ digits_go (S (Z.to_nat (Z.log2 n)) + k) n "" = decimal n.
Proof.
  intros Hn. split_and!.
  - rewrite <-(string_app_nil_r (decimal n)), decimal_repr by done. simpl. lia.
  - by apply decimal_starts.
  - apply digits_go_more_fuel; [|lia]. split; [done|by apply decimal_fuel].
Qed.

Lemma decimal_total_witness :
  (read_digits (decimal 2024) 0).1 = 2024
  ∧ starts_with_digit (decimal 2024) = true
  ∧ digits_go (S (Z.to_nat (Z.log2 2024)) + 5) 2024 "" = decimal 2024.
Proof. apply (decimal_total 2024 5). lia. Defined.
