(* ===== verification/Shortest.v ===== *)
(** Number::toString on the safe integers.  [JSString.Number_toString]
    prints an integer of magnitude at most [2^53] digit by digit and leaves
    the search for the shortest numeral, which is how ECMAScript defines
    the conversion for every number, to the larger magnitudes.  This file
    shows that the two agree: on a safe integer the search returns the
    digits of the integer.  The argument: an integer that converts to a
    safe integer [x] is [x] itself, or [2^53 + 1] when [x] is [2^53]; a
    numeral that denotes [x] has at least the digits of [x] without its
    trailing zeros; so the search finds those digits first, and the
    numeral is padded with the zeros again. *)

From S2P Require Import Prelude JSNumber JSString.

#[local] Open Scope Z_scope.

(** Linear arithmetic with [div] and [mod] replaced by their equations. *)
Ltac div_lia := Z.div_mod_to_equations; lia.

(** Number::toString as ECMAScript defines it, by the shortest numeral
    for every finite magnitude. *)
Definition Number_toString_ref (a : number) : string :=
  match a with
  | NaN => "NaN"
  | PosInf => "Infinity"
  | NegInf => "-Infinity"
  | Num z =>
      let body := shortest_notation (Z.abs z) in
      if bool_decide (z < 0) then "-" +:+ body else body
  end.

(** One candidate of [exp_candidates]: the numeral of [k] digits [s] and
    [n - k] zeros, kept when it converts to [x]. *)
Definition candidate (x k n s : Z) : list (Z * Z * Z) :=
  if bool_decide (10 ^ (k - 1) ≤ s < 10 ^ k ∧ to_double (s * 10 ^ (n - k)) = Num x)
  then [(s, n, s * 10 ^ (n - k))] else [].

(** ** The digits of a number, by its last digit *)

Lemma digits_go_app fuel n acc :
  digits_go fuel n acc = digits_go fuel n "" +:+ acc.
Proof.
  revert n acc. induction fuel as [|fuel IH]; intros n acc; [done|].
  cbn [digits_go]. case_bool_decide; [done|].
  rewrite IH, (IH _ (String _ "")). by rewrite string_app_assoc.
Qed.

Lemma decimal_digit n : 0 ≤ n < 10 → decimal n = String (digit_char n) "".
Proof.
  intros Hn. unfold decimal. cbn [digits_go].
  rewrite Z.mod_small, Z.div_small, bool_decide_eq_true_2 by lia. done.
Qed.

Lemma decimal_step n :
  10 ≤ n → decimal n = decimal (n `div` 10) +:+ String (digit_char (n `mod` 10)) "".
Proof.
  intros Hn. unfold decimal at 1. cbn [digits_go].
  rewrite bool_decide_eq_false_2 by div_lia. rewrite digits_go_app. f_equal.
  assert (0 ≤ n `div` 10) as Hq by div_lia.
  assert (Z.log2 (n `div` 10) < Z.log2 n) as Hlog.
  { pose proof (Z.log2_double (n `div` 10) ltac:(div_lia)) as Hd.
    pose proof (Z.log2_le_mono (2 * (n `div` 10)) n ltac:(div_lia)). div_lia. }
  pose proof (Z.log2_nonneg (n `div` 10)).
  replace (Z.to_nat (Z.log2 n))
    with (S (Z.to_nat (Z.log2 (n `div` 10)))
          + (Z.to_nat (Z.log2 n) - S (Z.to_nat (Z.log2 (n `div` 10)))))%nat by div_lia.
  apply digits_go_more_fuel; [|div_lia]. split; [done|by apply decimal_fuel].
Qed.

(** Induction on a number by removing its last digit. *)
Lemma decimal_ind (P : Z → Prop) :
  (∀ n, 0 ≤ n < 10 → P n) →
  (∀ n, 10 ≤ n → P (n `div` 10) → P n) →
  ∀ n, 0 ≤ n → P n.
Proof.
  intros Hdigit Hstep n Hn. pattern n. apply Zlt_0_ind; [|done].
  clear n Hn. intros n IH Hn. destruct (decide (n < 10)) as [?|?]; [by apply Hdigit|].
  apply Hstep; [div_lia|]. apply IH. div_lia.
Qed.

(** ** The number of digits *)

Lemma ndigits_digit n : 0 ≤ n < 10 → ndigits n = 1.
Proof. intros Hn. unfold ndigits. by rewrite decimal_digit. Qed.

Lemma length_string_app s1 s2 :
  String.length (s1 +:+ s2) = (String.length s1 + String.length s2)%nat.
Proof. induction s1 as [|c s1 IH]; [done|]. rewrite string_app_cons. simpl. by rewrite IH. Qed.

Lemma ndigits_step n : 10 ≤ n → ndigits n = ndigits (n `div` 10) + 1.
Proof.
  intros Hn. unfold ndigits. rewrite decimal_step, length_string_app by done.
  simpl. lia.
Qed.

Lemma ndigits_pos n : 0 ≤ n → 1 ≤ ndigits n.
Proof.
  intros Hn. pose proof (decimal_starts n Hn) as H. unfold ndigits.
  destruct (decimal n); [done|simpl; lia].
Qed.

Lemma ndigits_spec n : 1 ≤ n → 10 ^ (ndigits n - 1) ≤ n < 10 ^ ndigits n.
Proof.
  intros Hn. assert (0 ≤ n) as H0 by div_lia. revert Hn. pattern n.
  apply decimal_ind; [| |done]; clear n H0.
  - intros n Hn H1. rewrite ndigits_digit by done. simpl. div_lia.
  - intros n Hn IH _. rewrite ndigits_step by done.
    pose proof (ndigits_pos (n `div` 10) ltac:(div_lia)) as Hd.
    destruct IH as [IH1 IH2]; [div_lia|].
    replace (ndigits (n `div` 10) + 1 - 1) with (ndigits (n `div` 10) - 1 + 1) by div_lia.
    rewrite !Z.pow_add_r, Z.pow_1_r by div_lia. div_lia.
Qed.

(** ** Trailing zeros *)

Lemma zeros_0 : zeros 0 = "".
Proof. done. Qed.

Lemma zeros_succ t : 0 ≤ t → zeros (t + 1) = String "0" (zeros t).
Proof. intros Ht. unfold zeros. by rewrite Z.add_1_r, Z2Nat.inj_succ. Qed.

Lemma length_zeros t : 0 ≤ t → Z.of_nat (String.length (zeros t)) = t.
Proof.
  intros Ht. pattern t. apply natlike_ind; [done| |done].
  clear t Ht. intros t Ht IH. rewrite <-Z.add_1_r, zeros_succ by done. simpl. lia.
Qed.

Lemma decimal_mul_10 n : 1 ≤ n → decimal (10 * n) = decimal n +:+ "0".
Proof.
  intros Hn. rewrite decimal_step by div_lia.
  replace ((10 * n) `div` 10) with n by div_lia.
  by replace ((10 * n) `mod` 10) with 0 by div_lia.
Qed.

Lemma decimal_mul_pow10 s t :
  1 ≤ s → 0 ≤ t → decimal (s * 10 ^ t) = decimal s +:+ zeros t.
Proof.
  intros Hs Ht. revert s Hs. pattern t. apply natlike_ind; [| |done]; clear t Ht.
  - intros s Hs. by rewrite Z.mul_1_r, zeros_0, string_app_nil_r.
  - intros t Ht IH s Hs. rewrite <-Z.add_1_r, zeros_succ, Z.pow_add_r, Z.pow_1_r by lia.
    replace (s * (10 ^ t * 10)) with ((10 * s) * 10 ^ t) by lia.
    rewrite IH, decimal_mul_10 by lia. by rewrite string_app_assoc.
Qed.

Lemma ndigits_mul_pow10 s t : 1 ≤ s → 0 ≤ t → ndigits (s * 10 ^ t) = ndigits s + t.
Proof.
  intros Hs Ht. unfold ndigits.
  rewrite decimal_mul_pow10, length_string_app, Nat2Z.inj_add, length_zeros by done. done.
Qed.

(** Every positive number is a number that does not end in 0, followed by
    zeros. *)
Lemma trailing_zeros x :
  1 ≤ x → ∃ s t, x = s * 10 ^ t ∧ 1 ≤ s ∧ 0 ≤ t ∧ s `mod` 10 ≠ 0.
Proof.
  intros Hx. assert (0 ≤ x) as H0 by div_lia. revert Hx. pattern x.
  apply decimal_ind; [| |done]; clear x H0.
  - intros x Hx H1. exists x, 0. rewrite Z.mul_1_r. split_and!; [done|done|done|div_lia].
  - intros x Hx IH _. destruct (decide (x `mod` 10 = 0)) as [Hm|Hm].
    + destruct IH as (s & t & Hq & Hs & Ht & Hs10); [div_lia|].
      exists s, (t + 1). rewrite Z.pow_add_r, Z.pow_1_r by div_lia.
      split_and!; [div_lia|done|div_lia|done].
    + exists x, 0. rewrite Z.mul_1_r. split_and!; [done|div_lia|done|done].
Qed.

(** A number that does not end in 0 is not a multiple of a higher power
    of 10 than the one it is written with. *)
Lemma pow10_divides s t s' e :
  s `mod` 10 ≠ 0 → 0 ≤ t → 0 ≤ e → s' * 10 ^ e = s * 10 ^ t →
  e ≤ t ∧ s' = s * 10 ^ (t - e).
Proof.
  intros Hs Ht He Heq. assert (0 < 10 ^ t) as Hpt by (by apply Z.pow_pos_nonneg).
  assert (0 < 10 ^ e) as Hpe by (by apply Z.pow_pos_nonneg).
  destruct (decide (e ≤ t)) as [Hle|Hgt].
  - split; [done|]. replace t with ((t - e) + e) in Heq at 1 by lia.
    rewrite Z.pow_add_r in Heq by lia. nia.
  - exfalso. replace e with ((e - t - 1) + 1 + t) in Heq by lia.
    rewrite !Z.pow_add_r, Z.pow_1_r in Heq by lia.
    assert (s = s' * 10 ^ (e - t - 1) * 10) as -> by nia.
    apply Hs. by rewrite Z.mod_mul.
Qed.

(** ** Integers that convert to a safe integer *)

Lemma to_double_hits v x :
  0 ≤ v → 0 ≤ x ≤ MAX_SAFE → to_double v = Num x →
  v = x ∨ (x = MAX_SAFE ∧ v = MAX_SAFE + 1).
Proof.
  intros Hv Hx Hto. destruct (decide (v ≤ MAX_SAFE)) as [Hle|Hgt].
  { left. rewrite to_double_exact in Hto by lia. by simplify_eq. }
  right. apply to_double_near in Hto as [Hnear _]. unfold MAX_SAFE, prec in *.
  assert (53 ≤ Z.log2 v) as HL by (apply Z.log2_le_pow2; lia).
  pose proof (Z.log2_spec v ltac:(lia)) as [Hlo _].
  rewrite (Z.abs_eq v), Z.max_r in Hnear by lia.
  replace (Z.log2 v + 1 - 53) with ((Z.log2 v - 53) + 1) in Hnear by lia.
  replace (Z.log2 v) with ((Z.log2 v - 53) + 53) in Hlo at 1 by lia.
  rewrite Z.pow_add_r, Z.pow_1_r in Hnear by lia.
  rewrite Z.pow_add_r in Hlo by lia.
  assert (0 < 2 ^ (Z.log2 v - 53)) by (apply Z.pow_pos_nonneg; lia).
  lia.
Qed.

(** ** The candidates of the shortest numeral *)

Lemma exp_candidates_unfold x k :
  exp_candidates x k
  = candidate x k (ndigits x) (x `div` 10 ^ (ndigits x - k))
    ++ candidate x k (ndigits x) (x `div` 10 ^ (ndigits x - k) + 1)
    ++ candidate x k (ndigits x + 1) (x `div` 10 ^ (ndigits x + 1 - k))
    ++ candidate x k (ndigits x + 1) (x `div` 10 ^ (ndigits x + 1 - k) + 1).
Proof. unfold exp_candidates, candidate. simpl. by rewrite !app_nil_r, <-!app_assoc. Qed.

Lemma elem_of_candidate x k n s c :
  c ∈ candidate x k n s →
  c = (s, n, s * 10 ^ (n - k))
  ∧ 10 ^ (k - 1) ≤ s < 10 ^ k ∧ to_double (s * 10 ^ (n - k)) = Num x.
Proof.
  unfold candidate. case_bool_decide as Hc; [|by intros ?%elem_of_nil].
  by intros ->%list_elem_of_singleton.
Qed.

Lemma candidate_exact x k n s :
  Z.abs x ≤ MAX_SAFE → 10 ^ (k - 1) ≤ s < 10 ^ k → s * 10 ^ (n - k) = x →
  candidate x k n s = [(s, n, x)].
Proof.
  intros Hx Hs Hv. unfold candidate. rewrite Hv, bool_decide_eq_true_2; [done|].
  split; [done|]. by apply to_double_exact.
Qed.

Lemma elem_of_exp_candidates x k c :
  c ∈ exp_candidates x k →
  ∃ n s, c = (s, n, s * 10 ^ (n - k))
    ∧ 10 ^ (k - 1) ≤ s < 10 ^ k ∧ to_double (s * 10 ^ (n - k)) = Num x.
Proof.
  rewrite exp_candidates_unfold, !elem_of_app.
  intros [H|[H|[H|H]]]; apply elem_of_candidate in H; eauto.
Qed.

Section shortest.
Context (x s0 t : Z).
Context (Hx : 1 ≤ x ≤ MAX_SAFE) (Hdec : x = s0 * 10 ^ t).
Context (Hs0 : 1 ≤ s0) (Ht : 0 ≤ t) (Hlast : s0 `mod` 10 ≠ 0).

Lemma ndigits_decomposed : ndigits x = ndigits s0 + t.
Proof. rewrite Hdec. by apply ndigits_mul_pow10. Qed.

(** A numeral that denotes [x] has at least the digits of [s0]. *)
Lemma numeral_exact k e s :
  10 ^ (k - 1) ≤ s < 10 ^ k → 1 ≤ k → s * 10 ^ e = x →
  0 ≤ e ≤ t ∧ s = s0 * 10 ^ (t - e) ∧ ndigits s0 ≤ k.
Proof.
  intros Hs Hk Hv. assert (0 ≤ e) as He.
  { destruct (decide (0 ≤ e)); [done|]. rewrite Z.pow_neg_r in Hv by lia. lia. }
  destruct (pow10_divides s0 t s e Hlast Ht He) as [Hle ->]; [congruence|].
  split_and!; [done..|].
  pose proof (ndigits_spec s0 Hs0) as [Hlo _].
  assert (0 < 10 ^ (t - e)) by (apply Z.pow_pos_nonneg; lia).
  apply Z.lt_succ_r, (Z.pow_lt_mono_r_iff 10); [lia|lia|].
  replace (Z.succ k) with (k + 1) by lia.
  pose proof (ndigits_pos s0 ltac:(lia)).
  replace (ndigits s0) with ((ndigits s0 - 1) + 1) by lia.
  rewrite !Z.pow_add_r, Z.pow_1_r by lia. nia.
Qed.

(** The only numeral that converts to [x] without denoting it is
    [2^53 + 1], with its 16 digits. *)
Lemma numeral_inexact k e s :
  10 ^ (k - 1) ≤ s < 10 ^ k → 1 ≤ k →
  to_double (s * 10 ^ e) = Num x → s * 10 ^ e ≠ x →
  x = MAX_SAFE ∧ e = 0 ∧ k = 16 ∧ t = 0.
Proof.
  intros Hs Hk Hto Hne.
  assert (0 < 10 ^ (k - 1)) by (apply Z.pow_pos_nonneg; lia).
  assert (0 ≤ e) as He.
  { destruct (decide (0 ≤ e)); [done|]. rewrite Z.pow_neg_r in Hto by lia.
    rewrite Z.mul_0_r, to_double_0 in Hto. simplify_eq. lia. }
  assert (0 ≤ 10 ^ e) by (apply Z.pow_nonneg; lia).
  apply to_double_hits in Hto as [?|[Hmax Hv]]; [done| |nia|lia].
  assert (e = 0) as ->.
  { destruct (decide (e = 0)); [done|]. exfalso.
    replace e with ((e - 1) + 1) in Hv by lia.
    rewrite Z.pow_add_r, Z.pow_1_r, Z.mul_assoc in Hv by lia.
    apply (f_equal (λ v, v `mod` 10)) in Hv. by rewrite Z.mod_mul in Hv. }
  assert (t = 0) as ->.
  { destruct (decide (t = 0)); [done|]. exfalso.
    replace t with ((t - 1) + 1) in Hdec by lia.
    rewrite Z.pow_add_r, Z.pow_1_r, Z.mul_assoc in Hdec by lia.
    apply (f_equal (λ v, v `mod` 10)) in Hdec. rewrite Z.mod_mul, Hmax in Hdec; done. }
  split_and!; [done..| |done]. rewrite Z.mul_1_r in Hv. subst s.
  destruct Hs as [Hlo Hhi].
  unfold MAX_SAFE, prec in Hlo, Hhi.
  assert (k - 1 < 16) by (apply (Z.pow_lt_mono_r_iff 10); lia).
  assert (15 < k) by (apply (Z.pow_lt_mono_r_iff 10); lia).
  lia.
Qed.

(** With fewer digits than [s0] has, no numeral converts to [x]. *)
Lemma exp_candidates_none k : 1 ≤ k < ndigits s0 → exp_candidates x k = [].
Proof.
  intros Hk. apply elem_of_nil_inv. intros c (n & s & -> & Hs & Hto)%elem_of_exp_candidates.
  destruct (decide (s * 10 ^ (n - k) = x)) as [Hv|Hv].
  - destruct (numeral_exact k (n - k) s) as (_ & _ & ?); [done|lia|done|lia].
  - destruct (numeral_inexact k (n - k) s) as (Hmax & _ & Hk16 & Ht0); [done|lia|done..|].
    assert (s0 = MAX_SAFE) as Hs0' by (rewrite Hdec, Ht0 in Hmax; lia).
    assert (ndigits MAX_SAFE = 16) as Hd by (by vm_compute). rewrite Hs0' in Hk. lia.
Qed.

(** With the digits of [s0], the numeral [s0] followed by [t] zeros is the
    first candidate, and every other candidate denotes another number. *)
Lemma exp_candidates_digits :
  ∃ cs, exp_candidates x (ndigits s0) = (s0, ndigits x, x) :: cs
        ∧ Forall (λ c, c.2 ≠ x) cs.
Proof.
  pose proof (ndigits_spec s0 Hs0) as Hd.
  pose proof (ndigits_pos s0 ltac:(lia)) as Hpos.
  assert (0 < 10 ^ t) as Hpt by (by apply Z.pow_pos_nonneg).
  rewrite exp_candidates_unfold, ndigits_decomposed.
  replace (ndigits s0 + t - ndigits s0) with t by lia.
  replace (x `div` 10 ^ t) with s0 by (rewrite Hdec, Z.div_mul; lia).
  rewrite (candidate_exact x) by (rewrite ?Hdec; (done || lia || f_equal; f_equal; lia)).
  eexists. split; [done|]. rewrite !Forall_app. split_and!; apply Forall_forall;
    intros c (-> & Hs & Hto)%elem_of_candidate; simpl; intros Hv.
  - replace (ndigits s0 + t - ndigits s0) with t in Hv by lia. nia.
  - destruct (numeral_exact _ _ _ Hs ltac:(lia) Hv). lia.
  - destruct (numeral_exact _ _ _ Hs ltac:(lia) Hv). lia.
Qed.
End shortest.

(** ** The search for the shortest numeral *)

Lemma foldl_nearer_exact x c cs :
  c.2 = x → Forall (λ c', c'.2 ≠ x) cs → foldl (nearer x) c cs = c.
Proof.
  intros Hc Hcs. induction Hcs as [|c' cs Hc' _ IH]; [done|].
  cbn [foldl]. unfold nearer at 2. cbv zeta.
  rewrite Hc, Z.sub_diag. simpl (Z.abs 0).
  rewrite bool_decide_eq_false_2, (bool_decide_eq_false_2 (0 = _)) by lia. done.
Qed.

Lemma shortest_skip x k j fuel :
  (∀ i, k ≤ i < k + Z.of_nat j → exp_candidates x i = []) →
  shortest x k (j + fuel) = shortest x (k + Z.of_nat j) fuel.
Proof.
  revert k. induction j as [|j IH]; intros k Hnone.
  { by rewrite Z.add_0_r. }
  cbn [Nat.add shortest]. rewrite Hnone by lia. cbn [pick_nearest].
  rewrite IH by (intros i Hi; apply Hnone; lia). f_equal. lia.
Qed.

Lemma shortest_safe x s0 t :
  1 ≤ x ≤ MAX_SAFE → x = s0 * 10 ^ t → 1 ≤ s0 → 0 ≤ t → s0 `mod` 10 ≠ 0 →
  shortest x 1 17 = (s0, ndigits x).
Proof.
  intros Hx Hdec Hs0 Ht Hlast.
  pose proof (ndigits_pos s0 ltac:(lia)) as Hpos.
  assert (ndigits s0 ≤ 16) as Hle.
  { pose proof (ndigits_spec x ltac:(lia)) as [Hlo _].
    rewrite (ndigits_decomposed x s0 t) in Hlo by done.
    assert (ndigits s0 + t - 1 < 16); [|lia].
    apply (Z.pow_lt_mono_r_iff 10); [lia..|]. unfold MAX_SAFE, prec in Hx. lia. }
  replace 17%nat with (Z.to_nat (ndigits s0 - 1) + S (Z.to_nat (16 - (ndigits s0 - 1))))%nat
    by lia.
  rewrite shortest_skip by (intros i Hi; apply (exp_candidates_none x s0 t); (done || lia)).
  replace (1 + Z.of_nat (Z.to_nat (ndigits s0 - 1))) with (ndigits s0) by lia.
  destruct (exp_candidates_digits x s0 t Hx Hdec Hs0 Ht Hlast) as (cs & Hcs & Hne).
  cbn [shortest]. rewrite Hcs. cbn [pick_nearest]. by rewrite foldl_nearer_exact.
Qed.

Lemma shortest_notation_decimal m :
  0 ≤ m ≤ MAX_SAFE → shortest_notation m = decimal m.
Proof.
  intros Hm. destruct (decide (m = 0)) as [->|Hm0]; [by vm_compute|].
  destruct (trailing_zeros m ltac:(lia)) as (s0 & t & Hdec & Hs0 & Ht & Hlast).
  unfold shortest_notation. rewrite (shortest_safe m s0 t) by (done || lia).
  assert (ndigits m ≤ 21) as Hd.
  { pose proof (ndigits_spec m ltac:(lia)) as [Hlo _].
    assert (ndigits m - 1 < 16); [|lia].
    apply (Z.pow_lt_mono_r_iff 10); [lia..|]. unfold MAX_SAFE, prec in Hm. lia. }
  rewrite bool_decide_eq_true_2 by done.
  rewrite (ndigits_decomposed m s0 t) by (done || lia).
  replace (ndigits s0 + t - ndigits s0) with t by lia.
  by rewrite Hdec, decimal_mul_pow10.
Qed.

(** * Properties *)

(** C25: [Number_toString] is Number::toString.  Printing the safe
    integers digit by digit is the shortest numeral that ECMAScript
    defines: for every number, the conversion of the model and the
    conversion by the shortest numeral give the same string. *)
Theorem Number_toString_shortest a : Number_toString a = Number_toString_ref a.
Proof.
  destruct a as [|z| |]; try done. unfold Number_toString, Number_toString_ref.
  cbv zeta. destruct (decide (Z.abs z ≤ MAX_SAFE)) as [Hz|Hz].
  - rewrite (bool_decide_eq_true_2 (_ ≤ MAX_SAFE)) by done.
    by rewrite shortest_notation_decimal by lia.
  - by rewrite (bool_decide_eq_false_2 (_ ≤ MAX_SAFE)) by done.
Qed.
