(* ===== verification/Hooks.v ===== *)
(** The state hook of React as [src/src/App.tsx] uses it.  [useState]
    returns the value of the current render and a setter.  A setter call
    does not change that value: it appends an action to the queue of the
    hook, and the next render computes the new value from the queue.  An
    action is a new value ([setItems(layout)], line 34) or a function of the
    previous value ([setItems((prevItems) => ...)], line 55).  [useState]
    is the value a hook returns in a render, from what React has kept of
    it.  [useCallback] (lines 31, 37, 54 and 58) keeps a handler from one
    render to the next while its dependencies are the same. *)

From S2P Require Import Prelude.

(** ** Actions and queues *)

Inductive SetStateAction (S : Type) : Type :=
  | Value (v : S)
  | Updater (f : S → S).

Arguments Value {S} v.
Arguments Updater {S} f.

(** What the next render computes from one action and the value before it. *)
Definition apply_action {S} (prev : S) (a : SetStateAction S) : S :=
  match a with
  | Value v => v
  | Updater f => f prev
  end.

(** The queue of one hook, processed in the order of the setter calls. *)
Definition run_queue {S} (q : list (SetStateAction S)) (s : S) : S :=
  foldl apply_action s q.

(** ** State hooks *)

(** What React keeps of a state hook from one render to the next: the
    value the last render returned and the actions the setter has queued
    since. *)
Record Hook (S : Type) : Type := mkHook {
  memoizedState : S;
  queue : list (SetStateAction S);
}.

Arguments mkHook {S} memoizedState queue.
Arguments memoizedState {S} h.
Arguments queue {S} h.

(** The value [useState(initialState)] returns in a render: in the first
    render [initialState]; in a later render what the queue computes from
    the value of the render before, whatever the argument is. *)
Definition useState {S} (prev : option (Hook S)) (initialState : S) : S :=
  match prev with
  | Some hook => run_queue (queue hook) (memoizedState hook)
  | None => initialState
  end.

(** ** Memoised callbacks *)

(** What [useCallback(fn, deps)] keeps from one render to the next: the
    callback and the dependencies it was created with. *)
Record Memo (D F : Type) : Type := mkMemo {
  memo_deps : D;
  memo_fn : F;
}.

Arguments mkMemo {D F} memo_deps memo_fn.
Arguments memo_deps {D F} m.
Arguments memo_fn {D F} m.

(** [useCallback(fn, deps)] in a render: the callback kept from the
    previous render when there is one and every dependency is the same as
    then; otherwise [fn], kept with [deps] for the next render. *)
Definition useCallback {D F} (same : D → D → bool)
    (prev : option (Memo D F)) (fn : F) (deps : D) : Memo D F :=
  match prev with
  | Some m => if same (memo_deps m) deps then m else mkMemo deps fn
  | None => mkMemo deps fn
  end.

(** ** Laws of queue processing *)

Section queue.
Context {S : Type}.
Implicit Types (q : list (SetStateAction S)) (s : S) (a : SetStateAction S).

Lemma run_queue_nil s : run_queue [] s = s.
Proof. done. Qed.

Lemma run_queue_cons a q s : run_queue (a :: q) s = run_queue q (apply_action s a).
Proof. done. Qed.

Lemma run_queue_app q1 q2 s :
  run_queue (q1 ++ q2) s = run_queue q2 (run_queue q1 s).
Proof. apply foldl_app. Qed.

Lemma run_queue_snoc q a s :
  run_queue (q ++ [a]) s = apply_action (run_queue q s) a.
Proof. by rewrite run_queue_app. Qed.

(** The last value action wins: whatever was queued before it is lost. *)
Lemma run_queue_value q1 v q2 s :
  run_queue (q1 ++ Value v :: q2) s = run_queue q2 v.
Proof. by rewrite run_queue_app. Qed.

(** A queue that ends in a value action does not depend on the state. *)
Lemma run_queue_last_value q v s s' :
  run_queue (q ++ [Value v]) s = run_queue (q ++ [Value v]) s'.
Proof. by rewrite !run_queue_snoc. Qed.

(** Updaters compose, first call innermost. *)
Lemma run_queue_updaters (fs : list (S → S)) s :
  run_queue (Updater <$> fs) s = foldl (λ acc f, f acc) s fs.
Proof.
  revert s. induction fs as [|f fs IH]; intros s; [done|].
  rewrite fmap_cons, run_queue_cons. apply IH.
Qed.

(** Queues of updaters that commute pairwise can be processed in either
    order. *)
Lemma run_queue_updater_comm (f g : S → S) s :
  (∀ s', f (g s') = g (f s')) →
  run_queue [Updater f; Updater g] s = run_queue [Updater g; Updater f] s.
Proof. intros Hfg. simpl. by rewrite Hfg. Qed.

(** A predicate that every action of the queue preserves holds after the
    queue. *)
Lemma run_queue_ind (P : S → Prop) q s :
  P s → Forall (λ a, ∀ s', P s' → P (apply_action s' a)) q → P (run_queue q s).
Proof.
  intros Hs Hq. revert s Hs. induction Hq as [|a q Ha _ IH]; intros s Hs; [done|].
  rewrite run_queue_cons. by apply IH, Ha.
Qed.
End queue.

#[export] Hint Rewrite @run_queue_nil @run_queue_cons @run_queue_snoc : dash.

(** ** Laws of memoised callbacks *)

Section memo.
Context {D F : Type} (same : D → D → bool) (mk : D → F).
Context (same_eq : ∀ d d', same d d' = true → d = d').

(** A callback that is a function [mk] of its dependencies is, after
    [useCallback], the callback of the dependencies of this render,
    whether it was kept or made anew. *)
Lemma useCallback_fn prev deps :
  (∀ m, prev = Some m → memo_fn m = mk (memo_deps m)) →
  memo_fn (useCallback same prev (mk deps) deps) = mk deps.
Proof.
  intros Hprev. destruct prev as [m|]; simpl; [|done].
  destruct (same (memo_deps m) deps) eqn:Hs; [|done].
  rewrite (Hprev m eq_refl). f_equal. by apply same_eq.
Qed.

Lemma useCallback_deps prev (fn : F) deps :
  memo_deps (useCallback same prev fn deps) = deps.
Proof.
  destruct prev as [m|]; simpl; [|done].
  destruct (same (memo_deps m) deps) eqn:Hs; [by apply same_eq|done].
Qed.

Lemma useCallback_ok prev deps :
  (∀ m, prev = Some m → memo_fn m = mk (memo_deps m)) →
  let m' := useCallback same prev (mk deps) deps in
  memo_fn m' = mk (memo_deps m').
Proof.
  intros Hprev. destruct prev as [m|]; simpl; [|done].
  destruct (same (memo_deps m) deps); [by apply Hprev|done].
Qed.
End memo.

(** With an empty dependency array the first callback is kept for ever. *)
Lemma useCallback_stable {F} (m : Memo unit F) fn :
  useCallback (λ _ _, true) (Some m) fn () = m.
Proof. done. Qed.

(** * Properties *)

(** A queue of setter calls is processed in call order, and a call
    that passes a value discards the effect of every call before it: only
    the calls after the last value action act, on that value. *)
Theorem value_action_wins {S} (q1 q2 : list (SetStateAction S)) (v s : S) :
  run_queue (q1 ++ Value v :: q2) s = run_queue q2 v
  ∧ run_queue (q1 ++ q2) s = run_queue q2 (run_queue q1 s).
Proof. split; [apply run_queue_value|apply run_queue_app]. Qed.
