(* ===== verification/Layout.v ===== *)
(** Layout items: the objects [{ i, x, y, w, h }] of the array [items] in
    [src/src/App.tsx] (lines 18-21 and 44-50), with the two views of an
    array of them that the component and the grid share: the ids, which
    are the React keys of the rendered widgets (line 127), and the bounds
    of an item inside the columns of the grid. *)

From S2P Require Import Prelude JSNumber.

#[local] Open Scope Z_scope.

(** ** Items *)

(** The fields of react-grid-layout's [Layout] that the component writes. *)
Record Layout : Type := mkLayout {
  i : string;
  x : number;
  y : number;
  w : number;
  h : number;
}.

#[export] Instance Layout_eq_dec : EqDecision Layout.
Proof. solve_decision. Defined.

#[export] Instance Layout_inhabited : Inhabited Layout :=
  populate (mkLayout "" NaN NaN NaN NaN).

(** The keys of the widgets rendered for an array of items. *)
Definition ids (l : list Layout) : list string := i <$> l.

(** ** Bounds *)

(** An item with finite coordinates that lies inside [cols] columns:
    [0 <= x], [x + w <= cols], [0 <= y], and a size of at least one cell. *)
Definition in_bounds (cols : number) (it : Layout) : bool :=
  match x it, y it, w it, h it with
  | Num x, Num y, Num w, Num h =>
      bool_decide (0 ≤ x ∧ 0 ≤ y ∧ 1 ≤ w ∧ 1 ≤ h)
      && match cols with
         | Num c => bool_decide (x + w ≤ c)
         | PosInf => true
         | _ => false
         end
  | _, _, _, _ => false
  end.

(** The cells of the grid two items share: none when one is left of, right
    of, above or below the other. *)
Definition collides (a b : Layout) : bool :=
  match x a, y a, w a, h a, x b, y b, w b, h b with
  | Num xa, Num ya, Num wa, Num ha, Num xb, Num yb, Num wb, Num hb =>
      bool_decide (i a ≠ i b)
      && bool_decide (xa < xb + wb ∧ xb < xa + wa ∧ ya < yb + hb ∧ yb < ya + ha)
  | _, _, _, _, _, _, _, _ => false
  end.

(** ** Ids *)

Lemma ids_app l1 l2 : ids (l1 ++ l2) = ids l1 ++ ids l2.
Proof. apply fmap_app. Qed.

Lemma ids_cons it l : ids (it :: l) = i it :: ids l.
Proof. done. Qed.

Lemma ids_snoc l it : ids (l ++ [it]) = ids l ++ [i it].
Proof. apply ids_app. Qed.

Lemma length_ids l : length (ids l) = length l.
Proof. apply length_fmap. Qed.

Lemma elem_of_ids k l : k ∈ ids l ↔ ∃ it, it ∈ l ∧ i it = k.
Proof.
  unfold ids. rewrite list_elem_of_fmap.
  split; intros (it & ? & ?); exists it; by split.
Qed.

Lemma ids_remove k l :
  ids (filter (λ it, i it ≠ k) l) = filter (λ k', k' ≠ k) (ids l).
Proof. apply filter_key_fmap. Qed.

Lemma elem_of_ids_remove k k' l :
  k' ∈ ids (filter (λ it, i it ≠ k) l) ↔ k' ≠ k ∧ k' ∈ ids l.
Proof. apply elem_of_filter_key. Qed.

Lemma NoDup_ids_remove k l :
  NoDup (ids l) → NoDup (ids (filter (λ it, i it ≠ k) l)).
Proof. apply NoDup_filter_key. Qed.

Lemma NoDup_ids_snoc l it :
  NoDup (ids (l ++ [it])) ↔ (i it ∉ ids l) ∧ NoDup (ids l).
Proof. rewrite ids_app. apply NoDup_snoc. Qed.

(** Items with distinct ids are determined by their id. *)
Lemma NoDup_ids_inj l a b :
  NoDup (ids l) → a ∈ l → b ∈ l → i a = i b → a = b.
Proof.
  intros Hnd Ha Hb Hi. eapply NoDup_fmap_1 in Hnd as Hl.
  apply list_elem_of_lookup in Ha as [ja Hja], Hb as [jb Hjb].
  assert (ja = jb) as ->; [|congruence].
  eapply NoDup_lookup; [exact Hnd| |]; unfold ids; rewrite list_lookup_fmap.
  - by rewrite Hja.
  - by rewrite Hjb, Hi.
Qed.

#[export] Hint Rewrite ids_app ids_cons ids_remove : dash.
#[export] Hint Resolve NoDup_ids_remove : dash.
