(* ===== verification/Compact.v ===== *)
(** Vertical compaction of a layout.

    The grid of the specification (section 4.3) keeps its items compact:
    they move up, top to bottom and left to right, until each one lies in
    row 0 or right below an item it shares a column with.  [compact] is
    that operation on an array of items: the positions of the array are
    sorted by row and column ([order]), each item is moved up to the
    first row below the items placed before it that share a column with
    it ([rest], [place]), and written back to its position ([settle]).
    [tidy] is the result the specification asks for: every item inside
    the columns ([in_bounds]), no two items in one cell ([apart]), no gap
    below an item ([supported]).  The theorems show that compaction makes
    a tidy layout and changes rows only, and that the tidy layouts are
    its fixed points. *)

From S2P Require Import Prelude JSNumber Layout.

#[local] Open Scope Z_scope.

(** ** Compaction *)

(** The coordinates of an item as integers; 0 for a value that is not
    finite.  The items of a fitted layout have finite coordinates. *)
Definition zx (it : Layout) : Z := match x it with Num z => z | _ => 0 end.
Definition zy (it : Layout) : Z := match y it with Num z => z | _ => 0 end.
Definition zw (it : Layout) : Z := match w it with Num z => z | _ => 0 end.
Definition zh (it : Layout) : Z := match h it with Num z => z | _ => 0 end.

(** The widths of the items of a layout. *)
Definition widths (l : list Layout) : list Z := zw <$> l.

(** Two items that share a column, and two items that share a cell. *)
Definition x_overlap (a b : Layout) : bool :=
  bool_decide (zx a < zx b + zw b ∧ zx b < zx a + zw a).

Definition overlaps (a b : Layout) : bool :=
  x_overlap a b && bool_decide (zy a < zy b + zh b ∧ zy b < zy a + zh a).

(** The row in which an item comes to rest when it moves up: the first
    row below the placed items it shares a column with, row 0 when there
    is none. *)
Definition rest (placed : list Layout) (it : Layout) : Z :=
  foldr (λ p r, if x_overlap p it then Z.max r (zy p + zh p) else r) 0 placed.

Definition set_y (y' : Z) (it : Layout) : Layout :=
  {| i := i it; x := x it; y := Num y'; w := w it; h := h it |}.

Definition place (placed : list Layout) (it : Layout) : Layout :=
  set_y (rest placed it) it.

(** The order of compaction: top to bottom, and left to right within a
    row. *)
Definition before (a b : Layout) : Prop :=
  zy a < zy b ∨ (zy a = zy b ∧ zx a ≤ zx b).

#[export] Instance before_dec a b : Decision (before a b).
Proof. unfold before. apply _. Defined.

(** The positions of the array in the order of compaction. *)
Definition order (its : list Layout) : list nat :=
  merge_sort (λ k1 k2, before (its !!! k1) (its !!! k2)) (seq 0 (length its)).

(** The items at the positions [todo] placed one after the other, each
    above the rows of the items placed before it, and written back to its
    position of the array. *)
Fixpoint settle (todo : list nat) (placed out : list Layout) : list Layout :=
  match todo with
  | [] => out
  | k :: todo =>
      match out !! k with
      | Some it =>
          let it' := place placed it in
          settle todo (placed ++ [it']) (<[k := it']> out)
      | None => settle todo placed out
      end
  end.

Definition compact (its : list Layout) : list Layout :=
  settle (order its) [] its.

(** A layout as the grid shows it: every item inside the columns, no two
    items in one cell, and every item in row 0 or right below an item it
    shares a column with. *)
Definition apart (l : list Layout) : Prop :=
  ∀ k1 k2 a b, k1 ≠ k2 → l !! k1 = Some a → l !! k2 = Some b → overlaps a b = false.

Definition supported (l : list Layout) (it : Layout) : Prop :=
  zy it = 0 ∨ ∃ p, p ∈ l ∧ x_overlap p it = true ∧ zy p + zh p = zy it.

Record tidy (cols : number) (l : list Layout) : Prop := {
  tidy_bounds : Forall (λ it, in_bounds cols it = true) l;
  tidy_apart : apart l;
  tidy_supported : Forall (supported l) l;
}.

(** Two items that differ in [y] at most. *)
Definition same_shape (a b : Layout) : Prop :=
  i a = i b ∧ x a = x b ∧ w a = w b ∧ h a = h b.

(** ** The invariant of [settle] *)

(** The items at the positions [ks] of [out] are the items [placed], no
    two of them share a cell and each of them is supported. *)
Record settled (ks : list nat) (placed out : list Layout) : Prop := {
  settled_NoDup : NoDup ks;
  settled_lookup : Forall2 (λ k p, out !! k = Some p) ks placed;
  settled_apart : apart placed;
  settled_supported : Forall (supported placed) placed;
}.

(** ** Overlap *)

Lemma x_overlap_sym a b : x_overlap a b = x_overlap b a.
Proof. unfold x_overlap. apply bool_decide_ext. lia. Qed.

Lemma overlaps_sym a b : overlaps a b = overlaps b a.
Proof.
  unfold overlaps. rewrite (x_overlap_sym a b). f_equal. apply bool_decide_ext. lia.
Qed.

Lemma x_overlap_set_y p y' it : x_overlap p (set_y y' it) = x_overlap p it.
Proof. done. Qed.

Lemma overlaps_false a b :
  overlaps a b = false ↔
  x_overlap a b = false ∨ zy a + zh a ≤ zy b ∨ zy b + zh b ≤ zy a.
Proof.
  unfold overlaps. rewrite andb_false_iff, bool_decide_eq_false. intuition lia.
Qed.

(** ** The row of rest *)

Lemma rest_cons p placed it :
  rest (p :: placed) it
  = if x_overlap p it then Z.max (rest placed it) (zy p + zh p) else rest placed it.
Proof. done. Qed.

Lemma rest_nonneg placed it : 0 ≤ rest placed it.
Proof.
  induction placed as [|p placed IH]; [done|]. rewrite rest_cons. case_match; lia.
Qed.

Lemma rest_ge placed it p :
  p ∈ placed → x_overlap p it = true → zy p + zh p ≤ rest placed it.
Proof.
  intros Hin Hx. induction Hin as [p placed|p q placed _ IH]; rewrite rest_cons.
  - rewrite Hx. lia.
  - specialize (IH Hx). case_match; lia.
Qed.

Lemma rest_attained placed it :
  rest placed it = 0
  ∨ ∃ p, p ∈ placed ∧ x_overlap p it = true ∧ zy p + zh p = rest placed it.
Proof.
  induction placed as [|q placed IH]; [by left|]. rewrite rest_cons.
  destruct (x_overlap q it) eqn:Hq.
  - destruct (decide (rest placed it ≤ zy q + zh q)) as [Hle|Hgt].
    + right. exists q. rewrite Z.max_r by done. split_and!; [left|done..].
    + rewrite Z.max_l by lia. destruct IH as [IH|(p & ? & ? & ?)]; [by left|].
      right. exists p. split_and!; [by right|done..].
  - destruct IH as [IH|(p & ? & ? & ?)]; [by left|].
    right. exists p. split_and!; [by right|done..].
Qed.

(** A placed item shares no cell with the items placed before it. *)
Lemma place_apart placed it p : p ∈ placed → overlaps p (place placed it) = false.
Proof.
  intros Hin. apply overlaps_false. unfold place. rewrite x_overlap_set_y.
  destruct (x_overlap p it) eqn:Hx; [|by left].
  right; left. by apply rest_ge.
Qed.

Lemma place_supported placed it : supported (placed ++ [place placed it]) (place placed it).
Proof.
  destruct (rest_attained placed it) as [H0|(p & Hin & Hx & Hy)]; [by left|].
  right. exists p. rewrite elem_of_app. eauto.
Qed.

Lemma place_shape placed it : same_shape it (place placed it).
Proof. done. Qed.

Lemma place_in_bounds cols placed it :
  in_bounds cols it = true → in_bounds cols (place placed it) = true.
Proof.
  unfold in_bounds, place. simpl.
  destruct (x it), (y it), (w it), (h it); try done.
  rewrite !andb_true_iff, !bool_decide_eq_true. pose proof (rest_nonneg placed it).
  intros [? ?]. split; [lia|done].
Qed.

(** ** Layouts with no two items in one cell *)

Lemma apart_snoc l a :
  apart l → (∀ p, p ∈ l → overlaps p a = false) → apart (l ++ [a]).
Proof.
  intros Hl Ha k1 k2 b c Hk H1 H2.
  apply lookup_snoc_Some in H1 as [[? H1]|[? <-]], H2 as [[? H2]|[? <-]].
  - by eapply Hl.
  - by eapply Ha, list_elem_of_lookup_2.
  - rewrite overlaps_sym. by eapply Ha, list_elem_of_lookup_2.
  - lia.
Qed.

Lemma supported_mono l l' it : l ⊆ l' → supported l it → supported l' it.
Proof. intros Hl [?|(p & ? & ? & ?)]; [by left|]. right. exists p. auto. Qed.

(** ** [settle] keeps its invariant *)

Lemma settled_nil out : settled [] [] out.
Proof. split; [constructor..| |constructor]. by intros k1 k2 a b _ ?. Qed.

Lemma settled_step ks placed out k it :
  settled ks placed out → k ∉ ks → out !! k = Some it →
  settled (ks ++ [k]) (placed ++ [place placed it]) (<[k := place placed it]> out).
Proof.
  intros [Hnd Hl Ha Hs] Hk Hit. split.
  - apply NoDup_app. split_and!; [done| |apply NoDup_singleton].
    intros k' Hin ->%list_elem_of_singleton. done.
  - apply Forall2_app.
    + apply Forall2_same_length_lookup_2; [by eapply Forall2_length|].
      intros j k' p Hk' Hp. rewrite list_lookup_insert_ne.
      * exact (Forall2_lookup_lr _ ks placed j k' p Hl Hk' Hp).
      * intros ->. by eapply Hk, list_elem_of_lookup_2.
    + repeat constructor. apply list_lookup_insert_eq. by eapply lookup_lt_Some.
  - apply apart_snoc; [done|]. intros p. apply place_apart.
  - apply Forall_app. split; [|apply Forall_singleton, place_supported].
    eapply Forall_impl; [done|]. intros p. apply supported_mono.
    intros q ?. apply elem_of_app. by left.
Qed.

(** The positions [settle] has gone through are settled. *)
Lemma settle_settled todo ks placed out :
  settled ks placed out → NoDup (ks ++ todo) →
  Forall (λ k, (k < length out)%nat) todo →
  ∃ placed', settled (ks ++ todo) placed' (settle todo placed out).
Proof.
  revert ks placed out. induction todo as [|k todo IH]; intros ks placed out Hs Hnd Hlt.
  { exists placed. by rewrite app_nil_r. }
  apply Forall_cons in Hlt as [Hk Hlt]. apply lookup_lt_is_Some in Hk as [it Hit].
  simpl. rewrite Hit. rewrite cons_middle, app_assoc in Hnd |- *.
  apply IH; [|done|by rewrite length_insert].
  apply settled_step; [done| |done].
  apply NoDup_app in Hnd as [Hnd _]. apply NoDup_app in Hnd as (_ & Hnd & _).
  intros Hin. apply (Hnd k Hin). by apply list_elem_of_singleton.
Qed.

#[export] Instance same_shape_equiv : Equivalence same_shape.
Proof.
  split.
  - done.
  - by intros a b (? & ? & ? & ?).
  - intros a b c (? & ? & ? & ?) (? & ? & ? & ?). repeat split; congruence.
Qed.

(** Only [y] changes. *)
Lemma settle_shape todo placed out : Forall2 same_shape out (settle todo placed out).
Proof.
  revert placed out. induction todo as [|k todo IH]; intros placed out; simpl.
  { done. }
  destruct (out !! k) as [it|] eqn:Hit; [|apply IH].
  etrans; [|apply IH]. rewrite <-(list_insert_id out k it) at 1 by done.
  by apply Forall2_insert.
Qed.

(** Moving up keeps an item inside the columns. *)
Lemma settle_in_bounds cols todo placed out :
  Forall (λ it, in_bounds cols it = true) out →
  Forall (λ it, in_bounds cols it = true) (settle todo placed out).
Proof.
  revert placed out. induction todo as [|k todo IH]; intros placed out Hout; [done|].
  simpl. destruct (out !! k) as [it|] eqn:Hit; [|by apply IH].
  apply IH, Forall_insert; [done|]. apply place_in_bounds.
  by eapply Forall_lookup_1 in Hout.
Qed.

(** ** Every position is settled *)

Lemma order_Permutation its : order its ≡ₚ seq 0 (length its).
Proof. apply merge_sort_Permutation. Qed.

Section settled_all.
Context (ks : list nat) (placed out : list Layout).
Context (Hs : settled ks placed out) (Hall : ks ≡ₚ seq 0 (length out)).

Lemma settled_position k a :
  out !! k = Some a → ∃ j, ks !! j = Some k ∧ placed !! j = Some a.
Proof.
  intros Ha. assert (k ∈ ks) as [j Hj]%list_elem_of_lookup.
  { rewrite Hall. apply elem_of_seq. apply lookup_lt_Some in Ha. lia. }
  destruct (Forall2_lookup_l _ _ _ _ _ (settled_lookup _ _ _ Hs) Hj) as (p & Hp & Hout).
  exists j. split; [done|]. congruence.
Qed.

Lemma settled_placed p : p ∈ placed → p ∈ out.
Proof.
  intros [j Hp]%list_elem_of_lookup.
  destruct (Forall2_lookup_r _ _ _ _ _ (settled_lookup _ _ _ Hs) Hp) as (k & _ & Hout).
  by eapply list_elem_of_lookup_2.
Qed.

Lemma settled_all_apart : apart out.
Proof.
  intros k1 k2 a b Hk Ha Hb.
  apply settled_position in Ha as (j1 & Hj1 & Ha), Hb as (j2 & Hj2 & Hb).
  eapply (settled_apart _ _ _ Hs j1 j2); [|done..]. intros ->. congruence.
Qed.

Lemma settled_all_supported : Forall (supported out) out.
Proof.
  apply Forall_forall. intros a [k Ha]%list_elem_of_lookup.
  apply settled_position in Ha as (j & _ & Ha).
  eapply supported_mono; [intros p; apply settled_placed|].
  eapply Forall_lookup_1; [apply (settled_supported _ _ _ Hs)|done].
Qed.
End settled_all.

(** ** Compaction gives a tidy layout *)

Lemma compact_shape its : Forall2 same_shape its (compact its).
Proof. apply settle_shape. Qed.

Lemma zw_same_shape a b : same_shape a b → zw a = zw b.
Proof. unfold zw. by intros (_ & _ & -> & _). Qed.

(** Compaction moves rows only. *)
Lemma widths_compact l : widths (compact l) = widths l.
Proof.
  symmetry. apply list_eq_Forall2, Forall2_fmap.
  eapply Forall2_impl; [apply compact_shape|]. apply zw_same_shape.
Qed.

Lemma length_compact its : length (compact its) = length its.
Proof. symmetry. eapply Forall2_length, compact_shape. Qed.

Lemma ids_compact its : ids (compact its) = ids its.
Proof.
  symmetry. apply list_eq_Forall2, Forall2_fmap.
  eapply Forall2_impl; [apply compact_shape|]. by intros a b [? _].
Qed.

(** Compaction of items inside the columns gives a tidy layout. *)
Lemma compact_tidy cols its :
  Forall (λ it, in_bounds cols it = true) its → tidy cols (compact its).
Proof.
  intros Hb.
  destruct (settle_settled (order its) [] [] its (settled_nil its)) as [placed Hs].
  { simpl. rewrite order_Permutation. apply NoDup_seq. }
  { apply Forall_forall. intros k. rewrite order_Permutation, elem_of_seq. lia. }
  assert (order its ≡ₚ seq 0 (length (compact its))) as Hall.
  { rewrite length_compact. apply order_Permutation. }
  split; [by apply settle_in_bounds|by eapply settled_all_apart|by eapply settled_all_supported].
Qed.

(** ** The order of compaction *)

#[export] Instance before_total : Total before.
Proof. intros a b. unfold before. lia. Qed.

#[export] Instance before_trans : Transitive before.
Proof. intros a b c. unfold before. lia. Qed.

Lemma order_sorted its :
  StronglySorted (λ k1 k2, before (its !!! k1) (its !!! k2)) (order its).
Proof.
  apply StronglySorted_merge_sort.
  - intros k1 k2 k3. apply before_trans.
  - intros k1 k2. apply before_total.
Qed.

Lemma rest_le placed it b :
  0 ≤ b → (∀ p, p ∈ placed → x_overlap p it = true → zy p + zh p ≤ b) →
  rest placed it ≤ b.
Proof.
  intros Hb. induction placed as [|p placed IH]; intros Hp; [done|].
  rewrite rest_cons.
  assert (rest placed it ≤ b) by (apply IH; intros q ?; apply Hp; by right).
  destruct (x_overlap p it) eqn:Hx; [|done].
  assert (zy p + zh p ≤ b) by (apply Hp; [by left|done]). lia.
Qed.

Lemma in_bounds_coords cols it :
  in_bounds cols it = true →
  y it = Num (zy it) ∧ 0 ≤ zy it ∧ 1 ≤ zh it.
Proof.
  unfold in_bounds, zy, zh. destruct (x it), (y it), (w it), (h it); try done.
  intros [?%bool_decide_eq_true _]%andb_prop. split; [done|lia].
Qed.

Lemma place_id cols placed it :
  in_bounds cols it = true → rest placed it = zy it → place placed it = it.
Proof.
  intros (Hy & _)%in_bounds_coords Hr. unfold place, set_y.
  rewrite Hr, <-Hy. by destruct it.
Qed.

(** ** A tidy layout is at rest *)

Lemma tidy_lookup_bounds cols l k it :
  tidy cols l → l !! k = Some it → in_bounds cols it = true.
Proof. intros Htidy Hit. by eapply (Forall_lookup_1 _ _ _ _ (tidy_bounds _ _ Htidy)). Qed.

Section tidy.
Context (cols : number) (l : list Layout) (Htidy : tidy cols l).
Context (ks : list nat) (k : nat) (todo : list nat) (it : Layout).
Context (Hsorted : StronglySorted (λ k1 k2, before (l !!! k1) (l !!! k2)) (ks ++ k :: todo)).
Context (Hall : ks ++ k :: todo ≡ₚ seq 0 (length l)).
Context (Hit : l !! k = Some it).

Lemma tidy_below p :
  p ∈ (l !!!.) <$> ks → x_overlap p it = true → zy p + zh p ≤ zy it.
Proof.
  intros (kp & -> & Hkp)%list_elem_of_fmap Hx.
  assert (NoDup (ks ++ k :: todo)) as Hnd by (rewrite Hall; apply NoDup_seq).
  assert (kp ≠ k) as Hne.
  { intros ->. apply NoDup_app in Hnd as (_ & Hnd & _). apply (Hnd k); [done|by left]. }
  assert (is_Some (l !! kp)) as [p Hp].
  { apply lookup_lt_is_Some. assert (kp ∈ seq 0 (length l)) as ?%elem_of_seq; [|lia].
    rewrite <-Hall. apply elem_of_app. by left. }
  rewrite (list_lookup_total_correct _ _ _ Hp) in Hx |- *.
  assert (before (l !!! kp) (l !!! k)) as Hb.
  { apply (StronglySorted_app_1_elem_of _ _ _ kp k Hsorted Hkp). by left. }
  rewrite (list_lookup_total_correct _ _ _ Hp), (list_lookup_total_correct _ _ _ Hit) in Hb.
  pose proof (tidy_apart _ _ Htidy kp k p it Hne Hp Hit) as Ho.
  apply overlaps_false in Ho as [Ho|Ho]; [congruence|].
  apply (tidy_lookup_bounds _ _ _ _ Htidy), in_bounds_coords in Hit.
  unfold before in Hb. lia.
Qed.

Lemma tidy_above p :
  p ∈ l → zy p < zy it → p ∈ (l !!!.) <$> ks.
Proof.
  intros [kp Hp]%list_elem_of_lookup Hlt. apply list_elem_of_fmap.
  exists kp. split; [by rewrite (list_lookup_total_correct _ _ _ Hp)|].
  assert (kp ∈ ks ++ k :: todo) as [?|[->|Hkp]%elem_of_cons]%elem_of_app; [|done|..].
  { rewrite Hall. apply elem_of_seq. apply lookup_lt_Some in Hp. lia. }
  - simplify_eq. lia.
  - apply StronglySorted_app_1_r, StronglySorted_cons in Hsorted as [Hk _].
    eapply Forall_forall in Hk; [|done].
    rewrite (list_lookup_total_correct _ _ _ Hp), (list_lookup_total_correct _ _ _ Hit) in Hk.
    unfold before in Hk. lia.
Qed.

Lemma tidy_rest : rest ((l !!!.) <$> ks) it = zy it.
Proof.
  destruct (in_bounds_coords cols it) as (_ & Hy & _); [by eapply tidy_lookup_bounds|].
  apply Z.le_antisymm; [apply rest_le; [done|apply tidy_below]|].
  assert (supported l it) as [Hs|(p & Hp & Hx & Hs)].
  { eapply Forall_lookup_1; [apply (tidy_supported _ _ Htidy)|done]. }
  - rewrite Hs. apply rest_nonneg.
  - rewrite <-Hs. apply rest_ge; [|done]. apply tidy_above; [done|].
    apply list_elem_of_lookup in Hp as [kp Hp].
    apply (tidy_lookup_bounds _ _ _ _ Htidy), in_bounds_coords in Hp. lia.
Qed.
End tidy.

(** The row of rest does not depend on the order of the placed items. *)
#[export] Instance rest_Permutation : Proper ((≡ₚ) ==> (=) ==> (=)) rest.
Proof.
  intros placed placed' Hp it _ <-. revert Hp.
  apply (foldr_permutation (=)); [solve_proper|].
  intros _ p1 _ p2 b _ _ _. destruct (x_overlap p1 it), (x_overlap p2 it); lia.
Qed.

#[export] Instance place_Permutation : Proper ((≡ₚ) ==> (=) ==> (=)) place.
Proof. intros placed placed' Hp it _ <-. unfold place. by rewrite Hp. Qed.

(** Along the order of compaction the items of a tidy layout are placed
    where they are, whatever follows them in the array and in the order. *)
Lemma settle_tidy_app cols l extra todo todo' ks :
  tidy cols l →
  StronglySorted (λ k1 k2, before (l !!! k1) (l !!! k2)) (ks ++ todo) →
  ks ++ todo ≡ₚ seq 0 (length l) →
  settle (todo ++ todo') ((l !!!.) <$> ks) (l ++ extra)
  = settle todo' ((l !!!.) <$> (ks ++ todo)) (l ++ extra).
Proof.
  intros Htidy. revert ks. induction todo as [|k todo IH]; intros ks Hs Hall.
  { by rewrite (right_id_L [] (++)). }
  assert (is_Some (l !! k)) as [it Hit].
  { apply lookup_lt_is_Some. assert (k ∈ seq 0 (length l)) as ?%elem_of_seq; [|lia].
    rewrite <-Hall. apply elem_of_app. right. by left. }
  assert (place ((l !!!.) <$> ks) it = it) as Hplace.
  { apply (place_id cols); [by eapply tidy_lookup_bounds|by eapply tidy_rest]. }
  assert ((l ++ extra) !! k = Some it) as Hout by (by apply lookup_app_l_Some).
  simpl. rewrite Hout, Hplace, list_insert_id by done.
  rewrite <-(list_lookup_total_correct _ _ _ Hit).
  change [l !!! k] with ((l !!!.) <$> [k]). rewrite <-fmap_app.
  rewrite IH by (by rewrite <-(assoc_L (++))). by rewrite <-(assoc_L (++)).
Qed.

(** The order of a layout with a last item below all others ends with
    that item. *)
Lemma order_snoc l new :
  (∀ p, p ∈ l → zy p < zy new) →
  ∃ ks, order (l ++ [new]) = ks ++ [length l]
        ∧ ks ≡ₚ seq 0 (length l)
        ∧ StronglySorted (λ k1 k2, before (l !!! k1) (l !!! k2)) ks.
Proof.
  intros Hnew. pose proof (order_sorted (l ++ [new])) as Hs.
  pose proof (order_Permutation (l ++ [new])) as Hall.
  rewrite length_app, Nat.add_1_r, seq_S in Hall. simpl in Hall.
  assert (length l ∈ order (l ++ [new])) as (ks & todo & Ho)%list_elem_of_split.
  { rewrite Hall. apply elem_of_app. right. by left. }
  rewrite Ho in Hs, Hall.
  assert (NoDup (ks ++ length l :: todo)) as Hnd.
  { rewrite Hall, <-seq_S. apply NoDup_seq. }
  assert (∀ k, k ∈ ks ++ todo → (l ++ [new]) !!! k = l !!! k ∧ l !!! k ∈ l) as Hin.
  { intros k Hk. assert (k < length l)%nat as Hlt.
    { assert (k ≠ length l).
      { intros ->. apply NoDup_app in Hnd as (_ & Hnd1 & Hnd2).
        apply NoDup_cons in Hnd2 as [? _]. apply elem_of_app in Hk as [?|?]; [|done].
        apply (Hnd1 (length l)); [done|by left]. }
      assert (k ∈ seq 0 (length l) ++ [length l]) as [?%elem_of_seq|?%list_elem_of_singleton]%elem_of_app;
        [|lia|done].
      rewrite <-Hall. apply elem_of_app in Hk as [?|?]; apply elem_of_app; [by left|].
      right. by right. }
    split; [by apply lookup_total_app_l|by apply list_elem_of_lookup_total_2]. }
  assert ((l ++ [new]) !!! length l = new) as Hlast.
  { apply list_lookup_total_correct. by rewrite lookup_app_r, Nat.sub_diag. }
  destruct todo as [|k todo].
  - exists ks. split; [done|]. split.
    + by apply Permutation_app_inv_r in Hall.
    + apply StronglySorted_app_1_l in Hs. eapply StronglySorted_ext; [|exact Hs].
      intros a b Ha Hb. simpl.
      destruct (Hin a), (Hin b); rewrite ?(right_id_L [] (++)); congruence.
  - apply StronglySorted_app_1_r, StronglySorted_cons in Hs as [Hk _].
    apply Forall_cons in Hk as [Hk _]. rewrite Hlast in Hk.
    destruct (Hin k) as [Hk1 Hk2]; [apply elem_of_app; right; by left|].
    rewrite Hk1 in Hk. apply Hnew in Hk2. unfold before in Hk. lia.
Qed.

(** Compaction leaves a tidy layout as it is. *)
Lemma compact_tidy_id cols l : tidy cols l → compact l = l.
Proof.
  intros Htidy.
  pose proof (settle_tidy_app cols l [] (order l) [] [] Htidy (order_sorted l)
                (order_Permutation l)) as Hl.
  by rewrite !(right_id_L [] (++)) in Hl.
Qed.

Lemma compact_idemp cols its :
  Forall (λ it, in_bounds cols it = true) its → compact (compact its) = compact its.
Proof. intros Hb. by eapply compact_tidy_id, compact_tidy. Qed.

(** Compaction of a tidy layout with one more item below it: the layout
    stays, the item comes to rest on it. *)
Lemma compact_snoc cols l new :
  tidy cols l → (∀ p, p ∈ l → zy p < zy new) →
  compact (l ++ [new]) = l ++ [place l new].
Proof.
  intros Htidy Hnew. destruct (order_snoc l new Hnew) as (ks & Ho & Hall & Hs).
  unfold compact. rewrite Ho.
  trans (settle [length l] ((l !!!.) <$> ks) (l ++ [new]));
    [by apply (settle_tidy_app cols l [new] ks [length l] [])|].
  simpl. rewrite lookup_app_r, Nat.sub_diag by done. simpl.
  rewrite Hall, lookup_total_seq.
  by rewrite insert_app_r_alt, Nat.sub_diag by done.
Qed.

(** ** Collisions *)

Lemma collides_overlaps a b : collides a b = true → i a ≠ i b ∧ overlaps a b = true.
Proof.
  unfold collides, overlaps, x_overlap, zx, zy, zw, zh.
  destruct (x a); try done. destruct (y a); try done.
  destruct (w a); try done. destruct (h a); try done.
  destruct (x b); try done. destruct (y b); try done.
  destruct (w b); try done. destruct (h b); try done.
  rewrite !andb_true_iff, !bool_decide_eq_true. intuition lia.
Qed.

Lemma apart_collides l a b : apart l → a ∈ l → b ∈ l → collides a b = false.
Proof.
  intros Hl [ka Ha]%list_elem_of_lookup [kb Hb]%list_elem_of_lookup.
  apply not_true_is_false. intros [Hi Ho]%collides_overlaps.
  destruct (decide (ka = kb)) as [->|Hne]; [by simplify_eq|].
  by rewrite (Hl ka kb a b) in Ho.
Qed.

(** * Properties *)

(** C26: compaction gives a tidy layout.  Of items inside the columns it
    makes a layout in which every item is inside the columns, no two
    items share a cell and every item lies in row 0 or right below an
    item it shares a column with; every item keeps its id, its column
    and its size, at its position of the array. *)
Theorem compact_is_tidy cols its :
  Forall (λ it, in_bounds cols it = true) its →
  tidy cols (compact its) ∧ Forall2 same_shape its (compact its).
Proof. intros Hb. split; [by apply compact_tidy|apply compact_shape]. Qed.

Lemma compact_is_tidy_witness :
  let its := [ mkLayout "a" (Num 0) (Num 0) (Num 6) (Num 4);
               mkLayout "b" (Num 4) (Num 0) (Num 6) (Num 4);
               mkLayout "new-0" (Num 4) (Num 4) (Num 2) (Num 2) ] in
  tidy (Num 10) (compact its) ∧ Forall2 same_shape its (compact its).
Proof.
  apply (compact_is_tidy (Num 10)
           [ mkLayout "a" (Num 0) (Num 0) (Num 6) (Num 4);
             mkLayout "b" (Num 4) (Num 0) (Num 6) (Num 4);
             mkLayout "new-0" (Num 4) (Num 4) (Num 2) (Num 2) ]).
  by repeat constructor.
Defined.

(** C27: the tidy layouts are the layouts inside the columns that
    compaction leaves as they are: compaction moves nothing in a layout
    without overlap and without gap, and a layout it does not move has
    neither. *)
Theorem compact_fixpoint cols l :
  tidy cols l ↔ Forall (λ it, in_bounds cols it = true) l ∧ compact l = l.
Proof.
  split.
  - intros Htidy. split; [apply (tidy_bounds _ _ Htidy)|by eapply compact_tidy_id].
  - intros [Hb <-]. by apply compact_tidy.
Qed.

(** Three items, the second overlapping the first and the third lying
    too low: compaction moves the second below the first and the third
    below the second. *)
Example compact_scenario :
  compact [ mkLayout "a" (Num 0) (Num 0) (Num 6) (Num 4);
            mkLayout "b" (Num 4) (Num 0) (Num 6) (Num 4);
            mkLayout "c" (Num 4) (Num 20) (Num 2) (Num 2) ]
  = [ mkLayout "a" (Num 0) (Num 0) (Num 6) (Num 4);
      mkLayout "b" (Num 4) (Num 4) (Num 6) (Num 4);
      mkLayout "c" (Num 4) (Num 8) (Num 2) (Num 2) ].
Proof. by_eval. Qed.
