(* ===== verification/App.v ===== *)
(** The component [App] of [src/src/App.tsx]: its four state hooks, its
    handlers, and the commit of the setter calls a handler makes.

    A handler runs inside one render: the variables [items], [columns],
    [newCounter] and [selectedItemId] it mentions are the values of that
    render.  A handler is therefore a function from those values (a
    [State]) and its arguments to the list of setter calls it makes, in
    the order of the source.  [useStates] is the four [useState] calls
    of a render; [initial] is their first render, and [commit] the next
    render after setter calls: each hook processes the calls made on its
    own setter, in order. *)

From S2P Require Import Prelude JSNumber JSString Hooks Layout.

#[local] Open Scope js_scope.

(** ** State *)

(** The values [useState] returns in one render (lines 26-29). *)
Record State : Type := mkState {
  items : list Layout;
  columns : number;
  newCounter : number;
  selectedItemId : option string;
}.

(** Lines 18-24. *)
Definition initialItems : list Layout :=
  [ {| i := "a"; x := Num 0; y := Num 0; w := Num 6; h := Num 4 |};
    {| i := "b"; x := Num 6; y := Num 0; w := Num 6; h := Num 4 |} ].

Definition initialCols : number := Num 10.
Definition rowHeight : number := Num 30.
Definition gridWidth : number := Num 1200.

(** ** Setter calls *)

(** A call of one of the four setters with its argument. *)
Inductive SetterCall : Type :=
  | setItems (a : SetStateAction (list Layout))
  | setColumns (a : SetStateAction number)
  | setNewCounter (a : SetStateAction number)
  | setSelectedItemId (a : SetStateAction (option string)).

(** The queue of each hook: the calls of its setter, in call order. *)
Definition items_queue (cs : list SetterCall) : list (SetStateAction (list Layout)) :=
  omap (λ c, match c with setItems a => Some a | _ => None end) cs.

Definition columns_queue (cs : list SetterCall) : list (SetStateAction number) :=
  omap (λ c, match c with setColumns a => Some a | _ => None end) cs.

Definition newCounter_queue (cs : list SetterCall) : list (SetStateAction number) :=
  omap (λ c, match c with setNewCounter a => Some a | _ => None end) cs.

Definition selectedItemId_queue (cs : list SetterCall)
    : list (SetStateAction (option string)) :=
  omap (λ c, match c with setSelectedItemId a => Some a | _ => None end) cs.

(** Lines 26-29: the four [useState] calls of a render.  [prev] is the
    render before with the setter calls made since, if there was one. *)
Definition useStates (prev : option (State * list SetterCall)) : State :=
  let hook {S} (value : State → S) (queue : list SetterCall → list (SetStateAction S)) :=
    (λ p, mkHook (value p.1) (queue p.2)) <$> prev in
  {| items := useState (hook items items_queue) initialItems;
     columns := useState (hook columns columns_queue) initialCols;
     newCounter := useState (hook newCounter newCounter_queue) (Num 0);
     selectedItemId := useState (hook selectedItemId selectedItemId_queue) None |}.

(** The first render: every hook holds its initial value. *)
Definition initial : State := useStates None.

(** The render that follows a batch of setter calls. *)
Definition commit (cs : list SetterCall) (s : State) : State :=
  useStates (Some (s, cs)).

(** One setter call applied on its own. *)
Definition apply_call (s : State) (c : SetterCall) : State :=
  match c with
  | setItems a =>
      mkState (apply_action (items s) a) (columns s) (newCounter s) (selectedItemId s)
  | setColumns a =>
      mkState (items s) (apply_action (columns s) a) (newCounter s) (selectedItemId s)
  | setNewCounter a =>
      mkState (items s) (columns s) (apply_action (newCounter s) a) (selectedItemId s)
  | setSelectedItemId a =>
      mkState (items s) (columns s) (newCounter s) (apply_action (selectedItemId s) a)
  end.

(** ** Handlers *)

(** Lines 31-35. *)
Definition onLayoutChange (layout : list Layout) : list SetterCall :=
  [ setItems (Value layout) ].

(** Line 38: [`new-${newCounter}`]. *)
Definition newItemId (counter : number) : string :=
  "new-" +:+ Number_toString counter.

(** Lines 44-50: the item appended by "Add Widget". *)
Definition newItem (r : State) : Layout :=
  {| i := newItemId (newCounter r);
     x := (array_length (items r) *ⱼ Num 2) %ⱼ columns r;
     y := Infinity;
     w := Num 2;
     h := Num 2 |}.

(** Lines 37-52. *)
Definition onAddItem (r : State) : list SetterCall :=
  [ setNewCounter (Value (newCounter r +ⱼ Num 1));
    setItems (Value (items r ++ [newItem r])) ].

(** Lines 54-56. *)
Definition onRemoveItem (itemId : string) : list SetterCall :=
  [ setItems (Updater (λ prevItems, filter (λ item, i item ≠ itemId) prevItems)) ].

(** Lines 58-60. *)
Definition handleSelectWidget (itemId : string) : list SetterCall :=
  [ setSelectedItemId
      (Updater (λ prevSelectedId,
         if strict_eq prevSelectedId itemId then None else Some itemId)) ].

(** Lines 62-67; [value] is [event.target.value]. *)
Definition handleColumnsChange (value : string) : list SetterCall :=
  let newCols := parseInt value in
  if negb (isNaN newCols) && (newCols >ⱼ Num 0)
  then [ setColumns (Value newCols) ]
  else [].

(** Lines 93-98: the click handler of "Remove Selected". *)
Definition onRemoveSelectedClick (r : State) : list SetterCall :=
  match selectedItemId r with
  | Some itemId =>
      if truthy (Some itemId)
      then onRemoveItem itemId ++ [ setSelectedItemId (Value None) ]
      else []
  | None => []
  end.

(** Line 99: [disabled={!selectedItemId}]. *)
Definition removeDisabled (r : State) : bool := negb (truthy (selectedItemId r)).

(** ** Events *)

(** What can happen to the rendered component: the grid calls
    [onLayoutChange] (line 115), a button is clicked (lines 87 and 93), the
    [div] of a widget is clicked (line 127), the text field changes
    (line 80). *)
Inductive Event : Type :=
  | LayoutChange (layout : list Layout)
  | AddClick
  | RemoveClick
  | WidgetClick (itemId : string)
  | ColumnsChange (value : string).

#[export] Instance Event_eq_dec : EqDecision Event.
Proof. solve_decision. Defined.

(** The setter calls the handler of an event makes in the render [r]. *)
Definition handle (r : State) (e : Event) : list SetterCall :=
  match e with
  | LayoutChange layout => onLayoutChange layout
  | AddClick => onAddItem r
  | RemoveClick => onRemoveSelectedClick r
  | WidgetClick itemId => handleSelectWidget itemId
  | ColumnsChange value => handleColumnsChange value
  end.

(** An event handled in the render [s], and the render that follows. *)
Definition dispatch (s : State) (e : Event) : State := commit (handle s e) s.

(** Events handled one render after the other. *)
Definition run (s : State) (es : list Event) : State := foldl dispatch s es.

(** Several events handled in the same render: their handlers all see the
    values of [s], and one render follows. *)
Definition dispatch_batch (s : State) (es : list Event) : State :=
  commit (es ≫= handle s) s.

(** ** Well-formed states *)

(** What every render of the component satisfies, whatever the grid
    reports as long as it keeps the ids: the column count is a positive
    number, the counter is a safe integer, a selection names a widget
    that is rendered, and no widget has the empty id. *)
Record wf (s : State) : Prop := {
  wf_columns : (columns s >ⱼ Num 0) = true;
  wf_columns_double : is_double (columns s);
  wf_counter : safe (newCounter s);
  wf_selected : ∀ itemId, selectedItemId s = Some itemId → itemId ∈ ids (items s);
  wf_nonempty : "" ∉ ids (items s);
}.

(** The ids are pairwise distinct and the ids "Add Widget" has yet to hand
    out are not in use. *)
Record ids_fresh (s : State) : Prop := {
  fresh_NoDup : NoDup (ids (items s));
  fresh_counter : ∀ c n,
    newCounter s = Num c → (c ≤ n ≤ MAX_SAFE)%Z → newItemId (Num n) ∉ ids (items s);
}.

(** Events that can occur in a render: a click needs its widget or an
    enabled button; the grid reports the items it was given, moved or
    resized. *)
Definition enabled (s : State) (e : Event) : Prop :=
  match e with
  | LayoutChange layout => ids layout = ids (items s)
  | AddClick => True
  | RemoveClick => removeDisabled s = false
  | WidgetClick itemId => itemId ∈ ids (items s)
  | ColumnsChange _ => True
  end.

#[export] Instance enabled_dec s e : Decision (enabled s e).
Proof. destruct e; simpl; apply _. Defined.

(** Events whose handler reads no value of the render it runs in. *)
Definition closure_free (e : Event) : bool :=
  match e with
  | AddClick | RemoveClick => false
  | _ => true
  end.

(** ** Commit *)

Lemma commit_nil s : commit [] s = s.
Proof. by destruct s. Qed.

Lemma commit_cons c cs s : commit (c :: cs) s = commit cs (apply_call s c).
Proof. by destruct c. Qed.

(** Processing one queue per hook is the same as applying the calls one
    after the other. *)
Lemma commit_foldl cs s : commit cs s = foldl apply_call s cs.
Proof.
  revert s. induction cs as [|c cs IH]; intros s; [apply commit_nil|].
  by rewrite commit_cons, IH.
Qed.

Lemma commit_app cs1 cs2 s : commit (cs1 ++ cs2) s = commit cs2 (commit cs1 s).
Proof. by rewrite !commit_foldl, foldl_app. Qed.

(** ** The state after each event *)

Lemma dispatch_LayoutChange s layout :
  dispatch s (LayoutChange layout)
  = mkState layout (columns s) (newCounter s) (selectedItemId s).
Proof. done. Qed.

Lemma dispatch_AddClick s :
  dispatch s AddClick
  = mkState (items s ++ [newItem s]) (columns s) (newCounter s +ⱼ Num 1)
      (selectedItemId s).
Proof. done. Qed.

Lemma dispatch_WidgetClick s itemId :
  dispatch s (WidgetClick itemId)
  = mkState (items s) (columns s) (newCounter s)
      (if decide (selectedItemId s = Some itemId) then None else Some itemId).
Proof. unfold dispatch, commit, useStates. simpl. unfold strict_eq. by case_tests. Qed.

Lemma dispatch_RemoveClick_selected s itemId :
  selectedItemId s = Some itemId → itemId ≠ "" →
  dispatch s RemoveClick
  = mkState (filter (λ item, i item ≠ itemId) (items s)) (columns s)
      (newCounter s) None.
Proof.
  intros Hsel Hne. unfold dispatch. simpl. unfold onRemoveSelectedClick.
  rewrite Hsel. by destruct itemId.
Qed.

Lemma dispatch_RemoveClick_disabled s :
  removeDisabled s = true → dispatch s RemoveClick = s.
Proof.
  unfold removeDisabled, dispatch. simpl. unfold onRemoveSelectedClick.
  destruct s as [its c n [[|]|]]; simpl; done.
Qed.

Lemma dispatch_ColumnsChange_accept s value :
  isNaN (parseInt value) = false → (parseInt value >ⱼ Num 0) = true →
  dispatch s (ColumnsChange value)
  = mkState (items s) (parseInt value) (newCounter s) (selectedItemId s).
Proof.
  intros Hnan Hpos. unfold dispatch. simpl. unfold handleColumnsChange.
  by rewrite Hnan, Hpos.
Qed.

Lemma dispatch_ColumnsChange_reject s value :
  isNaN (parseInt value) = true ∨ (parseInt value >ⱼ Num 0) = false →
  dispatch s (ColumnsChange value) = s.
Proof.
  intros Hrej. unfold dispatch. simpl. unfold handleColumnsChange.
  destruct Hrej as [->| ->]; rewrite ?andb_false_r; apply commit_nil.
Qed.

(** ** Ids handed out by "Add Widget" *)

Lemma newItemId_inj a b :
  (Z.abs a ≤ MAX_SAFE)%Z → (Z.abs b ≤ MAX_SAFE)%Z →
  newItemId (Num a) = newItemId (Num b) → a = b.
Proof.
  intros Ha Hb Heq. apply (inj (String.append "new-")) in Heq.
  by apply Number_toString_inj_safe.
Qed.

Lemma parseInt_is_double value : is_double (parseInt value).
Proof. unfold parseInt. destruct (StringToMathInt value); simpl; auto with dash. Qed.

(** ** Preservation of [wf] *)

Lemma newItemId_nonempty counter : newItemId counter ≠ "".
Proof. unfold newItemId. by rewrite string_app_cons. Qed.

Lemma wf_initial : wf initial.
Proof. split; [done|done|by_eval|done|compute_done]. Qed.

Lemma wf_LayoutChange s layout :
  wf s → ids layout = ids (items s) → wf (dispatch s (LayoutChange layout)).
Proof. intros [] Hids. split; simpl; rewrite ?Hids; done. Qed.

Lemma wf_AddClick s : wf s → wf (dispatch s AddClick).
Proof.
  intros []. rewrite dispatch_AddClick.
  split; simpl; [done|done|auto with dash|..].
  - intros itemId Hsel. rewrite ids_app, elem_of_app. auto.
  - rewrite ids_snoc, elem_of_app, list_elem_of_singleton.
    intros [?|Hnew]; [done|]. symmetry in Hnew. by apply newItemId_nonempty in Hnew.
Qed.

Lemma wf_RemoveClick s : wf s → wf (dispatch s RemoveClick).
Proof.
  intros Hwf. destruct (removeDisabled s) eqn:Hdis.
  { by rewrite dispatch_RemoveClick_disabled. }
  destruct Hwf. unfold removeDisabled in Hdis.
  destruct (selectedItemId s) as [[|c itemId]|] eqn:Hsel; try done.
  erewrite dispatch_RemoveClick_selected by done. split; simpl; [done..|].
  by intros [_ ?]%elem_of_ids_remove.
Qed.

Lemma wf_WidgetClick s itemId :
  wf s → itemId ∈ ids (items s) → wf (dispatch s (WidgetClick itemId)).
Proof.
  intros [] Hin. rewrite dispatch_WidgetClick. split; simpl; [done..| |done].
  intros itemId'. case_decide; [done|]. by intros [= <-].
Qed.

Lemma wf_ColumnsChange s value : wf s → wf (dispatch s (ColumnsChange value)).
Proof.
  intros Hwf. destruct (isNaN (parseInt value)) eqn:Hnan.
  { rewrite dispatch_ColumnsChange_reject; auto. }
  destruct (parseInt value >ⱼ Num 0) eqn:Hpos.
  2: { rewrite dispatch_ColumnsChange_reject; auto. }
  rewrite dispatch_ColumnsChange_accept by done. destruct Hwf.
  split; simpl; [done|apply parseInt_is_double|done..].
Qed.

Lemma wf_dispatch s e : wf s → enabled s e → wf (dispatch s e).
Proof.
  destruct e; simpl; eauto using wf_LayoutChange, wf_AddClick, wf_RemoveClick,
    wf_WidgetClick, wf_ColumnsChange.
Qed.

(** ** Preservation of [ids_fresh] *)

Lemma ids_fresh_initial : ids_fresh initial.
Proof.
  split; [compute_done|]. intros c n _ _. unfold newItemId. simpl.
  rewrite !elem_of_cons, elem_of_nil. intros [H|[H|[]]]; discriminate H.
Qed.

Lemma ids_fresh_items s s' :
  ids (items s') = ids (items s) → newCounter s' = newCounter s →
  ids_fresh s → ids_fresh s'.
Proof. intros Hids Hc []. split; rewrite ?Hids, ?Hc; done. Qed.

Lemma ids_fresh_remove s itemId sel :
  ids_fresh s →
  ids_fresh (mkState (filter (λ item, i item ≠ itemId) (items s)) (columns s)
               (newCounter s) sel).
Proof.
  intros [Hnd Hfr]. split; simpl; [auto with dash|].
  intros c n Hc Hn [_ Hin]%elem_of_ids_remove. by eapply Hfr.
Qed.

Lemma ids_fresh_AddClick s :
  wf s → newCounter s ≠ Num MAX_SAFE → ids_fresh s → ids_fresh (dispatch s AddClick).
Proof.
  intros [_ _ Hsafe _] Hmax [Hnd Hfr]. rewrite dispatch_AddClick. unfold newItem.
  destruct (newCounter s) as [|c| |] eqn:Hc; try done. simpl in Hsafe.
  assert (c ≠ MAX_SAFE) by congruence.
  split; simpl.
  - apply NoDup_ids_snoc. split; [|done]. apply (Hfr c c); [done|lia].
  - rewrite to_double_exact by safe_lia. intros c' n [= <-] Hn.
    rewrite ids_app, elem_of_app. intros [Hin|Hin%list_elem_of_singleton].
    + apply (Hfr c n); [done|lia|done].
    + simpl in Hin. apply newItemId_inj in Hin; safe_lia.
Qed.

Lemma ids_fresh_dispatch s e :
  wf s → (e = AddClick → newCounter s ≠ Num MAX_SAFE) → enabled s e →
  ids_fresh s → ids_fresh (dispatch s e).
Proof.
  intros Hwf Hmax Hen Hfr. destruct e as [layout| | |itemId|value].
  - by apply (ids_fresh_items s).
  - by apply ids_fresh_AddClick; auto.
  - simpl in Hen. unfold removeDisabled in Hen.
    destruct (selectedItemId s) as [[|c itemId]|] eqn:Hsel; try done.
    erewrite dispatch_RemoveClick_selected by done. by apply ids_fresh_remove.
  - rewrite dispatch_WidgetClick. by apply (ids_fresh_items s).
  - apply (ids_fresh_items s); [..|done];
      unfold dispatch, handle, handleColumnsChange; by case_tests.
Qed.

(** ** The column field *)

(** The column count after a change of the field, in terms of the integer
    the text starts with. *)
Lemma columns_ColumnsChange s value :
  columns (dispatch s (ColumnsChange value))
  = match StringToMathInt value with
    | Some z => if bool_decide (0 < z)%Z then to_double z else columns s
    | None => columns s
    end.
Proof.
  unfold dispatch, handle, handleColumnsChange, parseInt.
  destruct (StringToMathInt value) as [z|]; [|done].
  rewrite to_double_not_NaN, to_double_gt_0. by case_bool_decide.
Qed.

Lemma dispatch_ColumnsChange_frame s value :
  items (dispatch s (ColumnsChange value)) = items s
  ∧ newCounter (dispatch s (ColumnsChange value)) = newCounter s
  ∧ selectedItemId (dispatch s (ColumnsChange value)) = selectedItemId s.
Proof. unfold dispatch, handle, handleColumnsChange. by case_tests. Qed.

(** ** Removal *)

Lemma commit_onRemoveItem s itemId :
  commit (onRemoveItem itemId) s
  = mkState (filter (λ item, i item ≠ itemId) (items s)) (columns s)
      (newCounter s) (selectedItemId s).
Proof. done. Qed.

Lemma onRemoveItem_absent s itemId :
  itemId ∉ ids (items s) → commit (onRemoveItem itemId) s = s.
Proof.
  intros Hin. rewrite commit_onRemoveItem, filter_key_absent by done.
  by destruct s.
Qed.

Lemma onRemoveItem_idem s itemId :
  commit (onRemoveItem itemId) (commit (onRemoveItem itemId) s)
  = commit (onRemoveItem itemId) s.
Proof. rewrite !commit_onRemoveItem. simpl. by autorewrite with dash. Qed.

(** ** Selection *)

Lemma selectedItemId_WidgetClick_twice s itemId :
  selectedItemId (run s [WidgetClick itemId; WidgetClick itemId])
  = if decide (selectedItemId s = Some itemId) then Some itemId else None.
Proof.
  unfold run. cbn [foldl]. rewrite !dispatch_WidgetClick. simpl.
  by case_tests.
Qed.

(** ** Position of a new item *)

Lemma x_newItem s c :
  columns s = Num c → (0 < c)%Z →
  (Z.of_nat (length (items s)) ≤ 2 ^ (prec - 1))%Z →
  x (newItem s) = Num ((2 * Z.of_nat (length (items s))) `mod` c).
Proof.
  intros Hc Hpos Hlen. unfold newItem. cbn [x].
  rewrite array_length_double, Hc by done. apply number_rem_pos; lia.
Qed.

(** ** Events handled in one render *)

Lemma handle_closure_free e r r' : closure_free e = true → handle r e = handle r' e.
Proof. by destruct e. Qed.

Lemma dispatch_batch_nil s : dispatch_batch s [] = s.
Proof. apply commit_nil. Qed.

Lemma dispatch_batch_cons s e es :
  dispatch_batch s (e :: es) = commit (es ≫= handle s) (dispatch s e).
Proof. unfold dispatch_batch, dispatch. by rewrite bind_cons, commit_app. Qed.

(** One handler in a render is one event. *)
Lemma dispatch_batch_one s e : dispatch_batch s [e] = dispatch s e.
Proof. unfold dispatch_batch, dispatch. simpl. by rewrite (right_id_L [] (++)). Qed.

Lemma dispatch_batch_closure_free s es :
  Forall (λ e, closure_free e = true) es → dispatch_batch s es = run s es.
Proof.
  intros Hes. unfold dispatch_batch, run.
  generalize s at 1 as r. revert s.
  induction Hes as [|e es He _ IH]; intros s r; [apply commit_nil|].
  rewrite bind_cons, commit_app. simpl. rewrite (IH _ r).
  unfold dispatch. by rewrite (handle_closure_free e r s).
Qed.

(** "Add Widget" reads [items] and [newCounter] of its render and queues
    values: a second call in the same render queues the same values again. *)
Lemma dispatch_batch_AddClick_twice s :
  dispatch_batch s [AddClick; AddClick] = dispatch s AddClick.
Proof. done. Qed.

(** A removal queued before "Add Widget" in the same render is lost: the
    value queued by [onAddItem] replaces the filtered array. *)
Lemma dispatch_batch_remove_add s :
  items (dispatch_batch s [RemoveClick; AddClick]) = items s ++ [newItem s].
Proof.
  unfold dispatch_batch, commit, useStates. simpl.
  unfold items_queue. rewrite omap_app. simpl. by autorewrite with dash.
Qed.

(** ** Horizontal bounds of a new item *)

Lemma newItem_fits_even s c :
  columns s = Num c → (0 < c)%Z → Z.even c = true →
  (Z.of_nat (length (items s)) ≤ 2 ^ (prec - 1))%Z →
  ∃ x0, x (newItem s) = Num x0 ∧ (0 ≤ x0 ∧ x0 + 2 ≤ c)%Z.
Proof.
  intros Hc Hpos Hev Hlen. eexists. split; [by apply x_newItem|].
  apply Z.even_spec in Hev as [k ->].
  pose proof (Z.mod_pos_bound (2 * Z.of_nat (length (items s))) (2 * k) Hpos).
  assert (Z.even ((2 * Z.of_nat (length (items s))) `mod` (2 * k)) = true) as Hm.
  { rewrite Z.mod_eq, Z.even_sub, !Z.even_mul by lia. done. }
  apply Z.even_spec in Hm as [j Hj]. lia.
Qed.

(** A new item lies inside the columns unless the column count divides
    [2 * length + 1]: the count is odd then, and the item starts in the
    last column. *)
Lemma newItem_fits_iff s c :
  columns s = Num c → (0 < c)%Z →
  (Z.of_nat (length (items s)) ≤ 2 ^ (prec - 1))%Z →
  ∃ x0, x (newItem s) = Num x0 ∧ w (newItem s) = Num 2 ∧ (0 ≤ x0 < c)%Z
        ∧ ((x0 + 2 ≤ c)%Z ↔ ¬ (c | 2 * Z.of_nat (length (items s)) + 1)%Z).
Proof.
  intros Hc Hpos Hlen. eexists. split; [by apply x_newItem|]. split; [done|].
  pose proof (Z.mod_pos_bound (2 * Z.of_nat (length (items s))) c Hpos).
  split; [done|]. rewrite <-mod_last_divide by done. lia.
Qed.

(** ** The remove button *)

Lemma removeDisabled_spec s :
  removeDisabled s = true ↔ selectedItemId s = None ∨ selectedItemId s = Some "".
Proof.
  unfold removeDisabled. destruct (selectedItemId s) as [[|c t]|]; simpl;
    split; try done; eauto; intros [?|?]; done.
Qed.

Lemma selectedItemId_onRemoveItem s itemId :
  selectedItemId (commit (onRemoveItem itemId) s) = selectedItemId s.
Proof. done. Qed.

Lemma removeDisabled_false s :
  removeDisabled s = false ↔ ∃ k, selectedItemId s = Some k ∧ k ≠ "".
Proof.
  unfold removeDisabled. destruct (selectedItemId s) as [[|c t]|]; simpl.
  - split; [done|]. by intros (k & [= <-] & ?).
  - split; [by eexists|done].
  - split; [done|]. by intros (k & ? & _).
Qed.

Lemma dispatch_RemoveClick_gone s itemId :
  selectedItemId s = Some itemId → itemId ≠ "" →
(itemId ∉ ids (items (dispatch s RemoveClick)))
  ∧ selectedItemId (dispatch s RemoveClick) = None
  ∧ removeDisabled (dispatch s RemoveClick) = true.
Proof.
  intros Hsel Hne. rewrite (dispatch_RemoveClick_selected s itemId) by done.
  split; [apply filter_key_gone|done].
Qed.

(** In a well-formed render the button is disabled exactly when nothing
    is selected. *)
Lemma removeDisabled_wf s :
  wf s → removeDisabled s = true ↔ selectedItemId s = None.
Proof.
  intros [_ _ _ Hsel Hne]. rewrite removeDisabled_spec. split; [|auto].
  intros [?|Hempty]; [done|]. by apply Hsel in Hempty.
Qed.

(** ** Scenarios *)

(** The scenario of the specification: from the first render, "Add
    Widget" appends the item [new-0] at [x = (2 * 2) % 10 = 4] with
    [y = Infinity] and size 2 by 2, and the counter becomes 1. *)
Example run_add :
  dispatch initial AddClick
  = {| items := initialItems
         ++ [ {| i := "new-0"; x := Num 4; y := Infinity; w := Num 2; h := Num 2 |} ];
       columns := Num 10;
       newCounter := Num 1;
       selectedItemId := None |}.
Proof. by_eval. Qed.

(** The scenario of the specification: selecting widget [a] and
    clicking "Remove Selected" leaves the item [b] alone, clears the
    selection and disables the button. *)
Example run_select_remove :
  run initial [WidgetClick "a"; RemoveClick]
  = {| items := [ {| i := "b"; x := Num 6; y := Num 0; w := Num 6; h := Num 4 |} ];
       columns := Num 10;
       newCounter := Num 0;
       selectedItemId := None |}
  ∧ removeDisabled (run initial [WidgetClick "a"; RemoveClick]) = true.
Proof. by_eval. Qed.

(** Ids are not reused after a removal: adding, removing the added
    widget and adding twice more gives [new-1] and [new-2]. *)
Example run_adds_removes :
  ids (items (run initial
    [AddClick; WidgetClick "new-0"; RemoveClick; AddClick; ColumnsChange "5"; AddClick]))
  = ["a"; "b"; "new-1"; "new-2"].
Proof. by_eval. Qed.

(** The first render is not inside its own grid: item [b] spans the
    columns 6 to 11 while the grid has 10 columns. *)
Example initial_b_out_of_bounds :
  Forall (λ it, in_bounds (columns initial) it = true) (items initial) ↔ False.
Proof.
  split; [|done]. intros Hall. apply Forall_cons in Hall as [_ Hall].
  apply Forall_cons in Hall as [Hb _]. by vm_compute in Hb.
Qed.

(** With an odd column count a new item can stick out of the grid:
    with five columns and two items it starts in the last column and is
    two columns wide. *)
Example newItem_odd_columns :
  let s := dispatch initial (ColumnsChange "5") in
  x (newItem s) = Num 4 ∧ w (newItem s) = Num 2 ∧ columns s = Num 5.
Proof. by_eval. Qed.

(** * Properties *)

(** C1: every event that can occur in a well-formed render leads to a
    well-formed render: the column count stays a positive number, the
    counter a safe integer, the selection the id of a rendered widget, and
    no widget gets the empty id. *)
Theorem dispatch_preserves_wf s e : wf s → enabled s e → wf (dispatch s e).
Proof.
  intros Hwf Hen. destruct e as [layout| | |itemId|value]; simpl in Hen.
  - by apply wf_LayoutChange.
  - by apply wf_AddClick.
  - by apply wf_RemoveClick.
  - by apply wf_WidgetClick.
  - by apply wf_ColumnsChange.
Qed.

Lemma dispatch_preserves_wf_witness : wf (dispatch initial (WidgetClick "a")).
Proof.
  apply (dispatch_preserves_wf initial (WidgetClick "a")); [apply wf_initial|].
  compute_done.
Defined.

(** C9: ids stay pairwise distinct and the ids still to be handed out
    stay unused, for every enabled event, provided "Add Widget" is not
    clicked with the counter stuck at [2^53]. *)
Theorem dispatch_preserves_ids_fresh s e :
  wf s → ids_fresh s → enabled s e →
  (e = AddClick → newCounter s ≠ Num MAX_SAFE) →
  ids_fresh (dispatch s e).
Proof. intros Hwf Hfr Hen Hmax. by apply ids_fresh_dispatch. Qed.

Lemma dispatch_preserves_ids_fresh_witness : ids_fresh (dispatch initial AddClick).
Proof.
  apply (dispatch_preserves_ids_fresh initial AddClick);
    [apply wf_initial|apply ids_fresh_initial|done|].
  intros _. by_eval.
Defined.

(** C5: "Add Widget" in a render with [c] columns, counter [n] below
    [2^53] and at most [2^52] items: the item [new-n] is appended at
    [x = (2 * length) mod c] with [y = Infinity] and size 2 by 2, the
    counter becomes [n + 1], columns and selection are unchanged. *)
Theorem AddClick_spec s c n :
  columns s = Num c → (0 < c)%Z →
  newCounter s = Num n → (0 ≤ n < MAX_SAFE)%Z →
  (Z.of_nat (length (items s)) ≤ 2 ^ (prec - 1))%Z →
  dispatch s AddClick
  = {| items := items s
         ++ [ {| i := "new-" +:+ decimal n;
                 x := Num ((2 * Z.of_nat (length (items s))) `mod` c);
                 y := Infinity; w := Num 2; h := Num 2 |} ];
       columns := Num c;
       newCounter := Num (n + 1);
       selectedItemId := selectedItemId s |}.
Proof.
  intros Hc Hpos Hn Hlt Hlen. rewrite dispatch_AddClick.
  pose proof (x_newItem s c Hc Hpos Hlen) as Hx.
  unfold newItem, newItemId in *. cbn [x] in Hx.
  rewrite Hx, Hc, Hn, Number_toString_nat, number_add_safe by safe_lia. done.
Qed.

Lemma AddClick_spec_witness :
  dispatch initial AddClick
  = {| items := initialItems
         ++ [ {| i := "new-" +:+ decimal 0; x := Num ((2 * Z.of_nat 2) `mod` 10);
                 y := Infinity; w := Num 2; h := Num 2 |} ];
       columns := Num 10; newCounter := Num (0 + 1); selectedItemId := None |}.
Proof. apply (AddClick_spec initial 10 0); by_eval. Defined.

(** C6: "Remove Selected" in a well-formed render with widget [k]
    selected: every item with id [k] is removed and nothing else, the
    selection becomes null, the button is disabled afterwards, and [k] is
    no longer the id of a widget. *)
Theorem RemoveClick_spec s k :
  wf s → selectedItemId s = Some k →
  dispatch s RemoveClick
  = {| items := filter (λ item, i item ≠ k) (items s);
       columns := columns s;
       newCounter := newCounter s;
       selectedItemId := None |}
  ∧ (k ∉ ids (items (dispatch s RemoveClick)))
  ∧ removeDisabled (dispatch s RemoveClick) = true.
Proof.
  intros Hwf Hsel.
  assert (k ≠ "") as Hne.
  { intros ->. destruct Hwf as [_ _ _ Hin Hno]. by apply Hin in Hsel. }
  split; [by apply dispatch_RemoveClick_selected|].
  by destruct (dispatch_RemoveClick_gone s k Hsel Hne) as (? & _ & ?).
Qed.

Lemma RemoveClick_spec_witness :
  let s := dispatch initial (WidgetClick "b") in
  dispatch s RemoveClick
  = {| items := filter (λ item, i item ≠ "b") (items s);
       columns := columns s; newCounter := newCounter s; selectedItemId := None |}
  ∧ ("b" ∉ ids (items (dispatch s RemoveClick)))
  ∧ removeDisabled (dispatch s RemoveClick) = true.
Proof.
  apply (RemoveClick_spec (dispatch initial (WidgetClick "b")) "b"); [|done].
  apply wf_WidgetClick; [apply wf_initial|compute_done].
Defined.

(** C7: a change of the "Columns" field sets the column count to the
    Number value of the integer the text starts with when that integer is
    above zero, and changes nothing otherwise: no digits, zero or a
    negative integer leave every hook as it was. *)
Theorem ColumnsChange_spec s value :
  dispatch s (ColumnsChange value)
  = {| items := items s;
       columns :=
         match StringToMathInt value with
         | Some z => if bool_decide (0 < z)%Z then to_double z else columns s
         | None => columns s
         end;
       newCounter := newCounter s;
       selectedItemId := selectedItemId s |}.
Proof.
  destruct (dispatch_ColumnsChange_frame s value) as (Hi & Hn & Hsel).
  pose proof (columns_ColumnsChange s value) as Hc.
  destruct (dispatch s (ColumnsChange value)). simpl in *. by subst.
Qed.

(** The strings the specification lists are rejected by the
    "Columns" field, and "5" is accepted. *)
Theorem ColumnsChange_inputs s :
  Forall (λ value, dispatch s (ColumnsChange value) = s) ["0"; "-3"; "abc"; ""]
  ∧ columns (dispatch s (ColumnsChange "5")) = Num 5.
Proof.
  split; [|done]. repeat apply Forall_cons_2; [..|done]; by destruct s.
Qed.

(** The ids "Add Widget" builds from distinct safe counters are
    distinct, and none of them is empty. *)
Theorem newItemId_injective a b :
  (Z.abs a ≤ MAX_SAFE)%Z → (Z.abs b ≤ MAX_SAFE)%Z →
  newItemId (Num a) = newItemId (Num b) → a = b ∧ newItemId (Num a) ≠ "".
Proof.
  intros Ha Hb Heq. split; [by apply newItemId_inj|apply newItemId_nonempty].
Qed.

Lemma newItemId_injective_witness : 3%Z = 3%Z ∧ newItemId (Num 3) ≠ "".
Proof. apply (newItemId_injective 3 3); by_eval. Defined.

(** C33: the operations of the store applied twice.  Clicking the same
    widget twice: the selection ends null unless the widget was selected
    before the two clicks, and then it is selected again; the items, the
    columns and the counter do not move.  Removing an id twice is removing
    it once, removing an id that no item has changes nothing, and removal
    alone never touches the selection. *)
Theorem toggle_and_removal_twice s itemId :
  run s [WidgetClick itemId; WidgetClick itemId]
  = {| items := items s;
       columns := columns s;
       newCounter := newCounter s;
       selectedItemId :=
         if decide (selectedItemId s = Some itemId) then Some itemId else None |}
  ∧ commit (onRemoveItem itemId) (commit (onRemoveItem itemId) s)
    = commit (onRemoveItem itemId) s
  ∧ (itemId ∉ ids (items s) → commit (onRemoveItem itemId) s = s)
  ∧ selectedItemId (commit (onRemoveItem itemId) s) = selectedItemId s.
Proof.
  split_and!; [|apply onRemoveItem_idem|apply onRemoveItem_absent|done].
  unfold run. cbn [foldl]. rewrite !dispatch_WidgetClick. simpl.
  f_equal. by case_tests.
Qed.

(** Events whose handlers read nothing from their render may be
    handled in one render: the result is the one of handling them one
    render after the other. *)
Theorem batch_closure_free s es :
  Forall (λ e, closure_free e = true) es → dispatch_batch s es = run s es.
Proof. apply dispatch_batch_closure_free. Qed.

Lemma batch_closure_free_witness :
  dispatch_batch initial [WidgetClick "a"; ColumnsChange "12"; WidgetClick "b"]
  = run initial [WidgetClick "a"; ColumnsChange "12"; WidgetClick "b"].
Proof. apply (batch_closure_free initial). by repeat constructor. Defined.

(** C11: "Add Widget" is not safe to handle twice in one render: both
    calls see the same [items] and [newCounter], so one item is added and
    the counter advances by one, and a removal queued before it in the
    same render is undone. *)
Theorem batch_AddClick_stale s :
  dispatch_batch s [AddClick; AddClick] = dispatch s AddClick
  ∧ items (dispatch_batch s [RemoveClick; AddClick]) = items s ++ [newItem s].
Proof. split; [done|apply dispatch_batch_remove_add]. Qed.

(** The render after a batch of setter calls, computed with one
    queue per hook, is the state obtained by applying the calls one by one
    in call order. *)
Theorem commit_sequential cs1 cs2 s :
  commit cs1 s = foldl apply_call s cs1
  ∧ commit (cs1 ++ cs2) s = commit cs2 (commit cs1 s).
Proof. split; [apply commit_foldl|apply commit_app]. Qed.

(** With an even, positive column count a new item lies inside the
    columns: [0 <= x] and [x + w <= columns] for its width 2. *)
Theorem newItem_within_even_columns s c :
  columns s = Num c → (0 < c)%Z → Z.even c = true →
  (Z.of_nat (length (items s)) ≤ 2 ^ (prec - 1))%Z →
  ∃ x0, x (newItem s) = Num x0 ∧ w (newItem s) = Num 2 ∧ (0 ≤ x0 ∧ x0 + 2 ≤ c)%Z.
Proof.
  intros Hc Hpos Hev Hlen.
  destruct (newItem_fits_even s c Hc Hpos Hev Hlen) as (x0 & Hx & Hb).
  by exists x0.
Qed.

Lemma newItem_within_even_columns_witness :
  ∃ x0, x (newItem initial) = Num x0 ∧ w (newItem initial) = Num 2
        ∧ (0 ≤ x0 ∧ x0 + 2 ≤ 10)%Z.
Proof. apply (newItem_within_even_columns initial 10); by_eval. Defined.

(** C39: in a well-formed render the "Remove Selected" button is disabled
    exactly when the selection is null: the truthiness test of the source
    and the null test of the specification agree. *)
Theorem removeDisabled_iff_null s :
  wf s → removeDisabled s = true ↔ selectedItemId s = None.
Proof. apply removeDisabled_wf. Qed.

Lemma removeDisabled_iff_null_witness :
  removeDisabled initial = true ↔ selectedItemId initial = None.
Proof. apply (removeDisabled_iff_null initial), wf_initial. Defined.

(** C40: the component hands the grid items that do not fit its columns.
    The second item of the first render spans the columns 6 to 11 of ten.
    An item "Add Widget" creates is two columns wide and starts at a
    column below the column count; it lies inside the columns exactly when
    the column count does not divide [2 * length + 1], so with an odd
    count it sticks out by one column every time the number of items
    reaches such a value, and with one column always. *)
Theorem items_outside_columns :
  ¬ Forall (λ it, in_bounds (columns initial) it = true) (items initial)
  ∧ ∀ s c,
      columns s = Num c → (0 < c)%Z →
      (Z.of_nat (length (items s)) ≤ 2 ^ (prec - 1))%Z →
      ∃ x0, x (newItem s) = Num x0 ∧ w (newItem s) = Num 2 ∧ (0 ≤ x0 < c)%Z
            ∧ ((x0 + 2 ≤ c)%Z ↔ ¬ (c | 2 * Z.of_nat (length (items s)) + 1)%Z).
Proof. split; [by intros ?%initial_b_out_of_bounds|apply newItem_fits_iff]. Qed.
