(* ===== verification/Callbacks.v ===== *)
(** The memoised handlers of [App].  Four handlers of [src/src/App.tsx]
    are wrapped in [useCallback]: [onLayoutChange] (lines 31-35),
    [onRemoveItem] (lines 54-56) and [handleSelectWidget] (lines 58-60) with
    an empty dependency array, [onAddItem] (lines 37-52) with the array
    [[items, columns, newCounter]].  The tree of a render holds the
    memoised handlers, which may have been created in an earlier render and
    then see the values of that render.  This file adds the memoised
    handlers to the state of the component and shows that, with these
    dependency arrays, the handler the tree holds makes the setter calls of
    the handler created in the current render, which is what [App.handle]
    models. *)

From S2P Require Import Prelude JSNumber JSString Hooks Layout App.

(** ** Dependencies *)

(** Line 52: the dependency array of [onAddItem]. *)
Definition onAddItem_deps (r : State) : list Layout * number * number :=
  (items r, columns r, newCounter r).

(** [onAddItem] as a function of the values of its dependency array. *)
Definition onAddItem_of (d : list Layout * number * number) : list SetterCall :=
  onAddItem {| items := d.1.1; columns := d.1.2; newCounter := d.2;
               selectedItemId := None |}.

(** The four memoised handlers of one render. *)
Record Callbacks : Type := mkCallbacks {
  onLayoutChange_memo : Memo unit (list Layout → list SetterCall);
  onAddItem_memo : Memo (list Layout * number * number) (list SetterCall);
  onRemoveItem_memo : Memo unit (string → list SetterCall);
  handleSelectWidget_memo : Memo unit (string → list SetterCall);
}.

(** The component between two events: the values of the state hooks and
    the memoised handlers of the last render. *)
Record Fiber : Type := mkFiber {
  hooks : State;
  callbacks : Callbacks;
}.

(** Every memoised handler is the handler of the source applied to the
    dependencies it is kept with. *)
Definition callbacks_ok (c : Callbacks) : Prop :=
  memo_fn (onLayoutChange_memo c) = onLayoutChange
  ∧ memo_fn (onAddItem_memo c) = onAddItem_of (memo_deps (onAddItem_memo c))
  ∧ memo_fn (onRemoveItem_memo c) = onRemoveItem
  ∧ memo_fn (handleSelectWidget_memo c) = handleSelectWidget.

(** The memoised handlers are up to date with the state hooks. *)
Definition fiber_ok (f : Fiber) : Prop :=
  callbacks_ok (callbacks f)
  ∧ memo_deps (onAddItem_memo (callbacks f)) = onAddItem_deps (hooks f).

Section callbacks.

(** [Object.is] on the arrays held in [items]: the identity of the array
    objects, which the model does not track.  Arrays are never updated in
    place, so the same object has the same elements. *)
Context (same_array : list Layout → list Layout → bool).

(** The comparison of two dependency arrays of [onAddItem], element by
    element. *)
Definition same_deps (d d' : list Layout * number * number) : bool :=
  same_array d.1.1 d'.1.1 && bool_decide (d.1.2 = d'.1.2) && bool_decide (d.2 = d'.2).

(** Lines 31-60: the [useCallback] calls of a render with hook values [r],
    [prev] being the memoised handlers of the render before, if any. *)
Definition useCallbacks (prev : option Callbacks) (r : State) : Callbacks :=
  {| onLayoutChange_memo :=
       useCallback (λ _ _, true) (onLayoutChange_memo <$> prev) onLayoutChange ();
     onAddItem_memo :=
       useCallback same_deps (onAddItem_memo <$> prev) (onAddItem r) (onAddItem_deps r);
     onRemoveItem_memo :=
       useCallback (λ _ _, true) (onRemoveItem_memo <$> prev) onRemoveItem ();
     handleSelectWidget_memo :=
       useCallback (λ _ _, true) (handleSelectWidget_memo <$> prev)
         handleSelectWidget () |}.

(** The first render. *)
Definition mount : Fiber :=
  {| hooks := initial; callbacks := useCallbacks None initial |}.

(** The setter calls of an event, made by the handlers the tree holds:
    the memoised ones, the inline handler of "Remove Selected" (lines
    93-98), which is created in every render and calls the memoised
    [onRemoveItem], and [handleColumnsChange], which is not memoised. *)
Definition handle_memo (f : Fiber) (e : Event) : list SetterCall :=
  match e with
  | LayoutChange layout => memo_fn (onLayoutChange_memo (callbacks f)) layout
  | AddClick => memo_fn (onAddItem_memo (callbacks f))
  | RemoveClick =>
      match selectedItemId (hooks f) with
      | Some itemId =>
          if truthy (Some itemId)
          then memo_fn (onRemoveItem_memo (callbacks f)) itemId
                 ++ [ setSelectedItemId (Value None) ]
          else []
      | None => []
      end
  | WidgetClick itemId => memo_fn (handleSelectWidget_memo (callbacks f)) itemId
  | ColumnsChange value => handleColumnsChange value
  end.

(** An event and the render that follows it. *)
Definition rerender (f : Fiber) (e : Event) : Fiber :=
  let s' := commit (handle_memo f e) (hooks f) in
  {| hooks := s'; callbacks := useCallbacks (Some (callbacks f)) s' |}.

Definition run_memo (es : list Event) : Fiber := foldl rerender mount es.

(** ** The dependency arrays are complete *)

Context (same_array_eq : ∀ a b, same_array a b = true → a = b).

Lemma same_deps_eq d d' : same_deps d d' = true → d = d'.
Proof.
  destruct d as [[a c] n], d' as [[a' c'] n']. unfold same_deps. simpl.
  rewrite !andb_true_iff, !bool_decide_eq_true.
  intros [[Ha ->] ->]. by rewrite (same_array_eq _ _ Ha).
Qed.

(** [onAddItem] reads nothing but its dependencies. *)
Lemma onAddItem_deps_complete r : onAddItem r = onAddItem_of (onAddItem_deps r).
Proof. done. Qed.

Lemma useCallbacks_ok prev r :
  (∀ c, prev = Some c → callbacks_ok c) →
  fiber_ok (mkFiber r (useCallbacks prev r)).
Proof.
  intros Hprev. split; [|apply (useCallback_deps _ same_deps_eq)].
  split_and!; simpl.
  - destruct prev as [c|]; [|done]. apply (Hprev c eq_refl).
  - rewrite onAddItem_deps_complete. apply useCallback_ok.
    intros m Hm. destruct prev as [c|]; simplify_eq/=. apply (Hprev c eq_refl).
  - destruct prev as [c|]; [|done]. apply (Hprev c eq_refl).
  - destruct prev as [c|]; [|done]. apply (Hprev c eq_refl).
Qed.

Lemma mount_ok : fiber_ok mount.
Proof. by apply useCallbacks_ok. Qed.

(** The handlers the tree holds make the calls of the handlers of the
    current render. *)
Lemma handle_memo_handle f e : fiber_ok f → handle_memo f e = handle (hooks f) e.
Proof.
  intros [(Hl & Ha & Hr & Hs) Hd]. destruct e; simpl.
  - by rewrite Hl.
  - by rewrite Ha, Hd.
  - unfold onRemoveSelectedClick. by rewrite Hr.
  - by rewrite Hs.
  - done.
Qed.

Lemma rerender_ok f e : fiber_ok f → fiber_ok (rerender f e).
Proof. intros [Hc _]. apply useCallbacks_ok. by intros c [= <-]. Qed.

Lemma hooks_rerender f e : fiber_ok f → hooks (rerender f e) = dispatch (hooks f) e.
Proof. intros Hf. unfold rerender, dispatch. simpl. by rewrite handle_memo_handle. Qed.

Lemma run_memo_snoc es e : run_memo (es ++ [e]) = rerender (run_memo es) e.
Proof. unfold run_memo. by rewrite foldl_snoc. Qed.

Lemma run_memo_ok es : fiber_ok (run_memo es) ∧ hooks (run_memo es) = run initial es.
Proof.
  induction es as [|e es [IHok IH]] using rev_ind; [split; [apply mount_ok|done]|].
  rewrite run_memo_snoc. split; [by apply rerender_ok|].
  rewrite hooks_rerender by done. unfold run. by rewrite foldl_snoc, IH.
Qed.

(** The handlers with an empty dependency array are created once. *)
Lemma empty_deps_stable f e :
  onLayoutChange_memo (callbacks (rerender f e)) = onLayoutChange_memo (callbacks f)
  ∧ onRemoveItem_memo (callbacks (rerender f e)) = onRemoveItem_memo (callbacks f)
  ∧ handleSelectWidget_memo (callbacks (rerender f e))
    = handleSelectWidget_memo (callbacks f).
Proof. done. Qed.

(** * Properties *)

(** C12: the dependency arrays of the memoised handlers are complete:
    after any sequence of events, the state hooks are the ones [run]
    computes with handlers created afresh in every render, and every
    handler the tree holds makes the setter calls of the fresh handler. *)
Theorem memoised_handlers_fresh es e :
  hooks (run_memo es) = run initial es
  ∧ handle_memo (run_memo es) e = handle (run initial es) e.
Proof.
  destruct (run_memo_ok es) as [Hok Hh]. split; [done|].
  by rewrite handle_memo_handle, Hh.
Qed.
End callbacks.

(** Structural equality is a sound reading of [Object.is] on arrays. *)
Lemma structural_same_eq (a b : list Layout) : bool_decide (a = b) = true → a = b.
Proof. apply bool_decide_eq_true. Qed.

Lemma memoised_handlers_fresh_witness :
  let same := λ a b : list Layout, bool_decide (a = b) in
  let es := [AddClick; WidgetClick "new-0"; RemoveClick] in
  hooks (run_memo same es) = run initial es
  ∧ handle_memo (run_memo same es) AddClick = handle (run initial es) AddClick.
Proof.
  apply (memoised_handlers_fresh (λ a b, bool_decide (a = b)) structural_same_eq
           [AddClick; WidgetClick "new-0"; RemoveClick] AddClick).
Defined.
