(* ===== verification/Renderer.v ===== *)
(** The grid component and the view as a transition system.

    [GridLayout] (lines 109-124 of [src/src/App.tsx]) belongs to
    react-grid-layout.  The component gives it [items] and [columns] and
    takes back whatever it passes to [onLayoutChange].  [GridContract] is
    what the component relies on: the reported array has one item for each
    widget it was given, in the same order, and every item lies inside
    the columns.  [step] is one event of the view under such a grid, and
    the theorems are the invariants of the states that sequences of steps
    reach from the first render. *)

From S2P Require Import Prelude JSNumber JSString Hooks Layout App.

#[local] Open Scope Z_scope.

(** ** The contract of the grid *)

(** [reports cols its layout]: rendered with [cols] columns and the items
    [its], the grid may call [onLayoutChange layout]. *)
Class GridContract (reports : number → list Layout → list Layout → Prop) : Prop := {
  reports_ids cols its layout :
    reports cols its layout → ids layout = ids its;
  reports_bounds cols its layout :
    reports cols its layout → Forall (λ it, in_bounds cols it = true) layout;
}.

(** The most permissive grid: it may report any array that meets the
    contract. *)
Definition any_grid (cols : number) (its layout : list Layout) : Prop :=
  ids layout = ids its ∧ Forall (λ it, in_bounds cols it = true) layout.

(** ** A layout that meets the contract *)

(** The first row below every item with a finite [y] and [h]. *)
Definition bottom (its : list Layout) : Z :=
  foldr (λ it b, match y it, h it with
                 | Num y, Num h => Z.max b (y + h)
                 | _, _ => b
                 end) 0 its.

(** An item moved and cut to lie inside [cols] columns: a width between
    1 and [cols], [x] between 0 and [cols - w], a height of at least 1,
    [y] at least 0, and the row [below] for an item without a finite
    [y], as [onAddItem] creates them. *)
Definition fit (cols : number) (below : Z) (it : Layout) : Layout :=
  let w' := match w it, cols with
            | Num w, Num c => Z.max 1 (Z.min c w)
            | Num w, _ => Z.max 1 w
            | _, _ => 1
            end in
  let x' := match x it, cols with
            | Num x, Num c => Z.max 0 (Z.min (c - w') x)
            | Num x, _ => Z.max 0 x
            | _, _ => 0
            end in
  let y' := match y it with Num y => Z.max 0 y | _ => below end in
  let h' := match h it with Num h => Z.max 1 h | _ => 1 end in
  mkLayout (i it) (Num x') (Num y') (Num w') (Num h').

Definition fitted (cols : number) (its : list Layout) : list Layout :=
  fit cols (bottom its) <$> its.

(** The first render with item [b] moved inside the ten columns, as a
    grid with vertical compaction reports it. *)
Definition initial_compacted : list Layout :=
  [ {| i := "a"; x := Num 0; y := Num 0; w := Num 6; h := Num 4 |};
    {| i := "b"; x := Num 4; y := Num 4; w := Num 6; h := Num 4 |} ].

(** The number of "Add Widget" clicks among the events. *)
Definition adds (es : list Event) : nat :=
  length (filter (λ e, e = AddClick) es).

(** The ids the component has handed out after [c] clicks on "Add
    Widget": those of the first render, then [new-0] to [new-(c-1)]. *)
Definition issued_ids (c : nat) : list string :=
  ids initialItems ++ ((λ k : nat, newItemId (Num (Z.of_nat k))) <$> seq 0 c).

(** The clicks that remove the widget [k]: a click on it unless it is
    selected already, then "Remove Selected". *)
Definition remove_clicks (s : State) (k : string) : list Event :=
  if decide (selectedItemId s = Some k) then [RemoveClick]
  else [WidgetClick k; RemoveClick].

Section view.
Context (reports : number → list Layout → list Layout → Prop).

(** One event of the view and the render that follows it. *)
Inductive step : State → Event → State → Prop :=
  | step_layout s layout :
      reports (columns s) (items s) layout →
      step s (LayoutChange layout) (dispatch s (LayoutChange layout))
  | step_add s :
      step s AddClick (dispatch s AddClick)
  | step_remove s :
      removeDisabled s = false →
      step s RemoveClick (dispatch s RemoveClick)
  | step_widget s itemId :
      itemId ∈ ids (items s) →
      step s (WidgetClick itemId) (dispatch s (WidgetClick itemId))
  | step_columns s value :
      step s (ColumnsChange value) (dispatch s (ColumnsChange value)).

(** A sequence of events, each handled in the render the previous one
    produced. *)
Inductive steps : State → list Event → State → Prop :=
  | steps_nil s : steps s [] s
  | steps_cons s e s' es s'' :
      step s e s' → steps s' es s'' → steps s (e :: es) s''.

Definition reachable (s : State) : Prop := ∃ es, steps initial es s.

Context `{!GridContract reports}.

(** ** Steps are dispatches of enabled events *)

Lemma step_dispatch s e s' : step s e s' → s' = dispatch s e.
Proof. by intros []. Qed.

Lemma step_enabled s e s' : step s e s' → enabled s e.
Proof. intros []; simpl; eauto using reports_ids. Qed.

Lemma steps_run s es s' : steps s es s' → s' = run s es.
Proof.
  induction 1 as [|s e s' es s'' Hstep _ IH]; [done|].
  apply step_dispatch in Hstep as ->. by rewrite IH.
Qed.

Lemma steps_app s es1 s' es2 s'' :
  steps s es1 s' → steps s' es2 s'' → steps s (es1 ++ es2) s''.
Proof. induction 1; simpl; eauto using steps. Qed.

Lemma steps_snoc s es s' e s'' :
  steps s es s' → step s' e s'' → steps s (es ++ [e]) s''.
Proof. intros Hes He. eapply steps_app; eauto using steps. Qed.

(** ** Invariants of steps *)

Lemma step_wf s e s' : wf s → step s e s' → wf s'.
Proof.
  intros Hwf Hstep. rewrite (step_dispatch _ _ _ Hstep).
  eauto using wf_dispatch, step_enabled.
Qed.

Lemma steps_wf s es s' : wf s → steps s es s' → wf s'.
Proof. intros Hwf Hes. induction Hes; eauto using step_wf. Qed.

Lemma reachable_wf_steps s : reachable s → wf s.
Proof. intros [es Hes]. eauto using steps_wf, wf_initial. Qed.

(** What the grid reports lies inside the columns. *)
Lemma step_layout_bounds s layout s' :
  step s (LayoutChange layout) s' →
  Forall (λ it, in_bounds (columns s') it = true) (items s').
Proof.
  inversion 1; subst. rewrite dispatch_LayoutChange. simpl.
  by eapply reports_bounds.
Qed.

(** The counter moves only on "Add Widget", by one. *)
Lemma step_newCounter_other s e s' :
  step s e s' → adds [e] = 0%nat → newCounter s' = newCounter s.
Proof.
  intros Hstep He. destruct Hstep; try done.
  - unfold dispatch, handle, onRemoveSelectedClick. by case_tests.
  - by rewrite (proj1 (proj2 (dispatch_ColumnsChange_frame _ _))).
Qed.

Lemma step_newCounter s e s' c :
  step s e s' → newCounter s = Num c → 0 ≤ c < MAX_SAFE →
  newCounter s' = Num (c + Z.of_nat (adds [e])).
Proof.
  intros Hstep Hc Hlt. destruct (decide (adds [e] = 0%nat)) as [He|He].
  - rewrite (step_newCounter_other _ _ _ Hstep He), He, Hc. f_equal. lia.
  - destruct Hstep; try done. cbn. rewrite Hc. apply number_add_safe. safe_lia.
Qed.

Lemma step_newCounter_le s e s' c :
  step s e s' → newCounter s = Num c → 0 ≤ c →
  c + Z.of_nat (adds [e]) ≤ MAX_SAFE →
  newCounter s' = Num (c + Z.of_nat (adds [e])).
Proof.
  intros Hstep Hc H0 Hle. destruct (decide (adds [e] = 0%nat)) as [He|He].
  - rewrite (step_newCounter_other _ _ _ Hstep He), He, Hc. f_equal. lia.
  - apply (step_newCounter s); [done..|lia].
Qed.

Lemma adds_cons e es : adds (e :: es) = (adds [e] + adds es)%nat.
Proof. unfold adds. rewrite !filter_cons, filter_nil. by case_decide. Qed.

Lemma steps_newCounter s es s' c :
  steps s es s' → newCounter s = Num c → 0 ≤ c →
  c + Z.of_nat (adds es) ≤ MAX_SAFE →
  newCounter s' = Num (c + Z.of_nat (adds es)).
Proof.
  intros Hes. revert c. induction Hes as [|s e s' es s'' Hstep _ IH]; intros c Hc H0 Hle.
  { by rewrite Z.add_0_r. }
  rewrite adds_cons in Hle |- *.
  eapply step_newCounter_le in Hstep as Hc'; [|done|lia..].
  rewrite (IH _ Hc') by lia. f_equal. lia.
Qed.

(** Distinct ids, as long as the counter has not run out of safe
    integers. *)
Lemma step_ids_fresh s e s' c :
  wf s → ids_fresh s → step s e s' → newCounter s = Num c → c < MAX_SAFE →
  ids_fresh s'.
Proof.
  intros Hwf Hfr Hstep Hc Hlt. rewrite (step_dispatch _ _ _ Hstep).
  apply ids_fresh_dispatch; eauto using step_enabled.
  intros _. rewrite Hc. intros [= ->]. lia.
Qed.

Lemma steps_ids_fresh s es s' c :
  wf s → ids_fresh s → steps s es s' → newCounter s = Num c → 0 ≤ c →
  c + Z.of_nat (adds es) ≤ MAX_SAFE →
  ids_fresh s'.
Proof.
  intros Hwf Hfr Hes. revert c Hwf Hfr.
  induction Hes as [|s e s' es s'' Hstep Hes IH]; intros c Hwf Hfr Hc H0 Hle; [done|].
  rewrite adds_cons in Hle.
  assert (c < MAX_SAFE ∨ (adds [e] = 0%nat ∧ adds es = 0%nat)) as [Hlt|[He Hes0]] by lia.
  - eapply (IH (c + Z.of_nat (adds [e]))); eauto using step_wf, step_ids_fresh.
    + eapply step_newCounter; eauto.
    + lia.
    + lia.
  - eapply (IH c); eauto using step_wf; [| |lia].
    + rewrite (step_dispatch _ _ _ Hstep). apply ids_fresh_dispatch; eauto using step_enabled.
      intros ->. by vm_compute in He.
    + by rewrite (step_newCounter_other _ _ _ Hstep He).
Qed.

(** ** The order of the ids *)

Lemma issued_ids_S c :
  issued_ids (S c) = issued_ids c ++ [newItemId (Num (Z.of_nat c))].
Proof. unfold issued_ids. by rewrite seq_S, fmap_app, app_assoc. Qed.

(** What a step does to the ids: "Add Widget" appends the id of the
    counter, "Remove Selected" leaves a sublist, every other event leaves
    them as they are. *)
Lemma step_ids s e s' :
  step s e s' →
  match e with
  | AddClick => ids (items s') = ids (items s) ++ [newItemId (newCounter s)]
  | RemoveClick => ids (items s') `sublist_of` ids (items s)
  | _ => ids (items s') = ids (items s)
  end.
Proof.
  intros Hstep. destruct Hstep as [s layout Hl|s|s Hdis|s itemId Hin|s value].
  - by eapply reports_ids.
  - rewrite dispatch_AddClick. apply ids_snoc.
  - apply removeDisabled_false in Hdis as (k & Hsel & Hk).
    rewrite (dispatch_RemoveClick_selected s k Hsel Hk). simpl.
    rewrite ids_remove. apply sublist_filter.
  - by rewrite dispatch_WidgetClick.
  - by rewrite (proj1 (dispatch_ColumnsChange_frame _ _)).
Qed.

Lemma step_issued s e s' c :
  step s e s' → newCounter s = Num (Z.of_nat c) →
  (ids (items s) `sublist_of` issued_ids c →
   ids (items s') `sublist_of` issued_ids (c + adds [e]))
  ∧ (e ≠ RemoveClick → ids (items s) = issued_ids c →
     ids (items s') = issued_ids (c + adds [e])).
Proof.
  intros Hstep Hc. apply step_ids in Hstep.
  destruct e; rewrite ?Nat.add_0_r; simpl in *; rewrite ?Hstep;
    try (split; [done|congruence]).
  - change (adds [AddClick]) with 1%nat. rewrite Nat.add_1_r, issued_ids_S, Hc.
    split; [intros; by apply sublist_app|by intros _ ->].
  - split; [by intros; etrans|done].
Qed.

Lemma steps_issued s es s' c :
  steps s es s' → newCounter s = Num (Z.of_nat c) →
  Z.of_nat (c + adds es) ≤ MAX_SAFE →
  (ids (items s) `sublist_of` issued_ids c →
   ids (items s') `sublist_of` issued_ids (c + adds es))
  ∧ (RemoveClick ∉ es → ids (items s) = issued_ids c →
     ids (items s') = issued_ids (c + adds es)).
Proof.
  intros Hes. revert c.
  induction Hes as [|s e s' es s'' Hstep _ IH]; intros c Hc Hle.
  { by rewrite Nat.add_0_r. }
  rewrite adds_cons, Nat.add_assoc in Hle |- *.
  destruct (step_issued _ _ _ c Hstep Hc) as [Hsub Heq].
  eapply step_newCounter_le in Hstep; [|done|lia..].
  rewrite <-Nat2Z.inj_add in Hstep. destruct (IH _ Hstep Hle) as [IHsub IHeq].
  split; [by auto|]. intros [Hne Hnin]%not_elem_of_cons Hs. by auto.
Qed.

(** ** The contract can be met *)

Lemma bottom_nonneg its : 0 ≤ bottom its.
Proof. induction its as [|it its IH]; simpl; [done|]. case_tests; lia. Qed.

Lemma fit_in_bounds cols below it :
  (cols >ⱼ Num 0)%js = true → 0 ≤ below → in_bounds cols (fit cols below it) = true.
Proof.
  intros Hc Hb. unfold in_bounds, fit. simpl.
  destruct cols as [|c| |]; try done; simpl in Hc; rewrite ?bool_decide_eq_true in Hc;
    rewrite andb_true_iff, ?bool_decide_eq_true; (split; [|try done]); case_tests; lia.
Qed.

(** An item inside the columns stays as it is. *)
Lemma fit_id cols below it : in_bounds cols it = true → fit cols below it = it.
Proof.
  unfold in_bounds, fit. destruct it as [k [|x| |] [|y| |] [|w| |] [|h| |]]; try done.
  simpl. rewrite andb_true_iff, bool_decide_eq_true. intros [Hb Hc].
  destruct cols as [|c| |]; try done; [apply bool_decide_eq_true in Hc|];
    repeat f_equal; lia.
Qed.

Lemma ids_fitted cols its : ids (fitted cols its) = ids its.
Proof. unfold ids, fitted. rewrite <-list_fmap_compose. by apply list_fmap_ext. Qed.

Lemma fitted_in_bounds cols its :
  (cols >ⱼ Num 0)%js = true →
  Forall (λ it, in_bounds cols it = true) (fitted cols its).
Proof.
  intros Hc. apply Forall_fmap, Forall_forall. intros it _.
  apply fit_in_bounds; [done|apply bottom_nonneg].
Qed.

Lemma fitted_id cols its :
  Forall (λ it, in_bounds cols it = true) its → fitted cols its = its.
Proof.
  intros Hall. unfold fitted. trans (id <$> its); [|apply list_fmap_id].
  apply Forall_fmap_ext, Forall_forall. intros it Hin. apply fit_id.
  by eapply Forall_forall in Hall.
Qed.

(** ** Removing a widget *)

Lemma remove_clicks_run s k :
  k ≠ "" →
  run s (remove_clicks s k)
  = mkState (filter (λ it, i it ≠ k) (items s)) (columns s) (newCounter s) None.
Proof.
  intros Hk. unfold remove_clicks, run. case_decide as Hsel; cbn [foldl].
  - by apply dispatch_RemoveClick_selected.
  - rewrite dispatch_WidgetClick, decide_False by done.
    by rewrite (dispatch_RemoveClick_selected _ k).
Qed.

Lemma remove_clicks_steps s k :
  k ≠ "" → k ∈ ids (items s) →
  steps s (remove_clicks s k) (run s (remove_clicks s k)).
Proof.
  intros Hk Hin. unfold remove_clicks, run. case_decide as Hsel; cbn [foldl].
  - eapply steps_cons; [|apply steps_nil]. apply step_remove.
    apply removeDisabled_false. by exists k.
  - eapply steps_cons; [by apply step_widget|].
    eapply steps_cons; [|apply steps_nil]. apply step_remove.
    apply removeDisabled_false. exists k. by rewrite dispatch_WidgetClick, decide_False.
Qed.
(** * Properties *)

(** C10: every render reachable from the first one, by any sequence of
    events the view and a grid that meets the contract can produce, is
    well-formed. *)
Theorem reachable_wf s : reachable s → wf s.
Proof.
  intros [es Hes]. eapply steps_wf; [apply wf_initial|exact Hes].
Qed.

(** C2: along every sequence of events from the first render with at
    most [2^53] clicks on "Add Widget", the counter is the number of those
    clicks, the ids of the widgets are pairwise distinct whatever was
    removed in between, and the ids the counter has yet to reach are not in
    use. *)
Theorem added_ids_distinct es s :
  steps initial es s → Z.of_nat (adds es) ≤ MAX_SAFE →
  newCounter s = Num (Z.of_nat (adds es))
  ∧ NoDup (ids (items s))
  ∧ ∀ n, Z.of_nat (adds es) ≤ n ≤ MAX_SAFE → newItemId (Num n) ∉ ids (items s).
Proof.
  intros Hes Hle.
  pose proof (steps_newCounter initial es s 0 Hes eq_refl ltac:(done) Hle) as Hc.
  destruct (steps_ids_fresh initial es s 0 wf_initial ids_fresh_initial Hes eq_refl
              ltac:(done) Hle) as [Hnd Hfr].
  split_and!; [done|done|]. intros n Hn. by eapply Hfr.
Qed.

(** After the grid has reported, the items are the reported ones:
    the same widgets in the same order, each inside the columns, with
    columns, counter and selection as before. *)
Theorem grid_report_in_bounds s layout s' :
  step s (LayoutChange layout) s' →
  s' = mkState layout (columns s) (newCounter s) (selectedItemId s)
  ∧ ids (items s') = ids (items s)
  ∧ Forall (λ it, in_bounds (columns s') it = true) (items s').
Proof.
  intros Hstep. split_and!; [| |by eapply step_layout_bounds].
  - by inversion Hstep.
  - inversion Hstep; subst. simpl. by eapply reports_ids.
Qed.

(** C23: the ids follow the counter.  Along every sequence of events from
    the first render with at most [2^53] clicks on "Add Widget", the ids of
    the widgets are, in order, ids of the list [a], [b], [new-0], ...,
    [new-(c-1)] for the [c] clicks so far, whatever was removed in between;
    without a removal they are exactly that list. *)
Theorem added_ids_in_order es s :
  steps initial es s → Z.of_nat (adds es) ≤ MAX_SAFE →
  ids (items s) `sublist_of` issued_ids (adds es)
  ∧ (RemoveClick ∉ es → ids (items s) = issued_ids (adds es)).
Proof.
  intros Hes Hle.
  destruct (steps_issued initial es s 0 Hes eq_refl Hle) as [Hsub Heq].
  split; [by apply Hsub|]. intros Hno. by apply Heq.
Qed.

(** C24: every widget can be removed.  In a well-formed render, for every
    widget [k] the one or two clicks of [remove_clicks] are steps of the
    view, and they lead to the render without the items of id [k], with no
    selection, the columns and the counter as before. *)
Theorem widget_removable s k :
  wf s → k ∈ ids (items s) →
  steps s (remove_clicks s k) (run s (remove_clicks s k))
  ∧ run s (remove_clicks s k)
    = mkState (filter (λ it, i it ≠ k) (items s)) (columns s) (newCounter s) None
  ∧ (k ∉ ids (items (run s (remove_clicks s k)))).
Proof.
  intros Hwf Hin.
  assert (k ≠ "") as Hk by (intros ->; by apply (wf_nonempty s Hwf)).
  split_and!; [by apply remove_clicks_steps|by apply remove_clicks_run|].
  rewrite remove_clicks_run by done. simpl. rewrite elem_of_ids_remove. tauto.
Qed.
End view.

(** ** The permissive grid meets the contract *)

#[export] Instance any_grid_contract : GridContract any_grid.
Proof. split; by intros cols its layout []. Qed.

Lemma step_initial_compacted :
  step any_grid initial (LayoutChange initial_compacted)
    (dispatch initial (LayoutChange initial_compacted)).
Proof. apply step_layout. split; [done|]. repeat constructor. Qed.

Lemma reachable_wf_witness :
  wf (dispatch initial (LayoutChange initial_compacted)).
Proof.
  apply (reachable_wf any_grid). exists [LayoutChange initial_compacted].
  eapply steps_cons; [apply step_initial_compacted|apply steps_nil].
Defined.

Lemma added_ids_distinct_witness :
  let s := run initial [AddClick; WidgetClick "new-0"; RemoveClick; AddClick] in
  newCounter s = Num 2 ∧ NoDup (ids (items s))
  ∧ ∀ n, 2 ≤ n ≤ MAX_SAFE → newItemId (Num n) ∉ ids (items s).
Proof.
  apply (added_ids_distinct any_grid
           [AddClick; WidgetClick "new-0"; RemoveClick; AddClick]); [|by_eval].
  eapply steps_cons; [apply step_add|].
  eapply steps_cons; [apply step_widget; compute_done|].
  eapply steps_cons; [by apply step_remove|].
  eapply steps_cons; [apply step_add|]. apply steps_nil.
Defined.

Lemma grid_report_in_bounds_witness :
  let s' := dispatch initial (LayoutChange initial_compacted) in
  s' = mkState initial_compacted (columns initial) (newCounter initial)
         (selectedItemId initial)
  ∧ ids (items s') = ids (items initial)
  ∧ Forall (λ it, in_bounds (columns s') it = true) (items s').
Proof.
  apply (grid_report_in_bounds any_grid initial initial_compacted),
    step_initial_compacted.
Defined.

(** The grid can always report.  In every well-formed render there
    is a layout that meets the contract of the grid: the items moved and
    cut to lie inside the columns, the widgets without a finite [y] in the
    row below the others.  Reporting it is a step of the dashboard, after
    which every item lies inside the columns; items that lie inside
    already are reported as they are. *)
Theorem grid_can_report s :
  wf s →
  step any_grid s (LayoutChange (fitted (columns s) (items s)))
    (dispatch s (LayoutChange (fitted (columns s) (items s))))
  ∧ Forall (λ it, in_bounds (columns s) it = true) (fitted (columns s) (items s))
  ∧ (Forall (λ it, in_bounds (columns s) it = true) (items s) →
     fitted (columns s) (items s) = items s).
Proof.
  intros Hwf. pose proof (fitted_in_bounds _ (items s) (wf_columns s Hwf)) as Hb.
  split_and!; [|done|apply fitted_id].
  apply step_layout. split; [apply ids_fitted|done].
Qed.

Lemma grid_can_report_witness :
  let s := dispatch initial AddClick in
  step any_grid s (LayoutChange (fitted (columns s) (items s)))
    (dispatch s (LayoutChange (fitted (columns s) (items s))))
  ∧ Forall (λ it, in_bounds (columns s) it = true) (fitted (columns s) (items s))
  ∧ (Forall (λ it, in_bounds (columns s) it = true) (items s) →
     fitted (columns s) (items s) = items s).
Proof. apply (grid_can_report (dispatch initial AddClick)), wf_AddClick, wf_initial. Defined.

(** The first render and one added widget, as the fitted layout reports
    them: [b] moved left to end at column 10, [new-0] in row 4. *)
Example fitted_after_add :
  fitted (Num 10) (items (dispatch initial AddClick))
  = [ {| i := "a"; x := Num 0; y := Num 0; w := Num 6; h := Num 4 |};
      {| i := "b"; x := Num 4; y := Num 0; w := Num 6; h := Num 4 |};
      {| i := "new-0"; x := Num 4; y := Num 4; w := Num 2; h := Num 2 |} ].
Proof. by_eval. Qed.

Lemma added_ids_in_order_witness :
  let es := [AddClick; AddClick; WidgetClick "new-0"; RemoveClick; AddClick] in
  ids (items (run initial es)) `sublist_of` issued_ids 3
  ∧ (RemoveClick ∉ es → ids (items (run initial es)) = issued_ids 3).
Proof.
  apply (added_ids_in_order any_grid
           [AddClick; AddClick; WidgetClick "new-0"; RemoveClick; AddClick]); [|by_eval].
  eapply steps_cons; [apply step_add|].
  eapply steps_cons; [apply step_add|].
  eapply steps_cons; [apply step_widget; compute_done|].
  eapply steps_cons; [by apply step_remove|].
  eapply steps_cons; [apply step_add|]. apply steps_nil.
Defined.

Lemma widget_removable_witness :
  steps any_grid initial (remove_clicks initial "b") (run initial (remove_clicks initial "b"))
  ∧ run initial (remove_clicks initial "b")
    = mkState (filter (λ it, i it ≠ "b") (items initial)) (columns initial)
        (newCounter initial) None
  ∧ ("b" ∉ ids (items (run initial (remove_clicks initial "b")))).
Proof.
  apply (widget_removable any_grid initial "b"); [apply wf_initial|compute_done].
Defined.
