(* ===== verification/Grid.v ===== *)
(** A reference grid: items cut to fit, gestures, compaction, reports.

    react-grid-layout is not part of the repository; this file models the
    grid the specification describes (section 4.3).  It shows
    [grid_layout]: the items cut to fit the columns ([Renderer.fitted])
    and compacted ([Compact.compact]).  A [Gesture] is a drag, which moves
    an item, or a resize, which changes its width and height;
    [grid_report] is the layout the grid passes to [onLayoutChange], with
    or without a gesture, and [reference_grid] is the grid as an instance
    of [GridContract].  [report] is the render after the grid has
    reported.  The theorems show what the dashboard shows under this
    grid: after a report no two widgets collide and a second report
    changes nothing, an added widget comes to rest below the widgets it
    shares a column with while the others stay where they are, a gesture
    inside the columns is reported as made, and every run under this grid
    is a run under the contract. *)

From S2P Require Import Prelude JSNumber JSString Hooks Layout Compact App Renderer.

#[local] Open Scope Z_scope.

(** ** Gestures and reports *)

(** What the pointer can do to the item at position [k] of the array: drop
    it at column [x'] and row [y'], or give it the width [w'] and the
    height [h']. *)
Inductive Gesture : Type :=
  | Drag (k : nat) (x' y' : Z)
  | Resize (k : nat) (w' h' : Z).

Definition moved (x' y' : Z) (it : Layout) : Layout :=
  {| i := i it; x := Num x'; y := Num y'; w := w it; h := h it |}.

Definition resized (w' h' : Z) (it : Layout) : Layout :=
  {| i := i it; x := x it; y := y it; w := Num w'; h := Num h' |}.

Definition target (g : Gesture) : nat :=
  match g with Drag k _ _ | Resize k _ _ => k end.

Definition change (g : Gesture) : Layout → Layout :=
  match g with
  | Drag _ x' y' => moved x' y'
  | Resize _ w' h' => resized w' h'
  end.

(** The array after a gesture; a gesture on a position the array does not
    have changes nothing. *)
Definition gesture (g : Gesture) (l : list Layout) : list Layout :=
  alter (change g) (target g) l.

(** The layout the grid shows for the props it is given: every item
    inside the columns, then compacted. *)
Definition grid_layout (cols : number) (its : list Layout) : list Layout :=
  compact (fitted cols its).

(** What the grid passes to [onLayoutChange]: the layout it shows for
    its props, or that layout after a gesture. *)
Definition grid_report (cols : number) (its : list Layout) (g : option Gesture) :
    list Layout :=
  match g with
  | None => grid_layout cols its
  | Some g => grid_layout cols (gesture g (grid_layout cols its))
  end.

(** The grid reports while it has a positive number of columns. *)
Definition reference_grid (cols : number) (its layout : list Layout) : Prop :=
  (cols >ⱼ Num 0)%js = true ∧ ∃ g, layout = grid_report cols its g.

(** The render after the grid has reported the layout it shows for the
    props of a render, and the first such render. *)
Definition report (s : State) : State :=
  dispatch s (LayoutChange (grid_layout (columns s) (items s))).

Definition first_report : State := report initial.

(** ** The reference grid *)

Lemma ids_gesture g l : ids (gesture g l) = ids l.
Proof.
  unfold gesture, ids. rewrite (list_fmap_alter _ _ id); [by apply list_alter_id|].
  apply Forall_true. by destruct g.
Qed.

Lemma ids_grid_layout cols its : ids (grid_layout cols its) = ids its.
Proof. unfold grid_layout. by rewrite ids_compact, ids_fitted. Qed.

Lemma ids_grid_report cols its g : ids (grid_report cols its g) = ids its.
Proof. destruct g; simpl; by rewrite !ids_grid_layout, ?ids_gesture, ?ids_grid_layout. Qed.

Lemma grid_layout_tidy cols its :
  (cols >ⱼ Num 0)%js = true → tidy cols (grid_layout cols its).
Proof. intros Hc. by apply compact_tidy, fitted_in_bounds. Qed.

Lemma grid_report_tidy cols its g :
  (cols >ⱼ Num 0)%js = true → tidy cols (grid_report cols its g).
Proof. destruct g; by apply grid_layout_tidy. Qed.

Lemma grid_layout_id cols its : tidy cols its → grid_layout cols its = its.
Proof.
  intros Htidy. unfold grid_layout.
  rewrite (fitted_id cols its) by apply (tidy_bounds _ _ Htidy). by eapply compact_tidy_id.
Qed.

(** ** Widths *)

(** The grid cuts an item to the columns and never widens it. *)
Lemma zw_fit c below it z :
  in_bounds c it = true → 0 < z → zw (fit (Num z) below it) = Z.min z (zw it).
Proof.
  unfold in_bounds, fit, zw. destruct (x it); try done. destruct (y it); try done.
  destruct (w it); try done. destruct (h it); try done. simpl.
  intros [?%bool_decide_eq_true _]%andb_prop ?. lia.
Qed.

Lemma widths_grid_layout c l z :
  Forall (λ it, in_bounds c it = true) l → 0 < z →
  widths (grid_layout (Num z) l) = Z.min z <$> widths l.
Proof.
  intros Hall Hz. unfold grid_layout. rewrite widths_compact.
  unfold widths, fitted. rewrite <-!list_fmap_compose.
  apply Forall_fmap_ext. eapply Forall_impl; [done|]. intros it Hit.
  cbv [compose]. by apply (zw_fit c).
Qed.

Lemma widths_le c l :
  Forall (λ it, in_bounds (Num c) it = true) l → Forall (λ w, w ≤ c) (widths l).
Proof.
  intros Hall. apply Forall_fmap. eapply Forall_impl; [done|]. intros it. simpl.
  unfold in_bounds, zw. destruct (x it); try done. destruct (y it); try done.
  destruct (w it); try done. destruct (h it); try done.
  intros [?%bool_decide_eq_true ?%bool_decide_eq_true]%andb_prop. lia.
Qed.

Lemma bottom_snoc its new : y new = PosInf → bottom (its ++ [new]) = bottom its.
Proof. intros Hy. unfold bottom. rewrite foldr_app. simpl. by rewrite Hy. Qed.

Lemma bottom_ge cols its p :
  p ∈ its → in_bounds cols p = true → zy p + zh p ≤ bottom its.
Proof.
  intros Hin Hb. unfold in_bounds, zy, zh in *.
  induction Hin as [p its|p q its Hin IH]; simpl.
  - destruct (x p), (y p), (w p), (h p); try done. lia.
  - specialize (IH Hb). destruct (y q), (h q); lia.
Qed.

Lemma fitted_snoc cols its new :
  y new = PosInf →
  fitted cols (its ++ [new]) = fitted cols its ++ [fit cols (bottom its) new].
Proof. intros Hy. unfold fitted. by rewrite fmap_app, bottom_snoc. Qed.

#[export] Instance reference_grid_contract : GridContract reference_grid.
Proof.
  split; intros cols its layout [Hc [g ->]].
  - apply ids_grid_report.
  - by apply (tidy_bounds _ _ (grid_report_tidy cols its g Hc)).
Qed.

Section runs.
Context (grid grid' : number → list Layout → list Layout → Prop).
Context (Hsub : ∀ cols its layout, grid cols its layout → grid' cols its layout).

Lemma step_mono s e s' : step grid s e s' → step grid' s e s'.
Proof. destruct 1; constructor; auto. Qed.

Lemma steps_mono s es s' : steps grid s es s' → steps grid' s es s'.
Proof. induction 1; econstructor; eauto using step_mono. Qed.
End runs.

Lemma reference_any cols its layout :
  reference_grid cols its layout → any_grid cols its layout.
Proof. intros Hr. split; [by eapply reports_ids|by eapply reports_bounds]. Qed.

(** The layout shown for items inside the columns has the items in
    their columns and sizes. *)
Lemma grid_layout_lookup cols its k it :
  its !! k = Some it → in_bounds cols it = true →
  ∃ it', grid_layout cols its !! k = Some it' ∧ same_shape it it'.
Proof.
  intros Hit Hb.
  assert (fitted cols its !! k = Some it) as Hfit.
  { unfold fitted. rewrite list_lookup_fmap, Hit. simpl. by rewrite fit_id. }
  destruct (Forall2_lookup_l _ _ _ _ _ (compact_shape (fitted cols its)) Hfit)
    as (it' & ? & ?).
  by exists it'.
Qed.

Lemma reference_first_report :
  step reference_grid initial (LayoutChange (items first_report)) first_report.
Proof. apply step_layout. split; [done|]. by exists None. Qed.

Lemma wf_first_report : wf first_report.
Proof. apply (wf_LayoutChange _ _ wf_initial), ids_grid_layout. Qed.

Lemma tidy_first_report : tidy (columns first_report) (items first_report).
Proof. exact (grid_layout_tidy (Num 10) initialItems eq_refl). Qed.

(** The layout the grid shows after a click on "Add Widget". *)
Lemma grid_layout_AddClick s :
  tidy (columns s) (items s) →
  grid_layout (columns s) (items (dispatch s AddClick))
  = items s ++ [place (items s) (fit (columns s) (bottom (items s)) (newItem s))].
Proof.
  intros Htidy. rewrite dispatch_AddClick. unfold grid_layout. simpl.
  rewrite fitted_snoc by done.
  rewrite (fitted_id (columns s) (items s)) by apply (tidy_bounds _ _ Htidy).
  apply (compact_snoc (columns s)); [done|]. intros p Hp. simpl.
  pose proof (Hp) as Hb. eapply Forall_forall in Hb; [|apply (tidy_bounds _ _ Htidy)].
  pose proof (bottom_ge _ _ _ Hp Hb). apply in_bounds_coords in Hb.
  unfold zy at 2. simpl. lia.
Qed.

(** ** Reports *)

Lemma report_step s :
  (columns s >ⱼ Num 0)%js = true →
  step reference_grid s (LayoutChange (grid_layout (columns s) (items s))) (report s).
Proof. intros Hc. apply step_layout. split; [done|]. by exists None. Qed.

Lemma report_tidy s :
  (columns s >ⱼ Num 0)%js = true → tidy (columns (report s)) (items (report s)).
Proof. intros Hc. unfold report. rewrite dispatch_LayoutChange. by apply grid_layout_tidy. Qed.

(** The grid has nothing to report for a tidy layout. *)
Lemma report_id s : tidy (columns s) (items s) → report s = s.
Proof.
  intros Htidy. unfold report. rewrite dispatch_LayoutChange, grid_layout_id by done.
  by destruct s.
Qed.

(** * Properties *)

(** C13: what the dashboard shows after a report of the reference grid.
    The items are tidy, no two widgets collide, the widgets are the ones
    of the render before, and the layout the grid shows for the new props
    is the one it reported: the exchange of props and reports comes to
    rest after one report. *)
Theorem report_tidy_stable s layout s' :
  step reference_grid s (LayoutChange layout) s' →
  tidy (columns s') (items s')
  ∧ (∀ a b, a ∈ items s' → b ∈ items s' → collides a b = false)
  ∧ ids (items s') = ids (items s)
  ∧ grid_layout (columns s') (items s') = items s'.
Proof.
  inversion 1 as [? ? [Hc [g ->]]| | | |]; subst. rewrite dispatch_LayoutChange. simpl.
  pose proof (grid_report_tidy (columns s) (items s) g Hc) as Htidy.
  split_and!; [done| |apply ids_grid_report|by apply grid_layout_id].
  intros a b. apply apart_collides, (tidy_apart _ _ Htidy).
Qed.

Lemma report_tidy_stable_witness :
  let s' := first_report in
  tidy (columns s') (items s')
  ∧ (∀ a b, a ∈ items s' → b ∈ items s' → collides a b = false)
  ∧ ids (items s') = ids (items initial)
  ∧ grid_layout (columns s') (items s') = items s'.
Proof.
  apply (report_tidy_stable initial (items first_report) first_report),
    reference_first_report.
Defined.

(** C14: where an added widget lands.  When the items are tidy, as after
    a report of the grid, the layout the grid shows after a click on "Add
    Widget" has the items of before where they were, and after them the
    new item, cut to fit the columns, in the first row below the items
    it shares a column with. *)
Theorem added_widget_lands s :
  tidy (columns s) (items s) →
  grid_layout (columns s) (items (dispatch s AddClick))
  = items s ++ [place (items s) (fit (columns s) (bottom (items s)) (newItem s))].
Proof. apply grid_layout_AddClick. Qed.

Lemma added_widget_lands_witness :
  let s := first_report in
  grid_layout (columns s) (items (dispatch s AddClick))
  = items s ++ [place (items s) (fit (columns s) (bottom (items s)) (newItem s))].
Proof. apply (added_widget_lands first_report), tidy_first_report. Defined.

(** The scenario of the specification under the reference grid: [b] is
    moved inside the ten columns and below [a], and the added widget
    [new-0] lands in column 4 below [b]. *)
Example added_widget_scenario :
  grid_layout (Num 10) (items (dispatch first_report AddClick))
  = [ {| i := "a"; x := Num 0; y := Num 0; w := Num 6; h := Num 4 |};
      {| i := "b"; x := Num 4; y := Num 4; w := Num 6; h := Num 4 |};
      {| i := "new-0"; x := Num 4; y := Num 8; w := Num 2; h := Num 2 |} ].
Proof. by_eval. Qed.

(** C28: a gesture takes effect.  When the items are tidy and the item a
    gesture is applied to lies inside the columns after the change, the
    grid reports it with the column and the size the gesture gave it;
    compaction decides its row. *)
Theorem gesture_takes_effect cols its g it :
  tidy cols its → its !! target g = Some it →
  in_bounds cols (change g it) = true →
  ∃ it', grid_report cols its (Some g) !! target g = Some it'
         ∧ same_shape (change g it) it'.
Proof.
  intros Htidy Hit Hb. simpl. rewrite (grid_layout_id cols its Htidy).
  apply grid_layout_lookup; [|done].
  unfold gesture. by rewrite list_lookup_alter_eq, Hit.
Qed.

Lemma gesture_takes_effect_witness :
  ∃ it', grid_report (Num 10) (items first_report) (Some (Resize 0 3 2)) !! 0%nat = Some it'
         ∧ same_shape (resized 3 2 (initialItems !!! 0%nat)) it'.
Proof.
  apply (gesture_takes_effect (Num 10) (items first_report) (Resize 0 3 2)
           (initialItems !!! 0%nat)); [apply tidy_first_report|done..].
Defined.

(** Dragging [a] to the right of the grid and below [b]: [b] moves up to
    row 0 and [a], moved left to fit the columns, comes to rest below it. *)
Example drag_scenario :
  grid_report (Num 10) (items first_report) (Some (Drag 0 7 30))
  = [ {| i := "a"; x := Num 4; y := Num 4; w := Num 6; h := Num 4 |};
      {| i := "b"; x := Num 4; y := Num 0; w := Num 6; h := Num 4 |} ].
Proof. by_eval. Qed.

(** The reference grid is a grid of the contract.  Every sequence of
    events of the dashboard under the reference grid is a sequence of
    events under the most liberal grid of the contract, it computes the
    state [run] gives, and that state is well formed. *)
Theorem reference_grid_refines es s :
  steps reference_grid initial es s →
  steps any_grid initial es s ∧ s = run initial es ∧ wf s.
Proof.
  intros Hes. split_and!.
  - eapply steps_mono; [apply reference_any|done].
  - by eapply steps_run.
  - eapply steps_wf; [apply _|apply wf_initial|done].
Qed.

Lemma reference_grid_refines_witness :
  let es := [LayoutChange (items first_report); AddClick] in
  steps any_grid initial es (run initial es)
  ∧ run initial es = run initial es ∧ wf (run initial es).
Proof.
  apply (reference_grid_refines [LayoutChange (items first_report); AddClick]).
  eapply steps_cons; [apply reference_first_report|].
  eapply steps_cons; [apply step_add|apply steps_nil].
Defined.

