(* ===== verification/Spec.v ===== *)
(** The store of the specification and its refinement by the component.

    [spec] is the data model and the operations of the dashboard as the
    specification states them: integers, a counter that never wraps, an
    item list, one optional selection.  [abs] reads a render of the
    component as a store of the specification, [abs_event] an event as an
    operation, and the refinement theorem says that handling the event in
    the component is performing the operation on the store, on the range
    where JavaScript numbers are exact. *)

From S2P Require Import Prelude JSNumber JSString Hooks Layout App.

#[local] Open Scope Z_scope.

(** ** The store of the specification *)

Module spec.

(** [y = None] is "below all existing content". *)
Record LayoutItem : Type := mkItem {
  id : string;
  x : Z;
  y : option Z;
  w : Z;
  h : Z;
}.

Record DashboardState : Type := mkDashboard {
  items : list LayoutItem;
  columns : Z;
  nextCounter : nat;
  selectedId : option string;
}.

(** The change applies only to a parsed value above zero. *)
Definition setColumns (n : option Z) (d : DashboardState) : DashboardState :=
  match n with
  | Some n =>
      if bool_decide (0 < n)
      then mkDashboard (items d) n (nextCounter d) (selectedId d)
      else d
  | None => d
  end.

Definition replaceLayout (newItems : list LayoutItem) (d : DashboardState)
    : DashboardState :=
  mkDashboard newItems (columns d) (nextCounter d) (selectedId d).

Definition addItem (d : DashboardState) : DashboardState :=
  let item :=
    {| id := "new-" +:+ decimal (Z.of_nat (nextCounter d));
       x := (Z.of_nat (length (items d)) * 2) `mod` columns d;
       y := None;
       w := 2;
       h := 2 |} in
  mkDashboard (items d ++ [item]) (columns d) (S (nextCounter d)) (selectedId d).

Definition removeItem (k : string) (d : DashboardState) : DashboardState :=
  mkDashboard (filter (λ it, id it ≠ k) (items d)) (columns d) (nextCounter d)
    (selectedId d).

Definition toggleSelect (k : string) (d : DashboardState) : DashboardState :=
  mkDashboard (items d) (columns d) (nextCounter d)
    (if decide (selectedId d = Some k) then None else Some k).

Definition clearSelectionIfRemoved (removedId : string) (d : DashboardState)
    : DashboardState :=
  mkDashboard (items d) (columns d) (nextCounter d)
    (if decide (selectedId d = Some removedId) then None else selectedId d).

(** The toolbar action: enabled only with a selection. *)
Definition removeSelected (d : DashboardState) : DashboardState :=
  match selectedId d with
  | Some k => clearSelectionIfRemoved k (removeItem k d)
  | None => d
  end.

Inductive Action : Type :=
  | SetColumns (n : option Z)
  | ReplaceLayout (newItems : list LayoutItem)
  | AddItem
  | RemoveSelected
  | ToggleSelect (k : string).

Definition step (d : DashboardState) (a : Action) : DashboardState :=
  match a with
  | SetColumns n => setColumns n d
  | ReplaceLayout newItems => replaceLayout newItems d
  | AddItem => addItem d
  | RemoveSelected => removeSelected d
  | ToggleSelect k => toggleSelect k d
  end.

End spec.

(** ** Reading a render as a store *)

Definition abs_coord (n : number) : option Z :=
  match n with
  | Num z => Some z
  | _ => None
  end.

(** [Infinity] is the sentinel "below all content". *)
Definition abs_y (n : number) : option (option Z) :=
  match n with
  | Num z => Some (Some z)
  | PosInf => Some None
  | _ => None
  end.

Definition abs_item (c : Layout) : option spec.LayoutItem :=
  x0 ← abs_coord (x c);
  y0 ← abs_y (y c);
  w0 ← abs_coord (w c);
  h0 ← abs_coord (h c);
  Some (spec.mkItem (i c) x0 y0 w0 h0).

Definition abs (s : State) : option spec.DashboardState :=
  its ← mapM abs_item (items s);
  c ← abs_coord (columns s);
  n ← abs_coord (newCounter s);
  if decide (0 < c ∧ 0 ≤ n)
  then Some (spec.mkDashboard its c (Z.to_nat n) (selectedItemId s))
  else None.

Definition abs_event (e : Event) : option spec.Action :=
  match e with
  | LayoutChange layout => spec.ReplaceLayout <$> mapM abs_item layout
  | AddClick => Some spec.AddItem
  | RemoveClick => Some spec.RemoveSelected
  | WidgetClick itemId => Some (spec.ToggleSelect itemId)
  | ColumnsChange value => Some (spec.SetColumns (StringToMathInt value))
  end.

(** The range on which the numbers of the component are the integers of
    the specification, and the empty id is not selected. *)
Definition exact (s : State) (e : Event) : Prop :=
  match e with
  | AddClick =>
      (∃ n, newCounter s = Num n ∧ n < MAX_SAFE)
      ∧ Z.of_nat (length (items s)) ≤ 2 ^ (prec - 1)
  | RemoveClick => selectedItemId s ≠ Some ""
  | ColumnsChange value =>
      ∀ z, StringToMathInt value = Some z → z ≤ MAX_SAFE
  | _ => True
  end.

(** Every event of a sequence is handled in the exact range. *)
Fixpoint exact_run (s : State) (es : list Event) : Prop :=
  match es with
  | [] => True
  | e :: es => exact s e ∧ exact_run (dispatch s e) es
  end.

(** ** Abstraction of items *)

Lemma abs_item_id c a : abs_item c = Some a → spec.id a = i c.
Proof. unfold abs_item. intros. by simplify_option_eq. Qed.

Lemma abs_items_app l1 l2 a1 a2 :
  mapM abs_item l1 = Some a1 → mapM abs_item l2 = Some a2 →
  mapM abs_item (l1 ++ l2) = Some (a1 ++ a2).
Proof.
  rewrite !mapM_Some. apply Forall2_app.
Qed.

Lemma abs_items_filter k l al :
  mapM abs_item l = Some al →
  mapM abs_item (filter (λ it, i it ≠ k) l)
  = Some (filter (λ it, spec.id it ≠ k) al).
Proof.
  rewrite !mapM_Some. induction 1 as [|c a l al Hca _ IH]; [constructor|].
  rewrite !filter_cons, (abs_item_id _ _ Hca).
  case_decide; [constructor|]; done.
Qed.

Lemma abs_items_length l al : mapM abs_item l = Some al → length al = length l.
Proof. intros H. symmetry. by eapply length_mapM. Qed.

Lemma abs_Some s d :
  abs s = Some d ↔
  ∃ its c n,
    mapM abs_item (items s) = Some its ∧ columns s = Num c
    ∧ newCounter s = Num n ∧ 0 < c ∧ 0 ≤ n
    ∧ d = spec.mkDashboard its c (Z.to_nat n) (selectedItemId s).
Proof.
  unfold abs. split.
  - intros H. destruct (mapM abs_item (items s)) as [its|]; [|done].
    destruct (columns s) as [|c| |]; try done.
    destruct (newCounter s) as [|n| |]; try done. simpl in H.
    case_decide as Hcn; [|done]. destruct Hcn. simplify_eq. by eexists _, _, _.
  - intros (its & c & n & -> & -> & -> & Hc & Hn & ->). simpl.
    by rewrite decide_True.
Qed.

(** ** Each event performs its operation *)

Lemma abs_newItem s its c n :
  mapM abs_item (items s) = Some its → columns s = Num c → 0 < c →
  newCounter s = Num n → 0 ≤ n ≤ MAX_SAFE →
  Z.of_nat (length (items s)) ≤ 2 ^ (prec - 1) →
  abs_item (newItem s)
  = Some {| spec.id := "new-" +:+ decimal n;
            spec.x := (Z.of_nat (length its) * 2) `mod` c;
            spec.y := None; spec.w := 2; spec.h := 2 |}.
Proof.
  intros Hits Hc Hpos Hn Hsafe Hlen. unfold abs_item.
  rewrite (x_newItem s c), (abs_items_length _ _ Hits) by done.
  unfold newItem, newItemId. cbn [i y w h]. rewrite Hn, Number_toString_nat by done.
  simpl. do 3 f_equal. lia.
Qed.

Lemma refines_AddClick s d :
  abs s = Some d → exact s AddClick →
  abs (dispatch s AddClick) = Some (spec.addItem d).
Proof.
  intros (its & c & n & Hits & Hc & Hn & Hpos & H0 & ->)%abs_Some [(n' & Hn' & Hlt) Hlen].
  assert (n' = n) as -> by congruence.
  apply abs_Some. eexists _, c, (n + 1). rewrite dispatch_AddClick. simpl.
  split_and!; [|done| |done|lia|].
  - apply abs_items_app; [done|]. simpl. erewrite abs_newItem by (done || lia). done.
  - rewrite Hn. apply number_add_safe. safe_lia.
  - unfold spec.addItem. simpl. rewrite Z2Nat.id by done. f_equal. lia.
Qed.

Lemma refines_LayoutChange s d layout newItems :
  abs s = Some d → mapM abs_item layout = Some newItems →
  abs (dispatch s (LayoutChange layout)) = Some (spec.replaceLayout newItems d).
Proof.
  intros (its & c & n & Hits & Hc & Hn & Hpos & H0 & ->)%abs_Some Hl.
  apply abs_Some. by eexists _, c, n.
Qed.

Lemma refines_WidgetClick s d itemId :
  abs s = Some d →
  abs (dispatch s (WidgetClick itemId)) = Some (spec.toggleSelect itemId d).
Proof.
  intros (its & c & n & Hits & Hc & Hn & Hpos & H0 & ->)%abs_Some.
  apply abs_Some. eexists _, c, n. by rewrite dispatch_WidgetClick.
Qed.

Lemma refines_RemoveClick s d :
  abs s = Some d → exact s RemoveClick →
  abs (dispatch s RemoveClick) = Some (spec.removeSelected d).
Proof.
  intros (its & c & n & Hits & Hc & Hn & Hpos & H0 & ->)%abs_Some Hne. simpl in Hne.
  unfold spec.removeSelected. simpl.
  destruct (selectedItemId s) as [k|] eqn:Hsel.
  - rewrite (dispatch_RemoveClick_selected s k) by congruence.
    apply abs_Some. eexists _, c, n. simpl.
    split_and!; [by apply abs_items_filter|done..|].
    unfold spec.clearSelectionIfRemoved. simpl. by rewrite decide_True.
  - rewrite dispatch_RemoveClick_disabled by (unfold removeDisabled; by rewrite Hsel).
    apply abs_Some. eexists _, c, n. by rewrite Hsel.
Qed.

Lemma refines_ColumnsChange s d value :
  abs s = Some d → exact s (ColumnsChange value) →
  abs (dispatch s (ColumnsChange value))
  = Some (spec.setColumns (StringToMathInt value) d).
Proof.
  intros (its & c & n & Hits & Hc & Hn & Hpos & H0 & ->)%abs_Some Hex. simpl in Hex.
  destruct (dispatch_ColumnsChange_frame s value) as (Hi & Hcnt & Hsel).
  pose proof (columns_ColumnsChange s value) as Hcols.
  apply abs_Some. unfold spec.setColumns.
  destruct (StringToMathInt value) as [z|]; [|by eexists _, c, n; rewrite Hi, Hcnt, Hsel, Hcols].
  specialize (Hex z eq_refl). case_bool_decide.
  - eexists _, z, n. by rewrite Hi, Hcnt, Hsel, Hcols, to_double_exact by lia.
  - by eexists _, c, n; rewrite Hi, Hcnt, Hsel, Hcols.
Qed.

Lemma refines_dispatch s e d a :
  abs s = Some d → abs_event e = Some a → exact s e →
  abs (dispatch s e) = Some (spec.step d a).
Proof.
  intros Hd Ha Hex. destruct e; simpl in Ha; simplify_option_eq;
    eauto using refines_AddClick, refines_LayoutChange, refines_WidgetClick,
      refines_RemoveClick, refines_ColumnsChange.
Qed.

(** A sequence of events performs the sequence of its operations. *)
Lemma refines_run s es d acts :
  abs s = Some d → mapM abs_event es = Some acts → exact_run s es →
  abs (run s es) = Some (foldl spec.step d acts).
Proof.
  intros Hd Hacts. apply mapM_Some in Hacts. revert s d Hd.
  induction Hacts as [|e a es acts Ha _ IH]; intros s d Hd Hex; [done|].
  destruct Hex as [He Hes]. cbn [run foldl]. apply IH; [|done].
  by apply refines_dispatch.
Qed.

(** * Properties *)

(** C3: the component refines the store of the specification: when a
    render reads as the store [d] and an event as the operation [a], and
    the event is handled in the exact range of JavaScript numbers, the next
    render reads as the store after [a]. *)
Theorem refinement s e d a :
  abs s = Some d → abs_event e = Some a → exact s e →
  abs (dispatch s e) = Some (spec.step d a).
Proof.
  intros Hd Ha Hex. destruct e as [layout| | |itemId|value]; simpl in Ha.
  - destruct (mapM abs_item layout) as [newItems|] eqn:Hl; simplify_eq/=.
    by apply refines_LayoutChange.
  - simplify_eq. by apply refines_AddClick.
  - simplify_eq. by apply refines_RemoveClick.
  - simplify_eq. by apply refines_WidgetClick.
  - simplify_eq. by apply refines_ColumnsChange.
Qed.

Lemma refinement_witness :
  abs (dispatch initial AddClick)
  = Some (spec.step
            (spec.mkDashboard
               [spec.mkItem "a" 0 (Some 0) 6 4; spec.mkItem "b" 6 (Some 0) 6 4]
               10 0 None)
            spec.AddItem).
Proof.
  apply (refinement initial AddClick); [done|done|].
  split; [by exists 0|by_eval].
Defined.

(** The refinement extends to sequences of events: a sequence that
    stays in the exact range performs, read through [abs], the sequence of
    its operations on the store. *)
Theorem refinement_run s es d acts :
  abs s = Some d → mapM abs_event es = Some acts → exact_run s es →
  abs (run s es) = Some (foldl spec.step d acts).
Proof. apply refines_run. Qed.

Lemma refinement_run_witness :
  abs (run initial [WidgetClick "a"; RemoveClick; ColumnsChange "8"])
  = Some (foldl spec.step
            (spec.mkDashboard
               [spec.mkItem "a" 0 (Some 0) 6 4; spec.mkItem "b" 6 (Some 0) 6 4]
               10 0 None)
            [spec.ToggleSelect "a"; spec.RemoveSelected; spec.SetColumns (Some 8)]).
Proof.
  apply (refinement_run initial [WidgetClick "a"; RemoveClick; ColumnsChange "8"]
           (spec.mkDashboard
              [spec.mkItem "a" 0 (Some 0) 6 4; spec.mkItem "b" 6 (Some 0) 6 4]
              10 0 None)
           [spec.ToggleSelect "a"; spec.RemoveSelected; spec.SetColumns (Some 8)]).
  - by vm_compute.
  - by vm_compute.
  - split; [done|]. split; [by vm_compute|]. split; [|done].
    intros z Hz. vm_compute in Hz. simplify_eq. by_eval.
Defined.
