(* ===== verification/View.v ===== *)
(** The tree [App] returns (lines 69-155 of [src/src/App.tsx]), reduced to
    the props that carry state or handlers: the value of the "Columns"
    field, the two buttons with the [disabled] flag of the second, the
    props of [GridLayout], and one child per item with its key, its
    [data-grid], its click handler, whether it is drawn with the
    selection border, and the text of its label.  A handler is recorded as
    the event its call is. *)

From S2P Require Import Prelude JSNumber JSString Shortest Hooks Layout App Renderer.

#[local] Open Scope Z_scope.

(** ** The rendered tree *)

(** Lines 76-86: the text field. *)
Record TextField : Type := mkTextField {
  value : number;
  min : number;
  onChange : string → Event;
}.

(** Lines 87-103: a button; a disabled button has no click. *)
Record Button : Type := mkButton {
  disabled : bool;
  onClick : Event;
}.

(** Lines 109-119: the props of [GridLayout]. *)
Record GridProps : Type := mkGridProps {
  layout : list Layout;
  cols : number;
  gridRowHeight : number;
  width : number;
  onLayoutChangeProp : list Layout → Event;
  compactType : string;
  isBounded : bool;
  isDraggable : bool;
  isResizable : bool;
}.

(** Lines 126-151: the [div] of one item.  [label] is the text of line
    146, [None] when the upper case of the id has a code unit beyond
    255. *)
Record Widget : Type := mkWidget {
  key : string;
  data_grid : Layout;
  onWidgetClick : Event;
  selectedBorder : bool;
  label : option string;
}.

Record View : Type := mkView {
  columnsField : TextField;
  addButton : Button;
  removeButton : Button;
  grid : GridProps;
  children : list Widget;
}.

(** Lines 126-151, one iteration of [items.map]. *)
Definition renderWidget (selectedItemId : option string) (item : Layout) : Widget :=
  {| key := i item;
     data_grid := item;
     onWidgetClick := WidgetClick (i item);
     selectedBorder := strict_eq selectedItemId (i item);
     label := (λ upper, "Widget " +:+ upper) <$> toUpperCase (i item) |}.

(** Lines 69-155. *)
Definition render (s : State) : View :=
  {| columnsField :=
       {| value := columns s; min := Num 1; onChange := ColumnsChange |};
     addButton := {| disabled := false; onClick := AddClick |};
     removeButton := {| disabled := removeDisabled s; onClick := RemoveClick |};
     grid :=
       {| layout := items s;
          cols := columns s;
          gridRowHeight := rowHeight;
          width := gridWidth;
          onLayoutChangeProp := LayoutChange;
          compactType := "vertical";
          isBounded := true;
          isDraggable := true;
          isResizable := true |};
     children := renderWidget (selectedItemId s) <$> items s |}.

(** The ids of the first render and of [c] added widgets with the
    upper case a label shows for each. *)
Definition issued_labels (c : nat) : list (string * string) :=
  [("a", "A"); ("b", "B")]
  ++ ((λ k : nat, ("new-" +:+ decimal (Z.of_nat k), "NEW-" +:+ decimal (Z.of_nat k)))
      <$> seq 0 c).

(** The clicks the tree offers: those of the enabled buttons and of the
    widgets. *)
Definition clicks (v : View) : list Event :=
  (if disabled (addButton v) then [] else [onClick (addButton v)])
  ++ (if disabled (removeButton v) then [] else [onClick (removeButton v)])
  ++ (onWidgetClick <$> children v).

(** ** Keys and the selection border *)

Lemma keys_render s : key <$> children (render s) = ids (items s).
Proof. simpl. by rewrite <-list_fmap_compose. Qed.

Lemma selectedBorder_render s wd :
  wd ∈ children (render s) →
  selectedBorder wd = true ↔ selectedItemId s = Some (key wd).
Proof.
  simpl. intros (item & -> & _)%list_elem_of_fmap. simpl.
  unfold strict_eq. by rewrite bool_decide_eq_true.
Qed.

(** With distinct ids a widget is determined by its key. *)
Lemma widget_key_inj s wd1 wd2 :
  NoDup (ids (items s)) →
  wd1 ∈ children (render s) → wd2 ∈ children (render s) →
  key wd1 = key wd2 → wd1 = wd2.
Proof.
  simpl. intros Hnd (it1 & -> & Hin1)%list_elem_of_fmap (it2 & -> & Hin2)%list_elem_of_fmap Hk.
  by rewrite (NoDup_ids_inj _ _ _ Hnd Hin1 Hin2 Hk).
Qed.

(** With distinct ids at most one widget carries the border. *)
Lemma selectedBorder_unique s wd1 wd2 :
  NoDup (ids (items s)) →
  wd1 ∈ children (render s) → wd2 ∈ children (render s) →
  selectedBorder wd1 = true → selectedBorder wd2 = true → wd1 = wd2.
Proof.
  intros Hnd H1 H2 Hb1 Hb2.
  apply (selectedBorder_render s) in Hb1, Hb2; [|done..].
  apply (widget_key_inj s); [done..|congruence].
Qed.

(** A selection that names an item is drawn. *)
Lemma selectedBorder_exists s itemId :
  selectedItemId s = Some itemId → itemId ∈ ids (items s) →
  ∃ wd, wd ∈ children (render s) ∧ key wd = itemId ∧ selectedBorder wd = true.
Proof.
  intros Hsel (item & Hin & <-)%elem_of_ids.
  exists (renderWidget (selectedItemId s) item). split_and!; [|done|].
  - simpl. apply list_elem_of_fmap. eauto.
  - simpl. unfold strict_eq. by apply bool_decide_eq_true.
Qed.

(** ** The clicks of the tree are the enabled clicks *)

Lemma elem_of_clicks s e :
  e ∈ clicks (render s) ↔
  e = AddClick ∨ (e = RemoveClick ∧ removeDisabled s = false)
  ∨ ∃ itemId, e = WidgetClick itemId ∧ itemId ∈ ids (items s).
Proof.
  unfold clicks. cbn [render addButton removeButton children disabled onClick].
  rewrite !elem_of_app, list_elem_of_singleton.
  rewrite <-list_fmap_compose, list_elem_of_fmap.
  apply or_iff_compat_l. f_equiv.
  - destruct (removeDisabled s); rewrite ?elem_of_nil, ?list_elem_of_singleton;
      intuition congruence.
  - split.
    + intros (item & -> & Hin). exists (i item). split; [done|].
      apply elem_of_ids. eauto.
    + intros (itemId & -> & (item & Hin & <-)%elem_of_ids). eauto.
Qed.

Lemma clicks_enabled s e : e ∈ clicks (render s) → enabled s e.
Proof.
  rewrite elem_of_clicks. intros [->|[[-> Hd]|(itemId & -> & Hin)]]; done.
Qed.

(** ** Labels *)

Lemma toUpperCase_decimal n : 0 ≤ n → toUpperCase (decimal n) = Some (decimal n).
Proof.
  intros Hn. pattern n. apply decimal_ind; [| |done]; clear n Hn.
  - intros n Hn. rewrite decimal_digit by done. cbn [toUpperCase].
    by rewrite upper_char_digit.
  - intros n Hn IH. rewrite decimal_step, toUpperCase_app, IH by done.
    cbn [toUpperCase]. rewrite upper_char_digit; [done|].
    by apply Z.mod_pos_bound.
Qed.

(** The ids handed out are the first components of [issued_labels]. *)
Lemma issued_labels_ids c :
  Z.of_nat c ≤ MAX_SAFE → (issued_labels c).*1 = issued_ids c.
Proof.
  intros Hc. unfold issued_labels, issued_ids. rewrite fmap_app, <-list_fmap_compose.
  f_equal. apply Forall_fmap_ext, Forall_forall. intros k Hk%elem_of_seq.
  simpl. unfold newItemId. by rewrite Number_toString_nat by lia.
Qed.

Lemma issued_labels_upper c k u :
  (k, u) ∈ issued_labels c → toUpperCase k = Some u.
Proof.
  unfold issued_labels. rewrite elem_of_app, !elem_of_cons, list_elem_of_fmap.
  intros [[?|[?|?%elem_of_nil]]|(n & ? & _)]; simplify_eq; [done..|].
  rewrite toUpperCase_app, toUpperCase_decimal by lia. done.
Qed.

(** A widget whose key is among the issued ids carries the label of its
    id. *)
Lemma widget_issued s c wd :
  ids (items s) `sublist_of` (issued_labels c).*1 → wd ∈ children (render s) →
  ∃ upper, label wd = Some ("Widget " +:+ upper) ∧ (key wd, upper) ∈ issued_labels c.
Proof.
  intros Hsub (item & -> & Hin)%list_elem_of_fmap. simpl.
  assert (i item ∈ (issued_labels c).*1) as ([k u] & Hk & Hku)%list_elem_of_fmap.
  { eapply elem_of_sublist; [|done]. apply elem_of_ids. eauto. }
  simpl in Hk. subst k. exists u. by rewrite (issued_labels_upper _ _ _ Hku).
Qed.

(** The upper case tells the issued ids apart. *)
Lemma issued_labels_inj c k1 k2 u :
  (k1, u) ∈ issued_labels c → (k2, u) ∈ issued_labels c → k1 = k2.
Proof.
  unfold issued_labels. rewrite !elem_of_app, !elem_of_cons, !list_elem_of_fmap.
  intros [[?|[?|?%elem_of_nil]]|(n1 & ? & _)] [[?|[?|?%elem_of_nil]]|(n2 & ? & _)];
    simplify_eq; (done || congruence).
Qed.

(** * Properties *)

(** The widgets of the tree are keyed by the ids of the items, in
    order; with distinct ids no two widgets carry the selection border,
    and a widget carries it exactly when its key is the selection. *)
Theorem widgets_keyed s wd1 wd2 :
  NoDup (ids (items s)) →
  wd1 ∈ children (render s) → wd2 ∈ children (render s) →
  key <$> children (render s) = ids (items s)
  ∧ (selectedBorder wd1 = true ↔ selectedItemId s = Some (key wd1))
  ∧ (selectedBorder wd1 = true → selectedBorder wd2 = true → wd1 = wd2).
Proof.
  intros Hnd H1 H2. split_and!.
  - apply keys_render.
  - by apply (selectedBorder_render s).
  - by apply (selectedBorder_unique s).
Qed.

Lemma widgets_keyed_witness :
  let s := dispatch initial (WidgetClick "a") in
  let wd := renderWidget (Some "a") (mkLayout "a" (Num 0) (Num 0) (Num 6) (Num 4)) in
  key <$> children (render s) = ids (items s)
  ∧ (selectedBorder wd = true ↔ selectedItemId s = Some (key wd))
  ∧ (selectedBorder wd = true → selectedBorder wd = true → wd = wd).
Proof.
  apply (widgets_keyed (dispatch initial (WidgetClick "a")));
    [compute_done|vm_compute; constructor..].
Defined.

(** The clicks the rendered tree offers are the clicks that are
    enabled: "Add Widget" always, "Remove Selected" unless it is disabled,
    and one click per rendered widget. *)
Theorem clicks_are_enabled s e :
  e ∈ clicks (render s) ↔
  enabled s e ∧ (e = AddClick ∨ e = RemoveClick ∨ ∃ itemId, e = WidgetClick itemId).
Proof.
  rewrite elem_of_clicks. split.
  - intros [->|[[-> Hd]|(itemId & -> & Hin)]]; (split; [done|eauto]).
  - intros [Hen [->|[->|[itemId ->]]]]; eauto.
Qed.

(** The props handed to the grid are the state: [layout] is [items],
    [cols] is [columns], and the callback of the grid is
    [onLayoutChange]; the text field shows [columns]. *)
Lemma grid_props_are_state s l :
  layout (grid (render s)) = items s
  ∧ cols (grid (render s)) = columns s
  ∧ value (columnsField (render s)) = columns s
  ∧ handle s (onLayoutChangeProp (grid (render s)) l) = onLayoutChange l
  ∧ disabled (removeButton (render s)) = removeDisabled s.
Proof. done. Qed.

Section labels.
Context (reports : number → list Layout → list Layout → Prop) `{!GridContract reports}.

(** The labels of the widgets.  Along every sequence of events from
    the first render with at most [2^53] clicks on "Add Widget", every
    widget has a label: [Widget A], [Widget B] or [Widget NEW-k] for the
    widget [new-k], with the digits of [k] unchanged; and two widgets with
    the same label are the same widget. *)
Theorem widget_labels es s wd1 wd2 :
  steps reports initial es s → Z.of_nat (adds es) ≤ MAX_SAFE →
  wd1 ∈ children (render s) → wd2 ∈ children (render s) →
  (∃ upper, label wd1 = Some ("Widget " +:+ upper)
            ∧ (key wd1, upper) ∈ issued_labels (adds es))
  ∧ (label wd1 = label wd2 → wd1 = wd2).
Proof.
  intros Hes Hle H1 H2.
  destruct (steps_issued reports initial es s 0 Hes eq_refl Hle) as [Hsub _].
  specialize (Hsub ltac:(done)). rewrite <-issued_labels_ids in Hsub by done.
  destruct (widget_issued _ _ _ Hsub H1) as (u1 & Hl1 & Hin1).
  destruct (widget_issued _ _ _ Hsub H2) as (u2 & Hl2 & Hin2).
  split; [by eauto|]. rewrite Hl1, Hl2. intros Hu. simplify_eq.
  pose proof (issued_labels_inj _ _ _ _ Hin1 Hin2) as Hk.
  destruct (steps_ids_fresh reports initial es s 0 wf_initial ids_fresh_initial Hes
              eq_refl ltac:(done) Hle) as [Hnd _].
  by apply (widget_key_inj s).
Qed.
End labels.

Lemma widget_labels_witness :
  let s := dispatch initial AddClick in
  let wd := renderWidget None (newItem initial) in
  (∃ upper, label wd = Some ("Widget " +:+ upper)
            ∧ (key wd, upper) ∈ issued_labels (adds [AddClick]))
  ∧ (label wd = label wd → wd = wd).
Proof.
  apply (widget_labels any_grid [AddClick] (dispatch initial AddClick)).
  - eapply steps_cons; [apply step_add|apply steps_nil].
  - by_eval.
  - vm_compute. do 2 constructor. apply list_elem_of_here.
  - vm_compute. do 2 constructor. apply list_elem_of_here.
Defined.
