(* ===== verification/Tree.v ===== *)
(** The tree [App] returns, as a tree.

    Lines 69-155 of [src/src/App.tsx] are JSX: elements with a type, props
    and children.  [Element] is that tree, with [div] and the components
    of lines 2-10 as types ([tag.Tag]), props by name ([PropValue]: texts,
    numbers, flags, items, object literals such as [sx], handlers, and
    elements such as [startIcon]) and texts as leaves.  [render_tree] is
    the tree of a state, every element and every prop of the source in
    source order; it is [None] only when an id has no upper case among
    the code units the strings have.  [click] is what React does with a
    click on an element: the [onClick] handlers run from that element up
    to the root, except on a disabled control.  [highlights] are the
    widgets drawn with the border of the selection (line 136).  [view_of]
    reads the props of [View.v] off a tree, and [tree_view] checks that
    the two transcriptions agree.  The theorems show that a click runs at
    most one handler and only an enabled one, that the clicks of the tree
    are exactly the enabled clicks, that a click anywhere inside a widget
    toggles its selection, that every reachable state renders to a tree
    with distinct keys, and that the tree of a reachable state highlights
    the selected widget and no other. *)

From S2P Require Import Prelude JSNumber JSString Shortest Hooks Layout App Renderer View.

(** ** Elements *)

(** The element types of the tree: [div] and the components that lines
    2-10 import. *)
Module tag.
Inductive Tag : Type :=
  | div
  | GridLayout
  | Paper
  | Typography
  | Box
  | Button
  | TextField
  | AddIcon
  | DeleteIcon
  | Stack.
End tag.

#[export] Instance Tag_eq_dec : EqDecision tag.Tag.
Proof. solve_decision. Defined.

(** A function passed as a prop, as the event its call is: [onChange]
    is called with the text of the field, [onClick] with nothing the
    handlers read, [onLayoutChange] with a layout. *)
Inductive Handler : Type :=
  | ChangeHandler (f : string → Event)
  | ClickHandler (e : Event)
  | LayoutHandler (f : list Layout → Event).

(** The values of props, and the elements: a text, or a type with an
    optional key, props by name and children. *)
#[local] Unset Elimination Schemes.
Inductive PropValue : Type :=
  | VString (s : string)
  | VNumber (n : number)
  | VBool (b : bool)
  | VLayout (item : Layout)
  | VLayouts (items : list Layout)
  | VObject (fields : list (string * PropValue))
  | VHandler (h : Handler)
  | VElement (e : Element)
with Element : Type :=
  | Text (s : string)
  | Elem (type : tag.Tag) (key : option string) (props : list (string * PropValue))
      (children : list Element).
#[local] Set Elimination Schemes.

Definition key_of (e : Element) : option string :=
  match e with Elem _ key _ _ => key | Text _ => None end.

Definition props_of (e : Element) : list (string * PropValue) :=
  match e with Elem _ _ props _ => props | Text _ => [] end.

Definition children_of (e : Element) : list Element :=
  match e with Elem _ _ _ children => children | Text _ => [] end.

(** The value of a name in an object literal or in the props of an
    element. *)
Fixpoint field (name : string) (fields : list (string * PropValue)) : option PropValue :=
  match fields with
  | [] => None
  | (n, v) :: fields => if decide (n = name) then Some v else field name fields
  end.

Definition prop (name : string) (e : Element) : option PropValue :=
  field name (props_of e).

(** ** The tree of [App] *)

(** Lines 72-74. *)
Definition titleElement : Element :=
  Elem tag.Typography None [("variant", VString "h4"); ("gutterBottom", VBool true)]
    [Text "Configurable Dashboard"].

(** Lines 76-86. *)
Definition columnsElement (r : State) : Element :=
  Elem tag.TextField None
    [("label", VString "Columns");
     ("type", VString "number");
     ("value", VNumber (columns r));
     ("onChange", VHandler (ChangeHandler ColumnsChange));
     ("InputLabelProps", VObject [("shrink", VBool true)]);
     ("size", VString "small");
     ("inputProps", VObject [("min", VNumber (Num 1))])]
    [].

(** Lines 87-89. *)
Definition addElement : Element :=
  Elem tag.Button None
    [("variant", VString "contained");
     ("onClick", VHandler (ClickHandler AddClick));
     ("startIcon", VElement (Elem tag.AddIcon None [] []))]
    [Text "Add Widget"].

(** Lines 90-103; the click handler of lines 93-98 is
    [onRemoveSelectedClick], the call [RemoveClick] stands for. *)
Definition removeElement (r : State) : Element :=
  Elem tag.Button None
    [("variant", VString "outlined");
     ("color", VString "secondary");
     ("onClick", VHandler (ClickHandler RemoveClick));
     ("disabled", VBool (removeDisabled r));
     ("startIcon", VElement (Elem tag.DeleteIcon None [] []))]
    [Text "Remove Selected"].

(** Lines 71-105. *)
Definition toolbarElement (r : State) : Element :=
  Elem tag.Box None [("sx", VObject [("padding", VNumber (Num 2))])]
    [titleElement;
     Elem tag.Stack None
       [("direction", VString "row");
        ("spacing", VNumber (Num 2));
        ("sx", VObject [("marginBottom", VNumber (Num 2));
                        ("alignItems", VString "center")])]
       [columnsElement r; addElement; removeElement r]].

(** Lines 126-151, one iteration of [items.map]; [None] when the upper
    case of the id has a code unit beyond 255. *)
Definition widgetElement (selectedItemId : option string) (item : Layout) :
    option Element :=
  upper ← toUpperCase (i item);
  Some (Elem tag.div (Some (i item))
    [("data-grid", VLayout item);
     ("onClick", VHandler (ClickHandler (WidgetClick (i item))));
     ("style", VObject [("cursor", VString "pointer")])]
    [Elem tag.Paper None
       [("elevation", VNumber (Num 3));
        ("sx", VObject
           [("height", VString "100%");
            ("display", VString "flex");
            ("flexDirection", VString "column");
            ("overflow", VString "hidden");
            ("border", VString (if strict_eq selectedItemId (i item)
                                then "2px solid blue" else "none"))])]
       [Elem tag.Box None
          [("sx", VObject
              [("display", VString "flex");
               ("justifyContent", VString "center");
               ("alignItems", VString "center");
               ("flexGrow", VNumber (Num 1))])]
          [Elem tag.Typography None [("variant", VString "h6")]
             [Text "Widget "; Text upper]]]]).

(** Lines 109-152: the grid with the elements of the widgets as its
    children. *)
Definition gridElement (r : State) (widgets : list Element) : Element :=
  Elem tag.GridLayout None
    [("className", VString "layout");
     ("layout", VLayouts (items r));
     ("cols", VNumber (columns r));
     ("rowHeight", VNumber rowHeight);
     ("width", VNumber gridWidth);
     ("onLayoutChange", VHandler (LayoutHandler LayoutChange));
     ("compactType", VString "vertical");
     ("isBounded", VBool true);
     ("isDraggable", VBool true);
     ("isResizable", VBool true)]
    widgets.

(** Lines 69-155 around the widgets. *)
Definition appElement (r : State) (widgets : list Element) : Element :=
  Elem tag.div None [("className", VString "App")]
    [toolbarElement r;
     Elem tag.Box None
       [("sx", VObject [("width", VNumber gridWidth);
                        ("margin", VString "auto");
                        ("border", VString "1px dashed grey");
                        ("padding", VNumber (Num 1))])]
       [gridElement r widgets]].

(** Lines 69-155: the tree [App] returns. *)
Definition render_tree (r : State) : option Element :=
  appElement r <$> mapM (widgetElement (selectedItemId r)) (items r).

(** Lines 17-156: the function component.  A call of [App] is a render:
    the hooks return their values, from what React has kept of them, and
    the tree is built from these values. *)
Definition App (prev : option (State * list SetterCall)) : option Element :=
  render_tree (useStates prev).

(** ** Clicks *)

(** Whether an element is a disabled control. *)
Definition is_disabled (e : Element) : bool :=
  match prop "disabled" e with Some (VBool true) => true | _ => false end.

(** The click handler an element runs when a click reaches it. *)
Definition own_click (e : Element) : list Event :=
  match prop "onClick" e with
  | Some (VHandler (ClickHandler ev)) => if is_disabled e then [] else [ev]
  | _ => []
  end.

(** The element at a path of child positions. *)
Fixpoint at_path (path : list nat) (e : Element) : option Element :=
  match path with
  | [] => Some e
  | k :: path => children_of e !! k ≫= at_path path
  end.

(** A click on the element at [path]: the click handlers that run, from
    that element up to the root. *)
Fixpoint click (path : list nat) (e : Element) : option (list Event) :=
  match path with
  | [] => Some (own_click e)
  | k :: path =>
      child ← children_of e !! k;
      evs ← click path child;
      Some (evs ++ own_click e)
  end.

(** Every click handler of a tree, and the largest number of them on a
    path from the root. *)
Fixpoint clicks_of (e : Element) : list Event :=
  match e with
  | Text _ => []
  | Elem _ _ _ children => own_click e ++ (children ≫= clicks_of)
  end.

Fixpoint click_depth (e : Element) : nat :=
  match e with
  | Text _ => 0
  | Elem _ _ _ children => length (own_click e) + max_list (click_depth <$> children)
  end.

(** The text of a tree. *)
Fixpoint text_of (e : Element) : string :=
  match e with
  | Text s => s
  | Elem _ _ _ children => foldr (λ c s, text_of c +:+ s) "" children
  end.

(** Keys: among the children of an element no key occurs twice. *)
Fixpoint well_keyed (e : Element) : bool :=
  match e with
  | Text _ => true
  | Elem _ _ _ children =>
      bool_decide (NoDup (omap key_of children)) && forallb well_keyed children
  end.

(** Line 136: the border of a widget is the [border] of the [sx] of its
    [Paper]; a widget is highlighted when that border is the blue one.
    [highlights] are the keys of the highlighted children of the grid. *)
Definition border_of (w : Element) : option PropValue :=
  paper ← children_of w !! 0;
  match prop "sx" paper with
  | Some (VObject sx) => field "border" sx
  | _ => None
  end.

Definition highlighted (w : Element) : bool :=
  match border_of w with
  | Some (VString border) => bool_decide (border = "2px solid blue")
  | _ => false
  end.

Definition highlights (t : Element) : list string :=
  match at_path [1; 0] t with
  | Some g => omap key_of (filter highlighted (children_of g))
  | None => []
  end.

(** ** The props that depend on the state *)

Definition as_number (v : option PropValue) : option number :=
  match v with Some (VNumber n) => Some n | _ => None end.

Definition as_string (v : option PropValue) : option string :=
  match v with Some (VString s) => Some s | _ => None end.

Definition as_bool (v : option PropValue) : option bool :=
  match v with Some (VBool b) => Some b | _ => None end.

Definition as_layout (v : option PropValue) : option Layout :=
  match v with Some (VLayout item) => Some item | _ => None end.

Definition as_layouts (v : option PropValue) : option (list Layout) :=
  match v with Some (VLayouts l) => Some l | _ => None end.

Definition as_object (v : option PropValue) : option (list (string * PropValue)) :=
  match v with Some (VObject fields) => Some fields | _ => None end.

Definition as_change (v : option PropValue) : option (string → Event) :=
  match v with Some (VHandler (ChangeHandler f)) => Some f | _ => None end.

Definition as_click (v : option PropValue) : option Event :=
  match v with Some (VHandler (ClickHandler ev)) => Some ev | _ => None end.

Definition as_report (v : option PropValue) : option (list Layout → Event) :=
  match v with Some (VHandler (LayoutHandler f)) => Some f | _ => None end.

Definition textField_of (e : Element) : option TextField :=
  v ← as_number (prop "value" e);
  inputProps ← as_object (prop "inputProps" e);
  m ← as_number (field "min" inputProps);
  f ← as_change (prop "onChange" e);
  Some (mkTextField v m f).

Definition button_of (e : Element) : option Button :=
  ev ← as_click (prop "onClick" e);
  Some (mkButton (is_disabled e) ev).

Definition gridProps_of (e : Element) : option GridProps :=
  l ← as_layouts (prop "layout" e);
  c ← as_number (prop "cols" e);
  rh ← as_number (prop "rowHeight" e);
  wd ← as_number (prop "width" e);
  f ← as_report (prop "onLayoutChange" e);
  ct ← as_string (prop "compactType" e);
  bounded ← as_bool (prop "isBounded" e);
  draggable ← as_bool (prop "isDraggable" e);
  resizable ← as_bool (prop "isResizable" e);
  Some (mkGridProps l c rh wd f ct bounded draggable resizable).

Definition widget_of (e : Element) : option Widget :=
  k ← key_of e;
  item ← as_layout (prop "data-grid" e);
  ev ← as_click (prop "onClick" e);
  paper ← children_of e !! 0;
  sx ← as_object (prop "sx" paper);
  border ← as_string (field "border" sx);
  Some (mkWidget k item ev (bool_decide (border = "2px solid blue")) (Some (text_of e))).

(** The view of a tree of the shape [App] returns. *)
Definition view_of (t : Element) : option View :=
  tf ← at_path [0; 1; 0] t ≫= textField_of;
  add ← at_path [0; 1; 1] t ≫= button_of;
  remove ← at_path [0; 1; 2] t ≫= button_of;
  g ← at_path [1; 0] t;
  gp ← gridProps_of g;
  widgets ← mapM widget_of (children_of g);
  Some (mkView tf add remove gp widgets).

(** The tree of the first render. *)
Definition first_tree : Element := default (Text "") (render_tree initial).

(** ** Induction on the children *)

Lemma Element_children_ind (P : Element → Prop) :
  (∀ s, P (Text s)) →
  (∀ type key props children, Forall P children → P (Elem type key props children)) →
  ∀ e, P e.
Proof.
  intros HText HElem. fix IH 1. intros [s|type key props children]; [apply HText|].
  apply HElem. induction children as [|c children IHc]; constructor; [apply IH|apply IHc].
Qed.

(** ** Clicks of any tree *)

Lemma own_click_clicks_of e : own_click e ⊆ clicks_of e.
Proof.
  destruct e as [s|type key props children]; [done|].
  intros ev Hev. apply elem_of_app. by left.
Qed.

Lemma clicks_of_child e k child :
  children_of e !! k = Some child → clicks_of child ⊆ clicks_of e.
Proof.
  destruct e as [s|type key props children]; [done|]. simpl.
  intros Hk ev Hev. apply elem_of_app. right.
  apply list_elem_of_bind. exists child. split; [done|by eapply list_elem_of_lookup_2].
Qed.

Lemma click_depth_child e k child :
  children_of e !! k = Some child →
  (length (own_click e) + click_depth child ≤ click_depth e).
Proof.
  destruct e as [s|type key props children]; [done|]. simpl. intros Hk.
  apply Nat.add_le_mono_l, max_list_elem_of_le, list_elem_of_fmap.
  exists child. split; [done|by eapply list_elem_of_lookup_2].
Qed.

(** The handlers a click runs are handlers of the tree, at most as many
    as lie on one path. *)
Lemma click_clicks_of path e evs :
  click path e = Some evs → evs ⊆ clicks_of e ∧ (length evs ≤ click_depth e).
Proof.
  revert e evs. induction path as [|k path IH]; intros e evs; simpl.
  - intros [= <-]. split; [apply own_click_clicks_of|].
    destruct e; simpl; lia.
  - intros Hc. apply bind_Some in Hc as (child & Hk & Hc).
    apply bind_Some in Hc as (evs' & Hc & [= <-]).
    destruct (IH _ _ Hc) as [Hsub Hlen].
    pose proof (click_depth_child _ _ _ Hk). split.
    + intros ev [?|?]%elem_of_app; [|by apply own_click_clicks_of].
      by eapply clicks_of_child, Hsub.
    + rewrite length_app. lia.
Qed.

(** ** The widgets *)

Lemma widgetElement_Some sel item e :
  widgetElement sel item = Some e →
  key_of e = Some (i item)
  ∧ own_click e = [WidgetClick (i item)]
  ∧ clicks_of e = [WidgetClick (i item)]
  ∧ click_depth e = 1
  ∧ well_keyed e = true
  ∧ Some (text_of e) = label (renderWidget sel item).
Proof.
  unfold widgetElement. intros (upper & Hu & [= <-])%bind_Some.
  split_and!; try done. simpl. by rewrite Hu, !string_app_nil_r.
Qed.

Lemma widgets_Some sel its widgets :
  mapM (widgetElement sel) its = Some widgets →
  omap key_of widgets = ids its
  ∧ widgets ≫= clicks_of = WidgetClick <$> ids its
  ∧ (max_list (click_depth <$> widgets) ≤ 1)
  ∧ forallb well_keyed widgets = true
  ∧ Forall2 (λ e wd, Some (text_of e) = label wd) widgets (renderWidget sel <$> its).
Proof.
  intros Hws%mapM_Some. induction Hws as [|item e its ws He _ IH].
  { split_and!; try done. simpl. lia. }
  apply widgetElement_Some in He as (Hk & _ & Hc & Hd & Hw & Hl).
  destruct IH as (IHk & IHc & IHd & IHw & IHl). csimpl.
  rewrite Hk, Hc, IHc, Hd, Hw, IHw. csimpl. rewrite IHk.
  split_and!; [done..|lia|done|by constructor].
Qed.

Lemma widgets_key_of sel its widgets :
  mapM (widgetElement sel) its = Some widgets →
  key_of <$> widgets = Some <$> ids its.
Proof.
  intros Hws%mapM_Some. induction Hws as [|item e its ws He _ IH]; [done|].
  apply widgetElement_Some in He as (Hk & _). csimpl. by rewrite Hk, IH.
Qed.

(** The highlighted widgets are the widgets of the selected id. *)
Lemma highlighted_widgetElement sel item e :
  widgetElement sel item = Some e → highlighted e = strict_eq sel (i item).
Proof.
  intros (upper & _ & [= <-])%bind_Some. unfold highlighted, border_of. cbn.
  by destruct (strict_eq sel (i item)).
Qed.

Lemma widgets_highlights sel its widgets :
  mapM (widgetElement sel) its = Some widgets →
  omap key_of (filter highlighted widgets) = filter (λ k, sel = Some k) (ids its).
Proof.
  intros Hws%mapM_Some. induction Hws as [|item e its ws He _ IH]; [done|].
  pose proof (highlighted_widgetElement _ _ _ He) as Hh.
  apply widgetElement_Some in He as (Hk & _). unfold strict_eq in Hh.
  rewrite bool_decide_decide in Hh. cbn [ids fmap list_fmap].
  rewrite filter_cons, (filter_cons _ (i item)), Hh.
  destruct (decide (sel = Some (i item))); csimpl; by rewrite ?Hk, IH.
Qed.

(** ** The view of the tree *)

Lemma widget_of_widgetElement sel item e :
  widgetElement sel item = Some e → widget_of e = Some (renderWidget sel item).
Proof.
  unfold widgetElement. intros (upper & Hu & [= <-])%bind_Some.
  unfold renderWidget. rewrite Hu. cbn. rewrite !string_app_nil_r.
  do 2 f_equal. unfold strict_eq. by case_bool_decide.
Qed.

Lemma widgets_view sel its widgets :
  mapM (widgetElement sel) its = Some widgets →
  mapM widget_of widgets = Some (renderWidget sel <$> its).
Proof.
  intros Hws%mapM_Some. apply mapM_Some, Forall2_fmap_r, Forall2_flip.
  eapply Forall2_impl; [done|]. apply widget_of_widgetElement.
Qed.

Lemma render_tree_Some s t :
  render_tree s = Some t ↔
  ∃ widgets, mapM (widgetElement (selectedItemId s)) (items s) = Some widgets
             ∧ t = appElement s widgets.
Proof. unfold render_tree. rewrite fmap_Some. naive_solver. Qed.

Lemma toolbar_view s widgets :
  textField_of (columnsElement s) = Some (columnsField (render s))
  ∧ button_of addElement = Some (addButton (render s))
  ∧ button_of (removeElement s) = Some (removeButton (render s))
  ∧ gridProps_of (gridElement s widgets) = Some (grid (render s)).
Proof.
  split_and!; try reflexivity.
  cbv -[removeDisabled]. by destruct (removeDisabled s).
Qed.

Lemma view_of_appElement s widgets :
  mapM (widgetElement (selectedItemId s)) (items s) = Some widgets →
  view_of (appElement s widgets) = Some (render s).
Proof.
  intros Hws%widgets_view. destruct (toolbar_view s widgets) as (Htf & Hadd & Hrm & Hg).
  unfold view_of. cbn. by rewrite Htf, Hadd, Hrm, Hg, Hws.
Qed.

(** ** The clicks of the tree of [App] *)

Lemma toolbar_clicks s :
  clicks_of (toolbarElement s)
  = AddClick :: (if removeDisabled s then [] else [RemoveClick])
  ∧ click_depth (toolbarElement s) = 1.
Proof. split; cbv -[removeDisabled]; by destruct (removeDisabled s). Qed.

(** The wrappers of the toolbar and of the grid have no click handler. *)
Lemma appElement_clicks s widgets :
  clicks_of (appElement s widgets)
  = clicks_of (toolbarElement s) ++ (widgets ≫= clicks_of)
  ∧ click_depth (appElement s widgets)
    = click_depth (toolbarElement s) `max` max_list (click_depth <$> widgets).
Proof.
  split.
  - change (clicks_of (appElement s widgets))
      with (clicks_of (toolbarElement s) ++ (((widgets ≫= clicks_of) ++ []) ++ [])).
    by rewrite !(right_id_L [] (++)).
  - change (click_depth (appElement s widgets))
      with (click_depth (toolbarElement s)
            `max` ((max_list (click_depth <$> widgets) `max` 0) `max` 0)).
    lia.
Qed.

Lemma clicks_of_appElement s widgets :
  mapM (widgetElement (selectedItemId s)) (items s) = Some widgets →
  clicks_of (appElement s widgets) = clicks (render s)
  ∧ (click_depth (appElement s widgets) ≤ 1).
Proof.
  intros (_ & Hc & Hd & _)%widgets_Some.
  destruct (appElement_clicks s widgets) as [-> ->].
  destruct (toolbar_clicks s) as [-> ->]. rewrite Hc. split; [|lia].
  unfold clicks, ids. cbn. by rewrite <-!list_fmap_compose.
Qed.

(** The handler of the element a click enters runs last. *)
Lemma click_own_last path e evs :
  click path e = Some evs → ∃ evs', evs = evs' ++ own_click e.
Proof.
  destruct path as [|k path]; simpl.
  - intros [= <-]. by exists [].
  - intros (child & _ & (evs' & _ & [= <-])%bind_Some)%bind_Some. by exists evs'.
Qed.

(** A click anywhere inside a widget runs the handler of the widget and
    no other. *)
Lemma click_in_widget sel item e path evs :
  widgetElement sel item = Some e → click path e = Some evs →
  evs = [WidgetClick (i item)].
Proof.
  intros (_ & Hown & _ & Hd & _)%widgetElement_Some Hc.
  destruct (click_clicks_of _ _ _ Hc) as [_ Hlen].
  apply click_own_last in Hc as [evs' ->].
  rewrite Hown, length_app, Hd in Hlen. simpl in Hlen.
  by destruct evs'; [|simpl in Hlen; lia].
Qed.

(** A click below the grid is a click in one of the widgets. *)
Lemma click_appElement_widget s widgets k path :
  click (1 :: 0 :: k :: path) (appElement s widgets) = widgets !! k ≫= click path.
Proof.
  cbn -[own_click].
  destruct (widgets !! k) as [w|]; [cbn -[own_click]|done].
  destruct (click path w) as [evs|]; [cbn -[own_click]|done].
  trans (Some (((evs ++ []) ++ []) ++ [])); [done|by rewrite !(right_id_L [] (++))].
Qed.

Lemma well_keyed_appElement s widgets :
  well_keyed (appElement s widgets)
  = bool_decide (NoDup (omap key_of widgets)) && forallb well_keyed widgets.
Proof.
  change (well_keyed (appElement s widgets))
    with (true && (true && ((true && ((bool_decide (NoDup (omap key_of widgets))
            && forallb well_keyed widgets) && true)) && true))).
  by rewrite !andb_true_r.
Qed.

(** ** The states that render *)

(** The ids with an upper case. *)
Lemma render_tree_is_Some s :
  is_Some (render_tree s) ↔ Forall (λ k, is_Some (toUpperCase k)) (ids (items s)).
Proof.
  unfold render_tree, ids. rewrite fmap_is_Some, Forall_fmap. split.
  - intros [ws Hws%mapM_Some]. induction Hws as [|item e its ws He _ IH]; constructor; [|done].
    apply bind_Some in He as (upper & Hu & _). by exists upper.
  - intros Hall. apply mapM_is_Some. eapply Forall_impl; [done|].
    intros item [upper Hu]. simpl in *. unfold widgetElement. by rewrite Hu.
Qed.

Lemma issued_render_tree s c :
  ids (items s) `sublist_of` (issued_labels c).*1 → is_Some (render_tree s).
Proof.
  intros Hsub. apply render_tree_is_Some, Forall_forall. intros k Hk.
  assert (k ∈ (issued_labels c).*1) as ([k' u] & -> & Hku)%list_elem_of_fmap.
  { by eapply elem_of_sublist. }
  simpl. by rewrite (issued_labels_upper _ _ _ Hku).
Qed.

(** Every handler of the tree runs on some click. *)
Lemma clicks_of_click e ev :
  ev ∈ clicks_of e → ∃ path evs, click path e = Some evs ∧ ev ∈ evs.
Proof.
  induction e as [s|type key props children IH] using Element_children_ind; [by intros ?%elem_of_nil|].
  intros [Hown|(child & Hev & [k Hk]%list_elem_of_lookup)%list_elem_of_bind]%elem_of_app.
  - by exists [], (own_click (Elem type key props children)).
  - destruct (Forall_lookup_1 _ _ _ _ IH Hk Hev) as (path & evs & Hc & Hin).
    exists (k :: path), (evs ++ own_click (Elem type key props children)).
    simpl. rewrite Hk. simpl. rewrite Hc. split; [done|]. apply elem_of_app. by left.
Qed.

(** A click on the widget at position [k] of the grid, or inside it. *)
Lemma click_widget s t k item path evs :
  render_tree s = Some t → items s !! k = Some item →
  click (1 :: 0 :: k :: path) t = Some evs → evs = [WidgetClick (i item)].
Proof.
  intros (widgets & Hws & ->)%render_tree_Some Hitem.
  rewrite click_appElement_widget. intros (w & Hw & Hc)%bind_Some.
  apply mapM_Some in Hws.
  destruct (Forall2_lookup_l _ _ _ _ _ Hws Hitem) as (w' & Hw' & He).
  simplify_eq. by eapply click_in_widget.
Qed.

(** The clicks of the two buttons. *)
Lemma click_add s t : render_tree s = Some t → click [0; 1; 1] t = Some [AddClick].
Proof. by intros (widgets & _ & ->)%render_tree_Some. Qed.

Lemma click_remove s t :
  render_tree s = Some t →
  click [0; 1; 2] t = Some (if removeDisabled s then [] else [RemoveClick]).
Proof.
  intros (widgets & _ & ->)%render_tree_Some.
  cbv -[removeDisabled]. by destruct (removeDisabled s).
Qed.

(** The first call of [App] returns the tree of the initial values, and
    the call after an event the tree of the state [dispatch] computes. *)
Lemma App_mount : App None = render_tree initial.
Proof. done. Qed.

Lemma App_update s e : App (Some (s, handle s e)) = render_tree (dispatch s e).
Proof. done. Qed.

(** A click needs an element at its path. *)
Lemma click_at_path path t : is_Some (click path t) → is_Some (at_path path t).
Proof.
  revert t. induction path as [|k path IH]; intros t; [done|]. simpl.
  intros [evs (child & Hk & (evs' & Hc & _)%bind_Some)%bind_Some].
  rewrite Hk. simpl. by apply IH.
Qed.

(** A click runs no handler, or one handler that the view offers. *)
Lemma click_one s t path evs :
  render_tree s = Some t → click path t = Some evs →
  evs = [] ∨ ∃ ev, evs = [ev] ∧ enabled s ev ∧ ev ∈ clicks (render s).
Proof.
  intros (widgets & Hws & ->)%render_tree_Some Hc.
  destruct (clicks_of_appElement s widgets Hws) as [Hclicks Hd].
  destruct (click_clicks_of _ _ _ Hc) as [Hsub Hlen].
  assert (length evs ≤ 1) as Hone by lia.
  destruct evs as [|ev [|??]]; [by left| |simpl in Hone; lia].
  right. exists ev. assert (ev ∈ clicks (render s)) as Hev.
  { rewrite <-Hclicks. apply Hsub. by left. }
  split_and!; [done| |done]. by apply clicks_enabled.
Qed.

(** The two transcriptions of the JSX agree: the props of [render] are
    the ones [view_of] reads off the tree.  This relates [View.v] to this
    file; it says nothing of the program beyond what each of them says. *)
Lemma tree_view s t : render_tree s = Some t → view_of t = Some (render s).
Proof.
  intros (widgets & Hws & ->)%render_tree_Some. by apply view_of_appElement.
Qed.

(** * Properties *)

(** C30: a click runs at most one handler, and its event is enabled.
    Wherever the pointer clicks in the tree, no handler or one handler
    runs; the event of that handler is enabled in the state the tree
    renders, so the render after the click is well formed when the
    render before it is. *)
Theorem click_runs_enabled s t path evs :
  render_tree s = Some t → click path t = Some evs →
  length evs ≤ 1 ∧ Forall (enabled s) evs ∧ (wf s → wf (dispatch_batch s evs)).
Proof.
  intros Ht Hc. destruct (click_one _ _ _ _ Ht Hc) as [->|(ev & -> & Hen & _)].
  - split_and!; [simpl; lia|done|]. by rewrite dispatch_batch_nil.
  - split_and!; [done|by apply Forall_singleton|].
    rewrite dispatch_batch_one. intros Hwf. by apply wf_dispatch.
Qed.

Lemma click_runs_enabled_witness :
  length [AddClick] ≤ 1 ∧ Forall (enabled initial) [AddClick]
  ∧ (wf initial → wf (dispatch_batch initial [AddClick])).
Proof.
  apply (click_runs_enabled initial first_tree [0; 1; 1; 0] [AddClick]); reflexivity.
Defined.

(** C31: the clicks of the tree are the enabled clicks.  An event is
    run by a click somewhere in the tree exactly when it is "Add Widget",
    "Remove Selected" while a widget is selected, or the click of a widget
    of the grid: the tree offers every click that is enabled, and no
    other. *)
Theorem tree_clicks s t ev :
  render_tree s = Some t →
  (∃ path evs, click path t = Some evs ∧ ev ∈ evs)
  ↔ enabled s ev ∧ (ev = AddClick ∨ ev = RemoveClick ∨ ∃ itemId, ev = WidgetClick itemId).
Proof.
  intros (widgets & Hws & ->)%render_tree_Some.
  destruct (clicks_of_appElement s widgets Hws) as [Hclicks _].
  trans (ev ∈ clicks (render s)).
  - rewrite <-Hclicks. split; [|apply clicks_of_click].
    intros (path & evs & Hc & Hin). by apply (click_clicks_of _ _ _ Hc).
  - rewrite elem_of_clicks. split.
    + intros [->|[[-> Hd]|(itemId & -> & Hin)]]; (split; [done|eauto]).
    + intros [Hen [->|[->|[itemId ->]]]]; eauto.
Qed.

Lemma tree_clicks_witness :
  (∃ path evs, click path first_tree = Some evs ∧ WidgetClick "b" ∈ evs)
  ↔ enabled initial (WidgetClick "b")
    ∧ (WidgetClick "b" = AddClick ∨ WidgetClick "b" = RemoveClick
       ∨ ∃ itemId, WidgetClick "b" = WidgetClick itemId).
Proof. apply (tree_clicks initial first_tree (WidgetClick "b")). reflexivity. Defined.

(** A click inside a widget toggles its selection.  A click on the
    [div] of the widget at position [k] of the grid, or on anything
    inside it, runs the click handler of that widget and no other: the
    widget is selected afterwards, unless it was selected before, and
    nothing else changes. *)
Theorem click_widget_selects s t k item path evs :
  render_tree s = Some t → items s !! k = Some item →
  click (1 :: 0 :: k :: path) t = Some evs →
  evs = [WidgetClick (i item)]
  ∧ dispatch_batch s evs
    = mkState (items s) (columns s) (newCounter s)
        (if decide (selectedItemId s = Some (i item)) then None else Some (i item)).
Proof.
  intros Ht Hitem Hc. rewrite (click_widget _ _ _ _ _ _ Ht Hitem Hc).
  split; [done|]. by rewrite dispatch_batch_one, dispatch_WidgetClick.
Qed.

Lemma click_widget_selects_witness :
  [WidgetClick "b"] = [WidgetClick "b"]
  ∧ dispatch_batch initial [WidgetClick "b"]
    = mkState (items initial) (columns initial) (newCounter initial)
        (if decide (selectedItemId initial = Some "b") then None else Some "b").
Proof.
  apply (click_widget_selects initial first_tree 1
           (mkLayout "b" (Num 6) (Num 0) (Num 6) (Num 4)) [0; 0; 0; 1] [WidgetClick "b"]);
    reflexivity.
Defined.

Section rendered.
Context (reports : number → list Layout → list Layout → Prop) `{!GridContract reports}.

(** C32: every reachable state renders.  Along every sequence of events
    from the first render with at most [2^53] clicks on "Add Widget" the
    component returns a tree: every id has an upper case.  In that tree no
    two children of an element have the same key, and the children of the
    grid are keyed by the ids of the items, in order. *)
Theorem reachable_renders es s :
  steps reports initial es s → (Z.of_nat (adds es) ≤ MAX_SAFE)%Z →
  ∃ t g, render_tree s = Some t
         ∧ well_keyed t = true
         ∧ at_path [1; 0] t = Some g
         ∧ key_of <$> children_of g = Some <$> ids (items s).
Proof.
  intros Hes Hle.
  destruct (steps_issued reports initial es s 0 Hes eq_refl Hle) as [Hsub _].
  specialize (Hsub ltac:(done)). rewrite <-issued_labels_ids in Hsub by done.
  destruct (issued_render_tree _ _ Hsub) as [t Ht].
  destruct (steps_ids_fresh reports initial es s 0 wf_initial ids_fresh_initial Hes
              eq_refl ltac:(done) Hle) as [Hnd _].
  apply render_tree_Some in Ht as (widgets & Hws & ->).
  exists (appElement s widgets), (gridElement s widgets).
  pose proof (widgets_Some _ _ _ Hws) as (Hk & _ & _ & Hwk & _).
  split_and!; [by apply render_tree_Some; eauto| |done|].
  - rewrite well_keyed_appElement, Hk, Hwk. by rewrite bool_decide_true.
  - by apply (widgets_key_of (selectedItemId s)).
Qed.

(** C29: the highlight is the selection.  Along every sequence of events
    from the first render with at most [2^53] clicks on "Add Widget", the
    widgets the tree draws with the blue border of line 136 are: none when
    nothing is selected, and exactly one, keyed by the selected id, when
    an id is selected.  In particular no render after "Remove Selected"
    highlights a widget, and no render highlights an item that is gone. *)
Theorem selection_highlighted es s t :
  steps reports initial es s → (Z.of_nat (adds es) ≤ MAX_SAFE)%Z →
  render_tree s = Some t →
  highlights t = option_list (selectedItemId s).
Proof.
  intros Hes Hle (widgets & Hws & ->)%render_tree_Some.
  destruct (steps_ids_fresh reports initial es s 0 wf_initial ids_fresh_initial Hes
              eq_refl ltac:(done) Hle) as [Hnd _].
  pose proof (steps_wf reports _ _ _ wf_initial Hes) as Hwf.
  unfold highlights.
  cbn [at_path children_of appElement gridElement lookup list_lookup mbind option_bind].
  rewrite (widgets_highlights _ _ _ Hws).
  apply filter_selected; [done|]. apply (wf_selected _ Hwf).
Qed.
End rendered.

Lemma reachable_renders_witness :
  ∃ t g, render_tree (run initial [AddClick]) = Some t
         ∧ well_keyed t = true
         ∧ at_path [1; 0] t = Some g
         ∧ key_of <$> children_of g = Some <$> ids (items (run initial [AddClick])).
Proof.
  apply (reachable_renders any_grid [AddClick] (run initial [AddClick])); [|by_eval].
  eapply steps_cons; [apply step_add|apply steps_nil].
Defined.

Lemma selection_highlighted_witness :
  let s := run initial [AddClick; WidgetClick "new-0"] in
  highlights (default (Text "") (render_tree s)) = option_list (selectedItemId s).
Proof.
  apply (selection_highlighted any_grid [AddClick; WidgetClick "new-0"]);
    [|by_eval|reflexivity].
  eapply steps_cons; [apply step_add|].
  eapply steps_cons; [apply step_widget; compute_done|apply steps_nil].
Defined.

(** The highlight in the first render, after a click on widget [a], and
    after the click on "Remove Selected" that follows it. *)
Example highlights_scenario :
  highlights first_tree = []
  ∧ highlights (default (Text "") (render_tree (run initial [WidgetClick "a"]))) = ["a"]
  ∧ highlights (default (Text "")
                  (render_tree (run initial [WidgetClick "a"; RemoveClick]))) = [].
Proof. split_and!; reflexivity. Qed.

(** The texts of the first render, in document order. *)
Example first_tree_text :
  text_of first_tree
  = "Configurable DashboardAdd WidgetRemove SelectedWidget AWidget B".
Proof. reflexivity. Qed.

(** A click on the label of widget [b] in the first render, and a click
    on the text of the disabled button. *)
Example first_tree_clicks :
  click [1; 0; 1; 0; 0; 0; 1] first_tree = Some [WidgetClick "b"]
  ∧ click [0; 1; 2; 0] first_tree = Some []
  ∧ click [0; 1; 2; 1] first_tree = None.
Proof. split_and!; reflexivity. Qed.
