(* ===== verification/Dashboard.v ===== *)
(** The dashboard in use: the user, the tree and the grid in one loop.

    The user acts on what is rendered: a click on an element of the tree
    ([Tree.click]), a text typed into the "Columns" field, a drag or a
    resize in the grid ([Grid.Gesture]).  The grid is a component too:
    [grid_callback] is the call it makes for the props of lines 109-119.
    The props are the ones the code passes; the call the grid makes for
    them is modelled from the specification (4.3), since the grid is not
    part of the repository.
    [act] is one action with the renders that follow it: the handlers
    the action reaches run against the current render
    ([App.dispatch_batch]), and the grid then reports the layout it shows
    for the new props.
    [interact] is a sequence of actions, [trace] the events of the
    dashboard behind it.  The theorems show that every interaction is a
    run of the transition system of [Renderer.v] under the reference
    grid, which invariants hold after it, and what the clicks on the
    buttons and the widgets do, from the click to the layout the grid
    ends up showing, and that rejected input changes nothing. *)

From S2P Require Import Prelude JSNumber JSString Shortest Hooks Layout Compact App Renderer Grid View Tree.

#[local] Open Scope Z_scope.

(** ** The user *)

(** What the user can do: click on the element at a path of the tree,
    type a text into the "Columns" field, drag or resize an item of the
    grid. *)
Inductive UserAction : Type :=
  | ClickAt (path : list nat)
  | TypeColumns (value : string)
  | Pointer (g : Gesture).

(** ** The grid as a component *)

(** The gestures the props of the grid allow: the meaning the grid gives
    to [isDraggable] and [isResizable], which lines 118 and 119 set. *)
Definition allowed (p : GridProps) (g : Gesture) : bool :=
  match g with
  | Drag _ _ _ => isDraggable p
  | Resize _ _ _ => isResizable p
  end.

(** The call the grid makes for its props, after a render or after a
    gesture, as the specification describes the grid (4.3): the callback
    [onLayoutChange] with the layout it shows for [layout] and [cols].
    The grid modelled is the bounded grid with vertical compaction, the
    one lines 116 and 117 ask for; there is no call for other props, and
    none for a gesture the props do not allow. *)
Definition grid_callback (p : GridProps) (g : option Gesture) : option Event :=
  if bool_decide (compactType p = "vertical") && isBounded p
     && from_option (allowed p) true g
  then Some (onLayoutChangeProp p (grid_report (cols p) (layout p) g))
  else None.

(** The render after the grid has made its call. *)
Definition grid_calls (s : State) (g : option Gesture) : State :=
  match grid_callback (grid (render s)) g with
  | Some ev => dispatch s ev
  | None => s
  end.

(** ** Actions *)

(** One action of the user and the renders that follow it: the handlers
    the action reaches run in one render, then the grid reports the layout
    it shows for the new props.  A click on nothing changes nothing. *)
Definition act (s : State) (a : UserAction) : State :=
  match a with
  | ClickAt path =>
      match render_tree s ≫= click path with
      | Some evs => grid_calls (dispatch_batch s evs) None
      | None => s
      end
  | TypeColumns value => grid_calls (dispatch s (ColumnsChange value)) None
  | Pointer g => grid_calls s (Some g)
  end.

Definition interact (s : State) (acts : list UserAction) : State :=
  foldl act s acts.

(** The events of the dashboard behind an action. *)
Definition events (s : State) (a : UserAction) : list Event :=
  match a with
  | ClickAt path =>
      match render_tree s ≫= click path with
      | Some evs =>
          let s' := dispatch_batch s evs in
          evs ++ [LayoutChange (grid_layout (columns s') (items s'))]
      | None => []
      end
  | TypeColumns value =>
      let s' := dispatch s (ColumnsChange value) in
      [ColumnsChange value; LayoutChange (grid_layout (columns s') (items s'))]
  | Pointer g => [LayoutChange (grid_report (columns s) (items s) (Some g))]
  end.

Fixpoint trace (s : State) (acts : list UserAction) : list Event :=
  match acts with
  | [] => []
  | a :: acts => events s a ++ trace (act s a) acts
  end.

(** ** The calls of the grid *)

(** With the props [App] gives it, the grid reports after every render
    and after every gesture, through [onLayoutChange]. *)
Lemma grid_callback_render s g :
  grid_callback (grid (render s)) g
  = Some (LayoutChange (grid_report (columns s) (items s) g)).
Proof. by destruct g as [[]|]. Qed.

Lemma grid_calls_None s : grid_calls s None = report s.
Proof. done. Qed.

Lemma grid_calls_Some s g :
  grid_calls s (Some g)
  = dispatch s (LayoutChange (grid_report (columns s) (items s) (Some g))).
Proof. by destruct g. Qed.

(** ** Actions are steps *)

Lemma clicks_step s ev :
  ev ∈ clicks (render s) → step reference_grid s ev (dispatch s ev).
Proof.
  intros [->|[[-> Hd]|(itemId & -> & Hin)]]%elem_of_clicks; by constructor.
Qed.

Lemma adds_app es1 es2 : adds (es1 ++ es2) = (adds es1 + adds es2)%nat.
Proof. unfold adds. by rewrite filter_app, length_app. Qed.

Lemma act_steps s a :
  wf s → steps reference_grid s (events s a) (act s a) ∧ (adds (events s a) ≤ 1)%nat.
Proof.
  intros Hwf. split.
  - destruct a as [path|value|g]; cbn [act events];
      rewrite ?grid_calls_None, ?grid_calls_Some.
    + destruct (render_tree s ≫= click path) as [evs|] eqn:Hc; [|apply steps_nil].
      rewrite grid_calls_None.
      apply bind_Some in Hc as (t & Ht & Hc).
      destruct (click_one _ _ _ _ Ht Hc) as [->|(ev & -> & Hen & Hev)].
      * rewrite dispatch_batch_nil.
        eapply steps_cons; [apply report_step, Hwf|apply steps_nil].
      * rewrite dispatch_batch_one. eapply steps_cons; [by apply clicks_step|].
        eapply steps_cons; [|apply steps_nil]. apply report_step. by apply wf_dispatch.
    + eapply steps_cons; [apply step_columns|].
      eapply steps_cons; [|apply steps_nil]. apply report_step, wf_ColumnsChange, Hwf.
    + eapply steps_cons; [|apply steps_nil].
      apply step_layout. split; [apply Hwf|]. by exists (Some g).
  - destruct a as [path|value|g]; cbn [events];
      [|unfold adds; rewrite !filter_cons; repeat case_decide; simplify_eq; simpl; lia..].
    destruct (render_tree s ≫= click path) as [evs|] eqn:Hc; [|unfold adds; simpl; lia].
    apply bind_Some in Hc as (t & Ht & Hc). rewrite adds_app.
    change (adds [LayoutChange _]) with 0%nat.
    destruct (click_one _ _ _ _ Ht Hc) as [->|(ev & -> & _)]; [unfold adds; simpl; lia|].
    pose proof (length_filter (λ e, e = AddClick) [ev]). unfold adds. simpl in *. lia.
Qed.

(** After an action the layout is tidy. *)
Lemma act_tidy s a :
  wf s → tidy (columns s) (items s) → tidy (columns (act s a)) (items (act s a)).
Proof.
  intros Hwf Htidy. destruct a as [path|value|g]; cbn [act];
    rewrite ?grid_calls_None, ?grid_calls_Some.
  - destruct (render_tree s ≫= click path) as [evs|] eqn:Hc; [|done].
    apply bind_Some in Hc as (t & Ht & Hc). rewrite grid_calls_None. apply report_tidy.
    destruct (click_one _ _ _ _ Ht Hc) as [->|(ev & -> & Hen & Hev)].
    + rewrite dispatch_batch_nil. apply Hwf.
    + rewrite dispatch_batch_one. by apply wf_dispatch.
  - apply report_tidy, wf_ColumnsChange, Hwf.
  - rewrite dispatch_LayoutChange. apply grid_report_tidy, Hwf.
Qed.

Lemma act_wf s a : wf s → wf (act s a).
Proof.
  intros Hwf. destruct (act_steps s a Hwf) as [Hs _].
  by eapply (steps_wf reference_grid).
Qed.

Lemma interact_steps s acts :
  wf s →
  steps reference_grid s (trace s acts) (interact s acts)
  ∧ (adds (trace s acts) ≤ length acts)%nat.
Proof.
  revert s. induction acts as [|a acts IH]; intros s Hwf; simpl.
  { split; [apply steps_nil|done]. }
  destruct (act_steps s a Hwf) as [Hs Ha].
  destruct (IH (act s a) (act_wf s a Hwf)) as [Hss Has].
  split; [by eapply steps_app|]. rewrite adds_app. lia.
Qed.

Lemma interact_tidy s acts :
  wf s → tidy (columns s) (items s) →
  tidy (columns (interact s acts)) (items (interact s acts)).
Proof.
  revert s. induction acts as [|a acts IH]; intros s Hwf Htidy; [done|].
  simpl. apply IH; [by apply act_wf|by apply act_tidy].
Qed.

(** ** Clicks *)

Lemma act_click s t path evs :
  render_tree s = Some t → click path t = Some evs →
  act s (ClickAt path) = report (dispatch_batch s evs).
Proof. intros Ht Hc. cbn [act]. rewrite Ht. simpl. by rewrite Hc, grid_calls_None. Qed.

(** ** The "Columns" field *)

(** A number typed into "Columns", and the report of the grid. *)
Lemma act_TypeColumns s value z :
  StringToMathInt value = Some z → 0 < z ≤ MAX_SAFE →
  act s (TypeColumns value)
  = mkState (grid_layout (Num z) (items s)) (Num z) (newCounter s) (selectedItemId s).
Proof.
  intros Hv Hz. cbn [act]. rewrite grid_calls_None.
  assert (parseInt value = Num z) as Hp.
  { unfold parseInt. rewrite Hv. apply to_double_exact. lia. }
  rewrite dispatch_ColumnsChange_accept; rewrite ?Hp; [done|done|].
  simpl. apply bool_decide_eq_true. lia.
Qed.

Lemma act_TypeColumns_decimal s z :
  0 < z ≤ MAX_SAFE →
  act s (TypeColumns (decimal z))
  = mkState (grid_layout (Num z) (items s)) (Num z) (newCounter s) (selectedItemId s).
Proof.
  intros Hz. apply act_TypeColumns; [|done].
  rewrite <-(string_app_nil_r (decimal z)). apply StringToMathInt_decimal; [lia|done].
Qed.

(** A click that reaches no handler changes nothing. *)
Lemma act_click_nothing s path :
  tidy (columns s) (items s) →
  render_tree s ≫= click path = None ∨ render_tree s ≫= click path = Some [] →
  act s (ClickAt path) = s.
Proof.
  intros Htidy [Hc|Hc]; cbn [act]; rewrite Hc; [done|].
  rewrite dispatch_batch_nil, grid_calls_None. by apply report_id.
Qed.

(** * Properties *)

(** C15: the invariants of the dashboard in use.  After the first report
    of the grid and any sequence of at most [2^53] actions of the user,
    the state is one that steps of the dashboard under the reference grid
    reach from the first render; it is well formed, its layout is tidy, its
    ids are pairwise distinct, and the component returns a tree for it. *)
Theorem interact_invariant acts :
  Z.of_nat (length acts) ≤ MAX_SAFE →
  let s := interact first_report acts in
  steps reference_grid initial
    (LayoutChange (items first_report) :: trace first_report acts) s
  ∧ wf s
  ∧ tidy (columns s) (items s)
  ∧ NoDup (ids (items s))
  ∧ is_Some (render_tree s).
Proof.
  intros Hle s.
  pose proof wf_first_report as Hwf.
  destruct (interact_steps first_report acts Hwf) as [Hs Ha].
  assert (steps reference_grid initial
            (LayoutChange (items first_report) :: trace first_report acts) s) as Hes.
  { eapply steps_cons; [apply reference_first_report|done]. }
  assert (Z.of_nat (adds (LayoutChange (items first_report) :: trace first_report acts))
          ≤ MAX_SAFE) as Hadds.
  { rewrite adds_cons. change (adds [LayoutChange _]) with 0%nat. lia. }
  split_and!; [done|by eapply (steps_wf reference_grid)| | |].
  - apply interact_tidy; [done|apply tidy_first_report].
  - by destruct (steps_ids_fresh reference_grid initial _ s 0 wf_initial ids_fresh_initial
                   Hes eq_refl ltac:(done) Hadds).
  - destruct (steps_issued reference_grid initial _ s 0 Hes eq_refl Hadds) as [Hsub _].
    specialize (Hsub ltac:(done)). rewrite <-issued_labels_ids in Hsub by done.
    by eapply issued_render_tree.
Qed.

Lemma interact_invariant_witness :
  let s := interact first_report
             [ClickAt [0; 1; 1]%nat; ClickAt [1; 0; 2]%nat; Pointer (Drag 0 7 30);
              ClickAt [0; 1; 2]%nat; TypeColumns "4"] in
  steps reference_grid initial
    (LayoutChange (items first_report)
     :: trace first_report
          [ClickAt [0; 1; 1]%nat; ClickAt [1; 0; 2]%nat; Pointer (Drag 0 7 30);
           ClickAt [0; 1; 2]%nat; TypeColumns "4"]) s
  ∧ wf s
  ∧ tidy (columns s) (items s)
  ∧ NoDup (ids (items s))
  ∧ is_Some (render_tree s).
Proof.
  apply (interact_invariant
           [ClickAt [0; 1; 1]%nat; ClickAt [1; 0; 2]%nat; Pointer (Drag 0 7 30);
            ClickAt [0; 1; 2]%nat; TypeColumns "4"]).
  by_eval.
Defined.

(** C21: a click on "Add Widget", from the button to the grid.  When the
    layout is tidy, a click on the first button of the toolbar adds one
    item: the grid puts it, cut to fit the columns, in the first row
    below the items it shares a column with; the other items stay, the
    counter goes up by one, columns and selection are unchanged. *)
Theorem click_add_widget s :
  tidy (columns s) (items s) → is_Some (render_tree s) →
  act s (ClickAt [0; 1; 1]%nat)
  = mkState
      (items s ++ [place (items s) (fit (columns s) (bottom (items s)) (newItem s))])
      (columns s) (newCounter s +ⱼ Num 1)%js (selectedItemId s).
Proof.
  intros Htidy [t Ht]. rewrite (act_click s t _ _ Ht (click_add s t Ht)).
  rewrite dispatch_batch_one. unfold report. rewrite dispatch_LayoutChange.
  change (columns (dispatch s AddClick)) with (columns s).
  by rewrite (grid_layout_AddClick s Htidy).
Qed.

Lemma click_add_widget_witness :
  act first_report (ClickAt [0; 1; 1]%nat)
  = mkState
      (items first_report
       ++ [place (items first_report)
             (fit (columns first_report) (bottom (items first_report))
                (newItem first_report))])
      (columns first_report) (newCounter first_report +ⱼ Num 1)%js
      (selectedItemId first_report).
Proof.
  apply (click_add_widget first_report); [apply tidy_first_report|by eexists].
Defined.

(** C22: selecting a widget and removing it, from the clicks to the grid.
    In a well-formed state with a tidy layout, a click on a widget that
    is not selected, or on anything inside it, followed by a click on
    "Remove Selected", removes the items with the id of that widget and
    clears the selection; the grid moves the remaining items up; columns
    and counter are unchanged. *)
Theorem click_select_remove s t k item path :
  wf s → tidy (columns s) (items s) →
  render_tree s = Some t → items s !! k = Some item →
  is_Some (click (1 :: 0 :: k :: path)%nat t) →
  selectedItemId s ≠ Some (i item) →
  interact s [ClickAt (1 :: 0 :: k :: path)%nat; ClickAt [0; 1; 2]%nat]
  = mkState (grid_layout (columns s) (filter (λ it, i it ≠ i item) (items s)))
      (columns s) (newCounter s) None.
Proof.
  intros Hwf Htidy Ht Hitem [evs Hc] Hsel.
  assert (i item ∈ ids (items s)) as Hin.
  { apply elem_of_ids. exists item. split; [by eapply list_elem_of_lookup_2|done]. }
  assert (i item ≠ "") as Hne by (intros Heq; apply (wf_nonempty s Hwf); by rewrite <-Heq).
  pose proof (click_widget _ _ _ _ _ _ Ht Hitem Hc) as ->.
  set (s1 := mkState (items s) (columns s) (newCounter s) (Some (i item))).
  assert (act s (ClickAt (1 :: 0 :: k :: path)%nat) = s1) as Hs1.
  { rewrite (act_click s t _ _ Ht Hc), dispatch_batch_one, dispatch_WidgetClick.
    rewrite decide_False by done. by apply report_id. }
  assert (is_Some (render_tree s1)) as [t1 Ht1].
  { apply render_tree_is_Some, (proj1 (render_tree_is_Some s)). by exists t. }
  cbn [interact foldl]. rewrite Hs1.
  rewrite (act_click s1 t1 _ _ Ht1 (click_remove s1 t1 Ht1)).
  assert (removeDisabled s1 = false) as -> by (by apply removeDisabled_false; exists (i item)).
  rewrite dispatch_batch_one, (dispatch_RemoveClick_selected s1 (i item)) by done.
  unfold report. by rewrite dispatch_LayoutChange.
Qed.

Lemma click_select_remove_witness :
  interact first_report [ClickAt [1; 0; 0; 0; 0; 0; 1]%nat; ClickAt [0; 1; 2]%nat]
  = mkState
      (grid_layout (columns first_report)
         (filter (λ it, i it ≠ "a") (items first_report)))
      (columns first_report) (newCounter first_report) None.
Proof.
  apply (click_select_remove first_report (default (Text "") (render_tree first_report))
           0 (mkLayout "a" (Num 0) (Num 0) (Num 6) (Num 4)) [0; 0; 0; 1]%nat);
    [apply (wf_LayoutChange _ _ wf_initial), ids_grid_layout|apply tidy_first_report
    |reflexivity|reflexivity|by eexists|done].
Defined.

(** The scenarios of the specification in use: a click on the label of
    widget [a] and a click on "Remove Selected" leave [b], which the grid
    moves up to row 0; typing 4 into "Columns" makes both widgets four
    columns wide, one below the other. *)
Example remove_a_scenario :
  interact first_report [ClickAt [1; 0; 0; 0; 0; 0; 1]%nat; ClickAt [0; 1; 2]%nat]
  = {| items := [ {| i := "b"; x := Num 4; y := Num 0; w := Num 6; h := Num 4 |} ];
       columns := Num 10; newCounter := Num 0; selectedItemId := None |}.
Proof. by_eval. Qed.

Example four_columns_scenario :
  interact first_report [TypeColumns "4"]
  = {| items := [ {| i := "a"; x := Num 0; y := Num 0; w := Num 4; h := Num 4 |};
                  {| i := "b"; x := Num 0; y := Num 4; w := Num 4; h := Num 4 |} ];
       columns := Num 4; newCounter := Num 0; selectedItemId := None |}.
Proof. by_eval. Qed.

(** C19: input the dashboard rejects changes nothing.  In a well-formed
    state with a tidy layout, the state after the action is the state
    before it for a click where the tree has no element, a click on "Remove
    Selected" while nothing is selected, a text in "Columns" that does not
    start with a number above zero, and a gesture on a position the layout
    does not have. *)
Theorem rejected_input_ignored s :
  wf s → tidy (columns s) (items s) →
  (∀ path, render_tree s ≫= at_path path = None → act s (ClickAt path) = s)
  ∧ (selectedItemId s = None → act s (ClickAt [0; 1; 2]%nat) = s)
  ∧ (∀ value, isNaN (parseInt value) = true ∨ (parseInt value >ⱼ Num 0)%js = false →
       act s (TypeColumns value) = s)
  ∧ (∀ g, (length (items s) ≤ target g)%nat → act s (Pointer g) = s).
Proof.
  intros Hwf Htidy. split_and!.
  - intros path Hp. apply act_click_nothing; [done|left].
    destruct (render_tree s) as [t|]; [|done]. simpl in *.
    apply eq_None_not_Some. intros Hc%click_at_path. by rewrite Hp in Hc; destruct Hc.
  - intros Hsel. apply act_click_nothing; [done|].
    destruct (render_tree s) as [t|] eqn:Ht; [right|by left].
    change (click [0; 1; 2]%nat t = Some []).
    by rewrite (click_remove s t Ht), (proj2 (removeDisabled_wf s Hwf) Hsel).
  - intros value Hrej. cbn [act].
    rewrite dispatch_ColumnsChange_reject, grid_calls_None by done. by apply report_id.
  - intros g Hg. cbn [act]. rewrite grid_calls_Some, dispatch_LayoutChange.
    simpl. unfold gesture.
    rewrite (grid_layout_id _ (items s)), list_alter_ge, grid_layout_id by done.
    by destruct s.
Qed.

Lemma rejected_input_ignored_witness :
  let s := first_report in
  (∀ path, render_tree s ≫= at_path path = None → act s (ClickAt path) = s)
  ∧ (selectedItemId s = None → act s (ClickAt [0; 1; 2]%nat) = s)
  ∧ (∀ value, isNaN (parseInt value) = true ∨ (parseInt value >ⱼ Num 0)%js = false →
       act s (TypeColumns value) = s)
  ∧ (∀ g, (length (items s) ≤ target g)%nat → act s (Pointer g) = s).
Proof.
  apply (rejected_input_ignored first_report wf_first_report tidy_first_report).
Defined.

(** Nothing is selected at first, "Remove Selected" is disabled, and the
    texts [abc], [0] and [-3] are not column counts. *)
Example rejected_scenario :
  interact first_report
    [ClickAt [0; 1; 2]%nat; TypeColumns "abc"; TypeColumns "0"; TypeColumns "-3";
     ClickAt [7]%nat; Pointer (Drag 5 0 0)]
  = first_report.
Proof. reflexivity. Qed.

(** C20: the columns taken away are not given back.  In a state with a
    tidy layout and [c] columns, typing the number [z] into "Columns" and
    then [c] again leaves the dashboard with [c] columns and the same
    widgets, each at most [z] columns wide: the grid cuts the items to the
    columns it is given, the component stores what the grid reports, and
    nothing remembers the widths from before. *)
Theorem columns_shrink_cuts s c z :
  tidy (columns s) (items s) → columns s = Num c →
  0 < c ≤ MAX_SAFE → 0 < z ≤ MAX_SAFE →
  let s' := interact s [TypeColumns (decimal z); TypeColumns (decimal c)] in
  columns s' = Num c
  ∧ ids (items s') = ids (items s)
  ∧ widths (items s') = Z.min z <$> widths (items s).
Proof.
  intros Htidy Hc Hcs Hz. unfold interact. cbn [foldl].
  rewrite !act_TypeColumns_decimal by done. cbn [items columns].
  split_and!; [done|by rewrite !ids_grid_layout|].
  pose proof (tidy_bounds _ _ Htidy) as Hb. rewrite Hc in Hb.
  rewrite (widths_grid_layout (Num z)), (widths_grid_layout (Num c)) by
    (done || lia || (apply grid_layout_tidy; simpl; apply bool_decide_eq_true; lia)).
  rewrite <-list_fmap_compose. apply Forall_fmap_ext.
  eapply Forall_impl; [apply (widths_le c), Hb|]. intros w Hw.
  cbv [compose]. simpl in Hw. lia.
Qed.

Lemma columns_shrink_cuts_witness :
  let s' := interact first_report [TypeColumns (decimal 4); TypeColumns (decimal 10)] in
  columns s' = Num 10
  ∧ ids (items s') = ids (items first_report)
  ∧ widths (items s') = Z.min 4 <$> widths (items first_report).
Proof.
  apply (columns_shrink_cuts first_report 10 4 tidy_first_report eq_refl); by vm_compute.
Defined.

(** The two widgets of the first render are six columns wide; after 4
    and then 10 typed into "Columns" they are four columns wide. *)
Example shrink_scenario :
  widths (items first_report) = [6; 6]
  ∧ widths (items (interact first_report [TypeColumns "4"; TypeColumns "10"])) = [4; 4].
Proof. by vm_compute. Qed.

(** The empty grid: with both widgets removed the layout is empty, and
    the next widget lands in the first cell. *)
Example empty_grid_scenario :
  let s := interact first_report
             [ClickAt [1; 0; 0]%nat; ClickAt [0; 1; 2]%nat;
              ClickAt [1; 0; 0]%nat; ClickAt [0; 1; 2]%nat] in
  items s = []
  ∧ items (act s (ClickAt [0; 1; 1]%nat))
    = [ {| i := "new-0"; x := Num 0; y := Num 0; w := Num 2; h := Num 2 |} ].
Proof. by vm_compute. Qed.

(** The grid of one column: every widget is one column wide, the new one
    too, and they stand in one pile. *)
Example one_column_scenario :
  items (interact first_report [TypeColumns "1"; ClickAt [0; 1; 1]%nat])
  = [ {| i := "a"; x := Num 0; y := Num 0; w := Num 1; h := Num 4 |};
      {| i := "b"; x := Num 0; y := Num 4; w := Num 1; h := Num 4 |};
      {| i := "new-0"; x := Num 0; y := Num 8; w := Num 1; h := Num 2 |} ].
Proof. by vm_compute. Qed.
