(* ===== verification/Conformance.v ===== *)
(** Conformance of the dashboard to the store of the specification.

    [Spec.v] shows that one event of the component is one operation of
    the store of the specification, on the range where the numbers of
    JavaScript are the integers.  This file shows that the dashboard stays
    on that range by itself: under any grid that meets the contract of
    [Renderer.v], a run of the transition system makes the counter and
    the number of widgets grow by at most one per click on "Add Widget",
    every layout the grid reports can be read as a layout of the
    specification, and "Remove Selected" is never clicked with the empty
    id selected.  What has to be assumed is a bound on the number of
    clicks and that the numbers typed into "Columns" are at most [2^53 -
    1] ([in_range]).

    For the closed loop of [Dashboard.v] the store gets a renderer of its
    own: [spec_render] is the grid of [Grid.v] given the items and the
    columns of the store ([conc_item]), so that what the renderer reports
    to the store is computed from what the operations of the store have
    made of its items, and not from the items of the component.  A
    [request] is what an action of the user asks for (the events of the
    handlers it reaches, or a gesture), [spec_act] a request on the store,
    and the theorem is the simulation of [Dashboard.interact] by
    [spec_session].  The state of the closed loop is also the state the
    memoised handlers of [Callbacks.v] compute ([interact_memo]). *)

From S2P Require Import Prelude JSNumber JSString Shortest Hooks Layout Compact App Callbacks Renderer Grid Spec View Tree Dashboard.

#[local] Open Scope Z_scope.

(** ** The range of the inputs *)

(** The events whose numbers the specification reads as the component
    does: a text typed into "Columns" that starts with a numeral of at most
    [MAX_SAFE], which [parseInt] (line 63) returns without rounding. *)
Definition in_range (e : Event) : bool :=
  match e with
  | ColumnsChange value =>
      match StringToMathInt value with
      | Some z => bool_decide (z ≤ MAX_SAFE)
      | None => true
      end
  | _ => true
  end.

Definition typed_in_range (a : UserAction) : bool :=
  match a with
  | TypeColumns value => in_range (ColumnsChange value)
  | _ => true
  end.

(** The store of the specification for the first render (lines 18-29). *)
Definition initial_store : spec.DashboardState :=
  {| spec.items := [ spec.mkItem "a" 0 (Some 0) 6 4; spec.mkItem "b" 6 (Some 0) 6 4 ];
     spec.columns := 10; spec.nextCounter := 0%nat; spec.selectedId := None |}.

(** The counter is the integer [c], and there are at most two widgets
    more than it has counted: the two of the first render. *)
Definition sized (c : Z) (s : State) : Prop :=
  newCounter s = Num c ∧ 0 ≤ c ∧ Z.of_nat (length (items s)) ≤ 2 + c.

(** The events of a session: the report of the grid after the first
    render, then the events behind the actions of the user. *)
Definition session (acts : list UserAction) : list Event :=
  LayoutChange (items first_report) :: trace first_report acts.

(** ** The store with its renderer *)

(** An item of the store as the renderer is given it. *)
Definition conc_item (a : spec.LayoutItem) : Layout :=
  {| i := spec.id a;
     x := Num (spec.x a);
     y := match spec.y a with Some z => Num z | None => Infinity end;
     w := Num (spec.w a);
     h := Num (spec.h a) |}.

(** The callback of the renderer on the store (4.3 and [replaceLayout]):
    the grid lays out the items of the store for the columns of the store,
    after a gesture or without one, and the store takes the recomputed
    list. *)
Definition spec_render (g : option Gesture) (d : spec.DashboardState)
    : option spec.DashboardState :=
  newItems ← mapM abs_item
    (grid_report (Num (spec.columns d)) (conc_item <$> spec.items d) g);
  Some (spec.replaceLayout newItems d).

(** What an action asks for: the events of the handlers it reaches, and
    the gesture the grid reports after them, if there is one.  [None]: the
    action reaches nothing, and nothing is rendered. *)
Definition request (s : State) (a : UserAction) : option (list Event * option Gesture) :=
  match a with
  | ClickAt path => (λ evs, (evs, None)) <$> (render_tree s ≫= click path)
  | TypeColumns value => Some ([ColumnsChange value], None)
  | Pointer g => Some ([], Some g)
  end.

Fixpoint requests (s : State) (acts : list UserAction)
    : list (list Event * option Gesture) :=
  match acts with
  | [] => []
  | a :: acts => option_list (request s a) ++ requests (act s a) acts
  end.

Definition abs_request (r : list Event * option Gesture)
    : option (list spec.Action * option Gesture) :=
  (λ ops, (ops, r.2)) <$> mapM abs_event r.1.

(** One request on the store: the operations, then the renderer. *)
Definition spec_act (d : spec.DashboardState) (r : list spec.Action * option Gesture)
    : option spec.DashboardState :=
  spec_render r.2 (foldl spec.step d r.1).

Fixpoint spec_interact (d : spec.DashboardState)
    (rs : list (list spec.Action * option Gesture)) : option spec.DashboardState :=
  match rs with
  | [] => Some d
  | r :: rs => spec_act d r ≫= λ d', spec_interact d' rs
  end.

(** The store from application start: the first callback of the renderer,
    then the requests. *)
Definition spec_session (rs : list (list spec.Action * option Gesture))
    : option spec.DashboardState :=
  spec_render None initial_store ≫= λ d, spec_interact d rs.

(** ** Layouts inside the columns are layouts of the specification *)

Lemma abs_initial : abs initial = Some initial_store.
Proof. reflexivity. Qed.

Lemma in_bounds_abs cols it : in_bounds cols it = true → is_Some (abs_item it).
Proof.
  unfold in_bounds, abs_item. destruct (x it); try done. destruct (y it); try done.
  destruct (w it); try done. by destruct (h it).
Qed.

Lemma layout_abs cols l :
  Forall (λ it, in_bounds cols it = true) l → is_Some (mapM abs_item l).
Proof.
  intros Hl. apply mapM_is_Some. eapply Forall_impl; [done|]. apply in_bounds_abs.
Qed.

Lemma in_range_exact s value :
  in_range (ColumnsChange value) = true → exact s (ColumnsChange value).
Proof.
  simpl. intros H z Hz. rewrite Hz in H. by apply bool_decide_eq_true in H.
Qed.

(** ** The renderer on the store *)

(** The grid is given back what the store holds. *)
Lemma conc_abs_item it a : abs_item it = Some a → conc_item a = it.
Proof.
  unfold abs_item, conc_item. destruct it as [k [|x| |] [|y| |] [|w| |] [|h| |]]; simpl;
    try done; by intros [= <-].
Qed.

Lemma conc_abs_items l al : mapM abs_item l = Some al → conc_item <$> al = l.
Proof.
  intros H%mapM_Some. induction H as [|it a l al Ha _ IH]; [done|].
  by rewrite fmap_cons, (conc_abs_item it a), IH.
Qed.

(** The diagram of the renderer. *)
Lemma abs_render s d g :
  abs s = Some d →
  ∃ d', spec_render g d = Some d'
        ∧ abs (dispatch s (LayoutChange (grid_report (columns s) (items s) g))) = Some d'.
Proof.
  intros Hd. pose proof Hd as (its & c & n & Hits & Hc & Hn & Hpos & H0 & ->)%abs_Some.
  unfold spec_render. simpl. rewrite (conc_abs_items _ _ Hits), <-Hc.
  destruct (layout_abs (columns s) (grid_report (columns s) (items s) g)) as [newItems Hnew].
  { apply tidy_bounds, grid_report_tidy. rewrite Hc. simpl. by apply bool_decide_eq_true. }
  rewrite Hnew. simpl. eexists. split; [done|].
  by apply (refines_LayoutChange s _ _ newItems).
Qed.

(** ** Runs under a grid that meets the contract *)

Section conformance.
Context (reports : number → list Layout → list Layout → Prop) `{!GridContract reports}.

(** An event that is no click on "Add Widget" and adds no widget keeps
    the size. *)
Lemma sized_frame c s s' e :
  adds [e] = 0%nat → newCounter s' = newCounter s →
  (length (items s') ≤ length (items s))%nat →
  sized c s → sized (c + Z.of_nat (adds [e])) s'.
Proof.
  intros -> Hn Hlen (Hc & H0 & Hle). rewrite Z.add_0_r.
  split_and!; [congruence|done|lia].
Qed.

Lemma step_sized s e s' c :
  step reports s e s' → sized c s → c < MAX_SAFE →
  sized (c + Z.of_nat (adds [e])) s'.
Proof.
  intros Hstep Hs Hlt.
  destruct Hstep as [s layout Hrep|s|s Hen|s itemId Hin|s value].
  - apply (sized_frame c s); [done..| |done]. rewrite dispatch_LayoutChange. simpl.
    by rewrite <-(length_ids layout), (reports_ids _ _ _ Hrep), length_ids.
  - destruct Hs as (Hc & H0 & Hlen). rewrite dispatch_AddClick.
    change (adds [AddClick]) with 1%nat. split_and!; simpl; [|lia|].
    + rewrite Hc. apply number_add_safe. safe_lia.
    + rewrite length_app. simpl. lia.
  - apply removeDisabled_false in Hen as (k & Hk & Hne).
    rewrite (dispatch_RemoveClick_selected s k) by done.
    apply (sized_frame c s); [done..|apply length_filter|done].
  - rewrite dispatch_WidgetClick. by apply (sized_frame c s).
  - destruct (dispatch_ColumnsChange_frame s value) as (Hi & Hn & _).
    apply (sized_frame c s); [done|done|by rewrite Hi|done].
Qed.

Lemma steps_sized s es s' c :
  steps reports s es s' → sized c s → c + Z.of_nat (adds es) < MAX_SAFE →
  sized (c + Z.of_nat (adds es)) s'.
Proof.
  intros Hes. revert c. induction Hes as [|s e s' es s'' Hstep _ IH]; intros c Hs Hle.
  { change (adds []) with 0%nat. by rewrite Z.add_0_r. }
  rewrite adds_cons in *. rewrite Nat2Z.inj_add, Z.add_assoc in *.
  apply IH; [|done]. apply (step_sized s); [done..|lia].
Qed.

(** On a sized state every event of a step is in the range of the
    refinement, and an operation of the specification. *)
Lemma step_exact s e s' c :
  step reports s e s' → sized c s → c + 2 ≤ 2 ^ 52 → in_range e = true →
  exact s e ∧ is_Some (abs_event e).
Proof.
  intros Hstep (Hc & H0 & Hlen) Hle Hr.
  destruct Hstep as [s layout Hrep|s|s Hen|s itemId Hin|s value]; (split; [|try done]).
  - done.
  - simpl. apply fmap_is_Some. eapply layout_abs, reports_bounds, Hrep.
  - split; [exists c; split; [done|safe_lia]|].
    change (2 ^ (prec - 1)) with (2 ^ 52). lia.
  - simpl. apply removeDisabled_false in Hen as (k & Hk & Hne). rewrite Hk. congruence.
  - done.
  - by apply in_range_exact.
Qed.

Lemma steps_exact s es s' c :
  steps reports s es s' → sized c s → c + Z.of_nat (adds es) + 2 ≤ 2 ^ 52 →
  forallb in_range es = true →
  exact_run s es ∧ is_Some (mapM abs_event es).
Proof.
  intros Hes. revert c. induction Hes as [|s e s' es s'' Hstep _ IH]; intros c Hs Hle Hr.
  { done. }
  rewrite adds_cons in Hle. simpl in Hr. apply andb_true_iff in Hr as [Hr Hrs].
  destruct (step_exact s e s' c Hstep Hs ltac:(lia) Hr) as (Hex & [a Ha]).
  pose proof (step_sized s e s' c Hstep Hs ltac:(safe_lia)) as Hs'.
  destruct (IH _ Hs' ltac:(lia) Hrs) as [Hexs [acts Hacts]].
  apply step_dispatch in Hstep as ->.
  split; [done|]. exists (a :: acts). apply mapM_Some. constructor; [done|by apply mapM_Some].
Qed.

Lemma steps_refine s es s' d :
  steps reports s es s' → abs s = Some d →
  (length (spec.items d) ≤ 2 + spec.nextCounter d)%nat →
  Z.of_nat (spec.nextCounter d) + Z.of_nat (adds es) + 2 ≤ 2 ^ 52 →
  forallb in_range es = true →
  ∃ ops, mapM abs_event es = Some ops ∧ abs s' = Some (foldl spec.step d ops).
Proof.
  intros Hes Hd Hlen Hle Hr.
  pose proof Hd as (its & c & n & Hits & Hc & Hn & Hpos & H0 & ->)%abs_Some. simpl in *.
  apply abs_items_length in Hits.
  destruct (steps_exact s es s' n Hes) as [Hex [ops Hops]]; [split_and!; [done|done|lia]|lia|done|].
  exists ops. split; [done|]. rewrite (steps_run _ _ _ _ Hes). by apply refines_run.
Qed.
End conformance.

(** ** The closed loop *)

Lemma clicks_in_range s ev : ev ∈ clicks (render s) → in_range ev = true.
Proof. by intros [->|[[-> _]|(itemId & -> & _)]]%elem_of_clicks. Qed.

Lemma session_steps acts :
  steps reference_grid initial (session acts) (interact first_report acts)
  ∧ (adds (session acts) ≤ length acts)%nat.
Proof.
  destruct (interact_steps first_report acts wf_first_report) as [Hs Ha].
  split; [eapply steps_cons; [apply reference_first_report|done]|].
  unfold session. rewrite adds_cons. by change (adds [LayoutChange _]) with 0%nat.
Qed.

(** ** The store with its renderer simulates the closed loop *)

Lemma act_request_None s a : request s a = None → act s a = s.
Proof.
  destruct a as [path|value|g]; [|done..]. cbn [request act].
  by destruct (render_tree s ≫= click path).
Qed.

(** The handlers an action reaches are steps of the dashboard, at most one
    of them a click on "Add Widget". *)
Lemma request_steps s a evs g :
  request s a = Some (evs, g) → typed_in_range a = true →
  steps reference_grid s evs (run s evs)
  ∧ (adds evs ≤ 1)%nat ∧ forallb in_range evs = true
  ∧ act s a = dispatch (run s evs)
                (LayoutChange (grid_report (columns (run s evs)) (items (run s evs)) g)).
Proof.
  destruct a as [path|value|g']; cbn [request act typed_in_range].
  - intros (evs' & Hc & [= -> ->])%fmap_Some _. rewrite Hc.
    apply bind_Some in Hc as (t & Ht & Hc).
    destruct (click_one _ _ _ _ Ht Hc) as [->|(ev & -> & Hen & Hev)].
    + rewrite dispatch_batch_nil.
      split_and!; [apply steps_nil|unfold adds; simpl; lia|done|done].
    + rewrite dispatch_batch_one. split_and!; [|apply (length_filter _ [ev])| |done].
      * eapply steps_cons; [by apply clicks_step|apply steps_nil].
      * simpl. by rewrite (clicks_in_range s ev).
  - intros [= <- <-] Hr. split_and!; [|unfold adds; simpl; lia| |done].
    + eapply steps_cons; [apply step_columns|apply steps_nil].
    + simpl in *. by rewrite Hr.
  - intros [= <- <-] _. split_and!; [apply steps_nil|unfold adds; simpl; lia|done|].
    by rewrite grid_calls_Some.
Qed.

(** The diagram of one action: the handlers are operations of the store,
    and the renderer of the store, given the items of the store, computes
    what the grid reports to the component. *)
Lemma act_refines s a evs g d c :
  sized c s → c + 3 ≤ 2 ^ 52 → typed_in_range a = true → abs s = Some d →
  request s a = Some (evs, g) →
  ∃ r d' c', abs_request (evs, g) = Some r ∧ spec_act d r = Some d'
             ∧ abs (act s a) = Some d' ∧ sized c' (act s a) ∧ c' ≤ c + 1.
Proof.
  intros Hs Hle Hr Hd Hreq.
  destruct (request_steps s a evs g Hreq Hr) as (Hes & Hadds & Hrs & ->).
  destruct (steps_exact reference_grid s evs _ c Hes Hs ltac:(lia) Hrs) as [Hex [ops Hops]].
  pose proof (refines_run s evs d ops Hd Hops Hex) as Hd1.
  destruct (abs_render (run s evs) _ g Hd1) as (d' & Hrender & Hd').
  exists (ops, g), d', (c + Z.of_nat (adds evs)).
  split_and!; [by unfold abs_request; simpl; rewrite Hops|done|done| |lia].
  pose proof (steps_sized reference_grid s evs _ c Hes Hs ltac:(safe_lia)) as Hs1.
  set (l := grid_report _ _ g). rewrite <-(Z.add_0_r (c + _)).
  apply (sized_frame _ (run s evs) _ (LayoutChange l)); [done|done| |done].
  rewrite dispatch_LayoutChange. simpl. subst l. by rewrite <-!length_ids, ids_grid_report.
Qed.

Lemma interact_refines_from s d c acts :
  sized c s → abs s = Some d →
  c + Z.of_nat (length acts) + 2 ≤ 2 ^ 52 →
  forallb typed_in_range acts = true →
  ∃ rs d', mapM abs_request (requests s acts) = Some rs
           ∧ spec_interact d rs = Some d'
           ∧ abs (interact s acts) = Some d'.
Proof.
  revert s d c. induction acts as [|a acts IH]; intros s d c Hs Hd Hle Hr.
  { by exists [], d. }
  simpl in Hr. apply andb_true_iff in Hr as [Hr Hrs]. cbn [requests interact foldl].
  rewrite length_cons, Nat2Z.inj_succ in Hle.
  destruct (request s a) as [[evs g]|] eqn:Hreq.
  - destruct (act_refines s a evs g d c Hs ltac:(lia) Hr Hd Hreq)
      as (r & d1 & c1 & Hreq' & Hact & Hd1 & Hs1 & Hc1).
    destruct (IH (act s a) d1 c1 Hs1 Hd1 ltac:(lia) Hrs) as (rs & d' & Hrs' & Hspec & Hd').
    exists (r :: rs), d'. cbn [option_list app spec_interact].
    split_and!; [|by rewrite Hact|done].
    apply mapM_Some. constructor; [done|by apply mapM_Some].
  - rewrite (act_request_None s a Hreq). apply (IH s d c); [done..|lia|done].
Qed.

Section memo.
Context (same_array : list Layout → list Layout → bool).
Context (same_array_eq : ∀ a b, same_array a b = true → a = b).

(** The memoised handlers compute the state of the closed loop. *)
Lemma interact_memo acts :
  hooks (run_memo same_array (session acts)) = interact first_report acts.
Proof.
  destruct (run_memo_ok same_array same_array_eq (session acts)) as [_ ->].
  destruct (session_steps acts) as [Hs _]. symmetry. by eapply steps_run.
Qed.
End memo.

(** * Properties *)

(** C4: the dashboard in use implements the store of the specification
    with a renderer of its own.  The store starts with the two seed
    items; its renderer is the grid given the items and the columns of the
    store, never those of the component.  For at most [2^52 - 2] actions
    of the user, the texts typed into "Columns" in range, every request
    behind the actions (the events of the handlers a click or a text
    reaches, or a gesture) is a request to the store (its operations, then
    the callback of its renderer), the store computes a state for the
    session, and that state is the abstraction of the state of the
    component: its items, columns, counter and selection. *)
Theorem interact_refines acts :
  Z.of_nat (length acts) + 2 ≤ 2 ^ 52 →
  forallb typed_in_range acts = true →
  ∃ rs d, mapM abs_request (requests first_report acts) = Some rs
          ∧ spec_session rs = Some d
          ∧ abs (interact first_report acts) = Some d.
Proof.
  intros Hle Hr.
  destruct (abs_render initial initial_store None abs_initial) as (d0 & Hrender & Hd0).
  destruct (interact_refines_from first_report d0 0 acts) as (rs & d & Hrs & Hspec & Hd);
    [by split_and!|done|lia|done|].
  exists rs, d. split_and!; [done| |done]. unfold spec_session. by rewrite Hrender.
Qed.

Lemma interact_refines_witness :
  let acts := [ClickAt [0; 1; 1]%nat; TypeColumns "4"; ClickAt [1; 0; 0]%nat;
               Pointer (Drag 0 7 30); ClickAt [0; 1; 2]%nat] in
  ∃ rs d, mapM abs_request (requests first_report acts) = Some rs
          ∧ spec_session rs = Some d
          ∧ abs (interact first_report acts) = Some d.
Proof. apply interact_refines; [vm_compute; congruence|vm_compute; reflexivity]. Defined.

(** C18: every run of the dashboard implements the store of the
    specification, whatever the grid reports within its contract.  From a
    state that abstracts to the store [d] and has at most two widgets more
    than its counter, a run with texts in range, whose clicks on "Add
    Widget" leave the counter below [2^52 - 2], has events that are
    operations of the specification and ends in the state that abstracts
    to the store these operations compute from [d]. *)
Theorem run_refines reports `{!GridContract reports} s es s' d :
  steps reports s es s' → abs s = Some d →
  (length (spec.items d) ≤ 2 + spec.nextCounter d)%nat →
  Z.of_nat (spec.nextCounter d) + Z.of_nat (adds es) + 2 ≤ 2 ^ 52 →
  forallb in_range es = true →
  ∃ ops, mapM abs_event es = Some ops ∧ abs s' = Some (foldl spec.step d ops).
Proof. by apply steps_refine. Qed.

Lemma run_refines_witness :
  let es := [LayoutChange initial_compacted; AddClick; ColumnsChange "12"] in
  ∃ ops, mapM abs_event es = Some ops
         ∧ abs (run initial es) = Some (foldl spec.step initial_store ops).
Proof.
  apply (run_refines any_grid initial _ _ initial_store); [|done|simpl; lia|done|done].
  eapply steps_cons; [apply step_layout; split; [done|by repeat constructor]|].
  eapply steps_cons; [apply step_add|].
  eapply steps_cons; [apply step_columns|apply steps_nil].
Defined.
