(* ===== verification/Loop.v ===== *)
(** The renders between the component and the grid.

    The component passes [items] to the grid as the prop [layout] (line
    111), and the grid passes the layout it shows to [onLayoutChange]
    (line 115), which stores it in [items] (line 34): every call of the
    grid brings about a render that gives the grid a new prop.
    [render_loop] is this exchange.  The grid keeps the layout it
    shows; after a render it computes the layout for its props and makes
    its call when that layout is not the [same] as the one it shows.
    [same] is a parameter: with the comparison by value ([by_value]) the
    exchange ends after at most one call, in the state [Dashboard.act] and
    [Grid.report] compute in one step; with a comparison that holds of no
    two layouts, so that every render counts as a change, it never ends
    ([render_loop_never]).  [fuel] is the number of renders the exchange
    may take; two are enough. *)

From S2P Require Import Prelude JSNumber JSString Shortest Hooks Layout Compact App Renderer Grid View Tree Dashboard.

(** ** The exchange *)

(** The comparison of the layout the grid computes with the one it shows:
    by the values of the items. *)
Definition by_value (a b : list Layout) : bool := bool_decide (a = b).

(** The state after the handlers of an action have run, and the layout
    the grid shows at that moment: the one of the render before, or the
    one the gesture has left. *)
Definition handled (s : State) (a : UserAction) : State * list Layout :=
  match a with
  | ClickAt path =>
      (match render_tree s ≫= click path with
       | Some evs => dispatch_batch s evs
       | None => s
       end, items s)
  | TypeColumns value => (dispatch s (ColumnsChange value), items s)
  | Pointer g => (grid_calls s (Some g), grid_report (columns s) (items s) (Some g))
  end.

Section loop.
Context (same : list Layout → list Layout → bool).

(** The renders that follow a render with state [s] while the grid
    shows [shown], at most [fuel] of them: the state in which the grid has
    nothing to report, or [None] when [fuel] renders do not reach one. *)
Fixpoint render_loop (fuel : nat) (shown : list Layout) (s : State) : option State :=
  match fuel with
  | O => None
  | S fuel =>
      let p := grid (render s) in
      let l := grid_layout (cols p) (layout p) in
      if same l shown then Some s
      else match grid_callback p None with
           | Some ev => render_loop fuel l (dispatch s ev)
           | None => Some s
           end
  end.

(** One action of the user and the renders that follow it. *)
Definition act_loop (fuel : nat) (s : State) (a : UserAction) : option State :=
  render_loop fuel (handled s a).2 (handled s a).1.

Fixpoint interact_loop (fuel : nat) (s : State) (acts : list UserAction)
    : option State :=
  match acts with
  | [] => Some s
  | a :: acts => act_loop fuel s a ≫= λ s', interact_loop fuel s' acts
  end.

(** The dashboard from the first render, in which the grid is given
    [layout] for the first time and shows nothing of its own yet: it
    compares the layout it computes with the prop. *)
Definition mount_loop (fuel : nat) (acts : list UserAction) : option State :=
  render_loop fuel (items initial) initial ≫= λ s, interact_loop fuel s acts.

(** ** The exchange, step by step *)

Lemma render_loop_S fuel shown s :
  render_loop (S fuel) shown s
  = if same (grid_layout (columns s) (items s)) shown then Some s
    else render_loop fuel (grid_layout (columns s) (items s)) (report s).
Proof. done. Qed.

(** When no two layouts are the same, the grid calls after every render. *)
Lemma render_loop_never fuel shown s :
  (∀ a b, same a b = false) → render_loop fuel shown s = None.
Proof.
  intros Hsame. revert shown s. induction fuel as [|fuel IH]; intros shown s; [done|].
  by rewrite render_loop_S, Hsame.
Qed.

(** ** Comparison by value *)

Context (same_eq : ∀ a b, same a b = true ↔ a = b).

Lemma same_refl a : same a a = true.
Proof. by apply same_eq. Qed.

(** A grid that shows a tidy layout and is given it back is silent. *)
Lemma render_loop_quiet fuel s :
  tidy (columns s) (items s) → render_loop (S fuel) (items s) s = Some s.
Proof. intros Htidy. by rewrite render_loop_S, grid_layout_id, same_refl. Qed.

Lemma render_loop_two fuel shown s :
  wf s →
  render_loop (S (S fuel)) shown s
  = Some (if same (grid_layout (columns s) (items s)) shown then s else report s).
Proof.
  intros Hwf. rewrite render_loop_S. destruct (same _ shown); [done|].
  assert (grid_layout (columns s) (items s) = items (report s)) as -> by done.
  apply render_loop_quiet, report_tidy, Hwf.
Qed.

(** The exchange ends in the report of the grid, unless the grid shows
    the layout it computes while the component holds another one. *)
Lemma render_loop_report fuel shown s :
  wf s → (grid_layout (columns s) (items s) = shown → items s = shown) →
  render_loop (S (S fuel)) shown s = Some (report s).
Proof.
  intros Hwf Hsync. rewrite render_loop_two by done.
  destruct (same _ shown) eqn:Hs; [|done]. apply same_eq in Hs.
  unfold report. rewrite dispatch_LayoutChange, Hs, <-(Hsync Hs). by destruct s.
Qed.

(** A click that leaves the ids as they are leaves the items as they
    are. *)
Lemma click_sync s ev :
  wf s → ev ∈ clicks (render s) →
  ids (items (dispatch s ev)) = ids (items s) → items (dispatch s ev) = items s.
Proof.
  intros Hwf [->|[[-> Hd]|(itemId & -> & Hin)]]%elem_of_clicks.
  - rewrite dispatch_AddClick. simpl. intros Hids%(f_equal length).
    rewrite !length_ids, length_app in Hids. simpl in Hids. lia.
  - apply removeDisabled_false in Hd as (k & Hk & Hne).
    rewrite (dispatch_RemoveClick_selected s k) by done. simpl.
    intros Hids%(f_equal length). rewrite !length_ids in Hids.
    apply (wf_selected _ Hwf), list_elem_of_fmap in Hk as (it & -> & Hit).
    assert (length (filter (λ item, i item ≠ i it) (items s)) < length (items s)); [|lia].
    apply (length_filter_lt _ _ it Hit). by intros Hne'.
  - by rewrite dispatch_WidgetClick.
Qed.

(** [Dashboard.act] is the state the exchange ends in. *)
Lemma act_loop_act fuel s a :
  wf s → tidy (columns s) (items s) →
  act_loop (S (S fuel)) s a = Some (act s a).
Proof.
  intros Hwf Htidy. unfold act_loop.
  destruct a as [path|value|g]; cbn [handled act fst snd].
  - destruct (render_tree s ≫= click path) as [evs|] eqn:Hc; [|by apply render_loop_quiet].
    rewrite grid_calls_None. apply bind_Some in Hc as (t & Ht & Hc).
    destruct (click_one _ _ _ _ Ht Hc) as [->|(ev & -> & Hen & Hev)].
    + rewrite dispatch_batch_nil. by apply render_loop_report.
    + rewrite dispatch_batch_one. apply render_loop_report; [by apply wf_dispatch|].
      intros Hl. apply click_sync; [done..|]. by rewrite <-Hl, ids_grid_layout.
  - rewrite grid_calls_None. apply render_loop_report; [by apply wf_ColumnsChange|].
    by destruct (dispatch_ColumnsChange_frame s value) as (-> & _).
  - rewrite grid_calls_Some, render_loop_report.
    + f_equal. apply report_id. rewrite dispatch_LayoutChange. apply grid_report_tidy, Hwf.
    + apply wf_LayoutChange; [done|apply ids_grid_report].
    + done.
Qed.

Lemma interact_loop_interact fuel s acts :
  wf s → tidy (columns s) (items s) →
  interact_loop (S (S fuel)) s acts = Some (interact s acts).
Proof.
  revert s. induction acts as [|a acts IH]; intros s Hwf Htidy; [done|].
  cbn [interact_loop]. rewrite act_loop_act by done. simpl.
  apply IH; [by apply act_wf|by apply act_tidy].
Qed.

(** The first call of the grid: item [b] does not fit the ten columns. *)
Lemma mount_report fuel :
  render_loop (S (S fuel)) (items initial) initial = Some first_report.
Proof. by apply render_loop_report; [apply wf_initial|]. Qed.

(** * Properties *)

(** C16: the renders after a render come to an end.  When the grid
    compares layouts by value, two renders are enough from any well-formed
    state, whatever the grid shows: a first one in which the grid makes
    its call unless it shows the layout it computes, and a second one in
    which it has nothing to report.  More renders change nothing. *)
Theorem renders_settle fuel shown s :
  wf s → 2 ≤ fuel →
  render_loop fuel shown s
  = Some (if same (grid_layout (columns s) (items s)) shown then s else report s).
Proof.
  intros Hwf Hfuel. destruct fuel as [|[|fuel]]; [lia..|]. by apply render_loop_two.
Qed.

(** C17: the dashboard with its renders written out is the dashboard of
    [Dashboard.interact].  From the first render, with two or more renders
    allowed after each action and the grid comparing by value, the
    exchange of renders ends after every action, and the state after the
    actions is the one [interact] computes from the first report of the
    grid. *)
Theorem mount_loop_interact fuel acts :
  2 ≤ fuel → mount_loop fuel acts = Some (interact first_report acts).
Proof.
  intros Hfuel. destruct fuel as [|[|fuel]]; [lia..|].
  unfold mount_loop. rewrite mount_report. simpl.
  apply interact_loop_interact; [apply wf_first_report|apply tidy_first_report].
Qed.
End loop.

Lemma by_value_eq a b : by_value a b = true ↔ a = b.
Proof. apply bool_decide_eq_true. Qed.

Lemma renders_settle_witness :
  render_loop by_value 5 [] (dispatch first_report AddClick)
  = Some (report (dispatch first_report AddClick)).
Proof.
  apply (renders_settle by_value by_value_eq 5 [] (dispatch first_report AddClick));
    [apply wf_AddClick, wf_first_report|lia].
Defined.

Lemma mount_loop_interact_witness :
  let acts := [ClickAt [0; 1; 1]%nat; TypeColumns "4"; Pointer (Drag 0 7 30)] in
  mount_loop by_value 2 acts = Some (interact first_report acts).
Proof. apply (mount_loop_interact by_value by_value_eq 2); lia. Defined.
